(** * A shallow embedding of the dingz adapter (src/index.js and
    src/unnamed/part_000) and the properties of its synchronisation engine.

    [src/index.js] is the HTTP/webhook generation of the adapter,
    [src/unnamed/part_000] the MQTT generation.  Both share the capability
    resolution, [apiCall], [asDict], [updateFromDiscovery] and [poll]; the
    MQTT generation adds the push path ([DingzMQTT.connect] and
    [Dingz.mqttEvent]), the webhook generation has [handleGenericEvent]. *)

From Stdlib Require Import ZArith Lia Ascii String.
From stdpp Require Import base gmap strings list pretty.

Open Scope Z_scope.
Set Warnings "-register-all".

(** ** JavaScript values *)

(** The values the code handles: everything [JSON.parse] can produce plus
    [undefined].  A JSON number is kept as its literal text; none of the
    properties below depends on its floating-point value. *)
Inductive jsval :=
| JUndef
| JNull
| JBool (b : bool)
| JNum (lexeme : string)
| JStr (s : string)
| JArr (elems : list jsval)
| JObj (members : list (string * jsval)).

Definition is_digit (c : ascii) : bool :=
  let n := Ascii.nat_of_ascii c in Nat.leb 48 n && Nat.leb n 57.

(** A number literal is falsy iff its mantissa has no non-zero digit. *)
Fixpoint num_nonzero (s : string) : bool :=
  match s with
  | EmptyString => false
  | String c s' =>
      if Ascii.eqb c "e"%char || Ascii.eqb c "E"%char then false
      else if is_digit c && negb (Ascii.eqb c "0"%char) then true
      else num_nonzero s'
  end.

(** JavaScript truthiness ([if (x)], [!x], [a || b]). *)
Definition truthy (v : jsval) : bool :=
  match v with
  | JUndef | JNull => false
  | JBool b => b
  | JNum s => num_nonzero s
  | JStr s => negb (String.eqb s "")
  | JArr _ | JObj _ => true
  end.

(** [a || b] *)
Definition js_or (a b : jsval) : jsval := if truthy a then a else b.

(** Member access [o.k]: the last member with that key wins, as in
    [JSON.parse]; a missing key is [undefined]; [null.k] and
    [undefined.k] throw a TypeError (signalled by [None]). *)
Definition jget (o : jsval) (k : string) : option jsval :=
  match o with
  | JUndef | JNull => None
  | JObj ms =>
      Some (default JUndef
              (foldl (fun acc kv => if String.eqb kv.1 k then Some kv.2 else acc)
                     None ms))
  | _ => Some JUndef
  end.

(** ** Errors and the effect monad *)

Inductive js_error :=
| ErrFetch (type code : option string)  (** node-fetch failure, [error.type], [error.code] *)
| ErrHttp (status : Z) (text : string)  (** [new Error(`${status}: ${text}`)] *)
| ErrJson                               (** rejection of [response.json()] *)
| ErrType (what : string).              (** TypeError *)

Inductive res (A : Type) :=
| Ok (a : A)
| Exc (e : js_error).
Arguments Ok {A} a.
Arguments Exc {A} e.

(** The device object.  The capability flags are the fields the
    constructor sets from the configuration queries; [properties] holds the
    cached value of every registered property (a key is present iff the
    property is registered), [minimum]/[maximum] the bounds written after
    construction, [events] the events fired so far (oldest first) and
    [requests] the HTTP requests issued, as (path, method). *)
Record dev := mkDev {
  connected : jsval;
  address : jsval;
  deviceType : jsval;
  mac : string;
  shade1 : bool;
  shade2 : bool;
  dimmerGroup1 : bool;
  dimmerGroup2 : bool;
  motionSensor : bool;
  thermostat : bool;
  thermostatOutput : option Z;
  properties : gmap string jsval;
  minimum : gmap string jsval;
  maximum : gmap string jsval;
  events : list string;
  requests : list (string * string)
}.

Definition set_connected (v : jsval) (d : dev) : dev :=
  mkDev v d.(address) d.(deviceType) d.(mac) d.(shade1) d.(shade2)
    d.(dimmerGroup1) d.(dimmerGroup2) d.(motionSensor) d.(thermostat)
    d.(thermostatOutput) d.(properties) d.(minimum) d.(maximum) d.(events)
    d.(requests).

Definition set_address (v : jsval) (d : dev) : dev :=
  mkDev d.(connected) v d.(deviceType) d.(mac) d.(shade1) d.(shade2)
    d.(dimmerGroup1) d.(dimmerGroup2) d.(motionSensor) d.(thermostat)
    d.(thermostatOutput) d.(properties) d.(minimum) d.(maximum) d.(events)
    d.(requests).

Definition set_deviceType (v : jsval) (d : dev) : dev :=
  mkDev d.(connected) d.(address) v d.(mac) d.(shade1) d.(shade2)
    d.(dimmerGroup1) d.(dimmerGroup2) d.(motionSensor) d.(thermostat)
    d.(thermostatOutput) d.(properties) d.(minimum) d.(maximum) d.(events)
    d.(requests).

Definition set_properties (ps : gmap string jsval) (d : dev) : dev :=
  mkDev d.(connected) d.(address) d.(deviceType) d.(mac) d.(shade1) d.(shade2)
    d.(dimmerGroup1) d.(dimmerGroup2) d.(motionSensor) d.(thermostat)
    d.(thermostatOutput) ps d.(minimum) d.(maximum) d.(events) d.(requests).

Definition set_bounds (mi ma : gmap string jsval) (d : dev) : dev :=
  mkDev d.(connected) d.(address) d.(deviceType) d.(mac) d.(shade1) d.(shade2)
    d.(dimmerGroup1) d.(dimmerGroup2) d.(motionSensor) d.(thermostat)
    d.(thermostatOutput) d.(properties) mi ma d.(events) d.(requests).

Definition set_events (es : list string) (d : dev) : dev :=
  mkDev d.(connected) d.(address) d.(deviceType) d.(mac) d.(shade1) d.(shade2)
    d.(dimmerGroup1) d.(dimmerGroup2) d.(motionSensor) d.(thermostat)
    d.(thermostatOutput) d.(properties) d.(minimum) d.(maximum) es d.(requests).

Definition set_requests (rs : list (string * string)) (d : dev) : dev :=
  mkDev d.(connected) d.(address) d.(deviceType) d.(mac) d.(shade1) d.(shade2)
    d.(dimmerGroup1) d.(dimmerGroup2) d.(motionSensor) d.(thermostat)
    d.(thermostatOutput) d.(properties) d.(minimum) d.(maximum) d.(events) rs.

Definition set_caps (s1 s2 g1 g2 pir : bool) (d : dev) : dev :=
  mkDev d.(connected) d.(address) d.(deviceType) d.(mac) s1 s2 g1 g2 pir
    d.(thermostat) d.(thermostatOutput) d.(properties) d.(minimum) d.(maximum)
    d.(events) d.(requests).

(** State passing with JavaScript exceptions: a thrown error keeps the
    mutations made before the throw. *)
Definition M (A : Type) : Type := dev -> res A * dev.

Definition ret {A} (a : A) : M A := fun d => (Ok a, d).
Definition throw {A} (e : js_error) : M A := fun d => (Exc e, d).
Definition bind {A B} (m : M A) (k : A -> M B) : M B :=
  fun d => match m d with
           | (Ok a, d') => k a d'
           | (Exc e, d') => (Exc e, d')
           end.
Definition get : M dev := fun d => (Ok d, d).
Definition modify (f : dev -> dev) : M unit := fun d => (Ok tt, f d).

Notation "x <- m ;; k" := (bind m (fun x => k))
  (at level 95, m at level 94, right associativity).
Notation "m ;;; k" := (bind m (fun _ => k))
  (at level 95, right associativity).

(** [this.findProperty(id).setCachedValueAndNotify(v)]: a TypeError when
    the property is not registered. *)
Definition setProp (id : string) (v : jsval) : M unit :=
  d <- get ;;
  match d.(properties) !! id with
  | Some _ => modify (set_properties (<[id := v]> d.(properties)))
  | None => throw (ErrType ("findProperty(" +:+ id +:+ ")"))
  end.

(** [this.findProperty(id)?.setCachedValueAndNotify(v)] *)
Definition setPropOpt (id : string) (v : jsval) : M unit :=
  d <- get ;;
  match d.(properties) !! id with
  | Some _ => modify (set_properties (<[id := v]> d.(properties)))
  | None => ret tt
  end.

(** [this.eventNotify(new Event(this, name))] *)
Definition eventNotify (name : string) : M unit :=
  modify (fun d => set_events (d.(events) ++ [name]) d).

(** [connectedNotify(state)]: [this.connected = state]. *)
Definition connectedNotify (v : jsval) : M unit := modify (set_connected v).

(** ** Capability resolution (Dingz constructor, [apiCall('device')]) *)

(** The [.then((info) => ...)] callback of the [device] query, for the
    [dip_config] and [has_pir] of this device's entry. *)
Definition apply_device_info (dipConfig : Z) (has_pir : bool) (d : dev) : dev :=
  set_caps (Z.eqb dipConfig 0 || Z.eqb dipConfig 2)
           (Z.leb dipConfig 1)
           (Z.eqb dipConfig 1 || Z.eqb dipConfig 3)
           (Z.leb 2 dipConfig)
           has_pir d.

(** ** apiCall *)

(** The outcome of one [fetch]: a response with its status, the result of
    [response.json()] ([None] when the body is not JSON) and the text of
    the body; or a rejected fetch with the [type] and [code] of the error. *)
Inductive fetch_outcome (A : Type) :=
| Response (status : Z) (json : option A) (text : string)
| Failure (type code : option string).
Arguments Response {A} status json text.
Arguments Failure {A} type code.

(** The test of the [catch] block. *)
Definition is_unreachable (e : js_error) : bool :=
  match e with
  | ErrFetch (Some ty) (Some c) =>
      String.eqb ty "system" &&
      (String.eqb c "ETIMEDOUT" || String.eqb c "EHOSTUNREACH")
  | _ => false
  end.

Definition catch_api {A} (e : js_error) : M (option A) :=
  if is_unreachable e then connectedNotify (JBool false) ;;; ret None
  else throw e.

(** [Dingz.apiCall(path, method)]; [None] is the value [undefined].
    [response.ok] is [200 <= status <= 299].  [return response.json()] is not
    awaited inside the [try], so a rejection of it is not caught. *)
Definition apiCall {A} (path method : string) (o : fetch_outcome A) : M (option A) :=
  d <- get ;;
  if negb (truthy d.(address)) then ret None
  else
    modify (fun d => set_requests (d.(requests) ++ [(path, method)]) d) ;;;
    match o with
    | Response status json text =>
        if (200 <=? status) && (status <=? 299) && (status <? 400) then
          if negb (status =? 204) && negb (String.eqb method "POST") then
            match json with
            | Some v => ret (Some v)
            | None => throw ErrJson
            end
          else ret None
        else catch_api (ErrHttp status text)
    | Failure ty code => catch_api (ErrFetch ty code)
    end.

(** ** updateFromDiscovery *)

Fixpoint str_has (c : ascii) (s : string) : bool :=
  match s with
  | EmptyString => false
  | String c' s' => Ascii.eqb c c' || str_has c s'
  end.

(** [address.includes(':')]; [None] when [includes] is not a function. *)
Definition includes_colon (v : jsval) : option bool :=
  match v with
  | JStr s => Some (str_has ":"%char s)
  | JArr es => Some (existsb (fun e => match e with
                                       | JStr s => String.eqb s ":"
                                       | _ => false end) es)
  | _ => None
  end.

Definition updateFromDiscovery (addr : jsval) : M unit :=
  connectedNotify (JBool true) ;;;
  if truthy addr then
    match includes_colon addr with
    | Some true => ret tt
    | Some false => modify (set_address addr)
    | None => throw (ErrType "address.includes")
    end
  else ret tt.

(** ** Property identifiers *)

(** [`${n}`] for an integer [n], and for [undefined + 1] ([NaN]). *)
Definition js_num_str (n : option Z) : string :=
  match n with Some z => pretty z | None => "NaN" end.

(** [`dimmer${i + 1}`] for a 0-based output index [i]. *)
Definition dimmer_id (i : option Z) : string :=
  "dimmer" +:+ js_num_str (option_map (fun z => z + 1) i).

(** [`shade${i + 1}`] *)
Definition shade_id (i : Z) : string := "shade" +:+ pretty (i + 1).

(** [`key${parseInt(n, 10) + 1}`] *)
Definition key_id (i : option Z) : string :=
  "key" +:+ js_num_str (option_map (fun z => z + 1) i).

(** ** Property registration (second stage of the part_000 constructor) *)

Definition reg (id : string) (ps : gmap string jsval) : gmap string jsval :=
  <[id := JUndef]> ps.

Definition addKey (i : Z) (ps : gmap string jsval) : gmap string jsval :=
  reg ("key" +:+ pretty i) ps.

Definition addDimmer (i : Z) (ps : gmap string jsval) : gmap string jsval :=
  let id := "dimmer" +:+ pretty i in
  reg (id +:+ "Power") (reg (id +:+ "Brightness") (reg id ps)).

Definition addShade (i : Z) (ps : gmap string jsval) : gmap string jsval :=
  let id := "shade" +:+ pretty i in
  reg (id +:+ "Power") (reg (id +:+ "Lamella") (reg id ps)).

Definition when (b : bool) (f : gmap string jsval -> gmap string jsval)
  (ps : gmap string jsval) : gmap string jsval := if b then f ps else ps.

(** The properties the constructor registers once the capability flags
    are known ([addProperty], [addKey], [addDimmer], [addShade]). *)
Definition register_properties (d : dev) : gmap string jsval :=
  let ps := reg "temperature" (reg "lightLevel" (reg "ledColor" (reg "led" ∅))) in
  let ps := addKey 4 (addKey 3 (addKey 2 (addKey 1 ps))) in
  let ps := when d.(dimmerGroup1) (fun ps => addDimmer 2 (addDimmer 1 ps)) ps in
  let ps := when d.(dimmerGroup2) (fun ps => addDimmer 4 (addDimmer 3 ps)) ps in
  let ps := when d.(shade1) (addShade 1) ps in
  let ps := when d.(shade2) (addShade 2) ps in
  let ps := when d.(motionSensor) (reg "motion") ps in
  when d.(thermostat)
    (fun ps =>
       let ps := reg "thermostatState" (reg "thermostatMode" (reg "targetTemperature" ps)) in
       let pid := dimmer_id d.(thermostatOutput) +:+ "Power" in
       match ps !! pid with
       | Some _ => ps        (* only the title is changed *)
       | None => reg pid ps
       end) ps.

(** ** The full-state snapshot ([GET state]) *)

(** The fields of the [state] response that [poll] reads.  The entries of
    [sensors.power_outputs] are kept by their [value] field. *)
Record dimmer_state := {
  dm_absolute : Z;           (* dimmer.index.absolute *)
  dm_on : jsval;
  dm_value : jsval
}.

Record blind_state := {
  bl_absolute : Z;           (* blind.index.absolute *)
  bl_position : jsval;
  bl_lamella : jsval
}.

Record thermostat_state := {
  th_active : bool;
  th_out : Z;
  th_enabled : bool;
  th_on : bool;
  th_mode : string;
  th_target_temp : jsval;
  th_min_target_temp : jsval;
  th_max_target_temp : jsval
}.

Record snapshot := {
  s_brightness : jsval;                  (* sensors.brightness *)
  s_room_temperature : option jsval;     (* None: no own property *)
  s_power_outputs : list jsval;          (* sensors.power_outputs[i].value *)
  s_led_on : jsval;
  s_led_mode : string;
  s_led_hsv : string;
  s_led_rgb : string;
  s_dimmers : list dimmer_state;
  s_blinds : list blind_state;
  s_thermostat : thermostat_state
}.

(** [THERMOSTAT_STATE_TO_MODE[mode]] *)
Definition THERMOSTAT_STATE_TO_MODE (mode : string) : jsval :=
  if String.eqb mode "heating" then JStr "heat"
  else if String.eqb mode "cooling" then JStr "cool"
  else JUndef.

(** [state.sensors.power_outputs[i].value]; reading [.value] of a missing
    entry throws.  [None] is an index of [NaN]. *)
Definition power_at (s : snapshot) (i : option Z) : M jsval :=
  match i with
  | Some z =>
      if z <? 0 then throw (ErrType "power_outputs[i] is undefined")
      else match s.(s_power_outputs) !! Z.to_nat z with
           | Some v => ret v
           | None => throw (ErrType "power_outputs[i] is undefined")
           end
  | None => throw (ErrType "power_outputs[NaN] is undefined")
  end.

Definition set_minimum (id : string) (v : jsval) : M unit :=
  modify (fun d => set_bounds (<[id := v]> d.(minimum)) d.(maximum) d).

Definition set_maximum (id : string) (v : jsval) : M unit :=
  modify (fun d => set_bounds d.(minimum) (<[id := v]> d.(maximum)) d).

Section Poll.

(** [hsv2rgb]: floating-point colour conversion, left abstract. *)
Variable hsv2rgb : string -> string.

(** One iteration of [for(const dimmer of state.dimmers)]. *)
Definition poll_dimmer (s : snapshot) (dm : dimmer_state) : M unit :=
  d <- get ;;
  let a := dm.(dm_absolute) in
  if (1 <? a) && d.(dimmerGroup2) || (a <=? 1) && d.(dimmerGroup1) then
    let id := dimmer_id (Some a) in
    setProp id dm.(dm_on) ;;;
    setProp (id +:+ "Brightness") dm.(dm_value) ;;;
    p <- power_at s (Some a) ;;
    setProp (id +:+ "Power") p
  else ret tt.

(** One iteration of [for(const blind of state.blinds)]. *)
Definition poll_blind (s : snapshot) (bl : blind_state) : M unit :=
  d <- get ;;
  let a := bl.(bl_absolute) in
  if (a =? 0) && d.(shade1) || (a =? 1) && d.(shade2) then
    let id := shade_id a in
    setProp id bl.(bl_position) ;;;
    setProp (id +:+ "Lamella") bl.(bl_lamella) ;;;
    m1 <- power_at s (Some (a * 2)) ;;
    m2 <- power_at s (Some (a * 2 + 1)) ;;
    setProp (id +:+ "Power") (js_or m1 m2)
  else ret tt.

Fixpoint forM {A} (f : A -> M unit) (l : list A) : M unit :=
  match l with
  | [] => ret tt
  | x :: l' => f x ;;; forM f l'
  end.

(** The thermostat block; [out] is the output whose power it reports:
    [this.thermostatOutput] in part_000, [state.thermostat.out] in
    index.js. *)
Definition poll_thermostat (s : snapshot) (out : option Z) : M unit :=
  d <- get ;;
  let th := s.(s_thermostat) in
  if th.(th_active) && d.(thermostat) then
    setProp "targetTemperature" th.(th_target_temp) ;;;
    set_minimum "targetTemperature" th.(th_min_target_temp) ;;;
    set_maximum "targetTemperature" th.(th_max_target_temp) ;;;
    setProp "thermostatMode"
      (if th.(th_enabled) then THERMOSTAT_STATE_TO_MODE th.(th_mode) else JStr "off") ;;;
    setProp "thermostatState" (if th.(th_on) then JStr th.(th_mode) else JStr "off") ;;;
    let pid := dimmer_id out +:+ "Power" in
    d <- get ;;
    match d.(properties) !! pid with
    | None => throw (ErrType ("findProperty(" +:+ pid +:+ ")"))
    | Some _ => p <- power_at s out ;; setProp pid p
    end
  else ret tt.

(** Everything [poll] does with a snapshot it received. *)
Definition apply_state (s : snapshot) (out : option Z) : M unit :=
  (match s.(s_brightness) with
   | JNull => ret tt
   | b => setProp "lightLevel" b
   end) ;;;
  (match s.(s_room_temperature) with
   | Some t => setProp "temperature" t
   | None => ret tt
   end) ;;;
  setProp "led" s.(s_led_on) ;;;
  setProp "ledColor"
    (JStr ("#" +:+ (if String.eqb s.(s_led_mode) "hsv" then hsv2rgb s.(s_led_hsv)
                    else s.(s_led_rgb)))) ;;;
  forM (poll_dimmer s) s.(s_dimmers) ;;;
  forM (poll_blind s) s.(s_blinds) ;;;
  poll_thermostat s out.

(** [Dingz.poll] of part_000. *)
Definition poll (o : fetch_outcome snapshot) : M unit :=
  d <- get ;;
  if negb (truthy d.(connected)) then ret tt
  else
    st <- apiCall "state" "GET" o ;;
    match st with
    | None => ret tt
    | Some s => d <- get ;; apply_state s d.(thermostatOutput)
    end.

(** [Dingz.poll] of index.js: no [if (!state) return], and the thermostat
    output is read from the snapshot. *)
Definition poll_v1 (o : fetch_outcome snapshot) : M unit :=
  d <- get ;;
  if negb (truthy d.(connected)) then ret tt
  else
    st <- apiCall "state" "GET" o ;;
    match st with
    | None => throw (ErrType "state.sensors")
    | Some s => apply_state s (Some s.(s_thermostat).(th_out))
    end.

End Poll.

(** ** Strings *)

(** [s.startsWith(p)]: the rest of [s] after the prefix [p]. *)
Fixpoint strip_prefix (p s : string) : option string :=
  match p, s with
  | EmptyString, _ => Some s
  | String c p', String c' s' => if Ascii.eqb c c' then strip_prefix p' s' else None
  | String _ _, EmptyString => None
  end.

Definition starts_with (p s : string) : bool :=
  match strip_prefix p s with Some _ => true | None => false end.

Fixpoint str_rev (s : string) : string :=
  match s with
  | EmptyString => EmptyString
  | String c s' => str_rev s' +:+ String c EmptyString
  end.

(** [s.endsWith(p)] *)
Definition ends_with (p s : string) : bool := starts_with (str_rev p) (str_rev s).

(** [s.replace(pat, rep)] for a string [pat]: the first occurrence only. *)
Fixpoint replace_first (pat rep s : string) : string :=
  match strip_prefix pat s with
  | Some r => rep +:+ r
  | None =>
      match s with
      | EmptyString => EmptyString
      | String c s' => String c (replace_first pat rep s')
      end
  end.

(** [s.split(sep)] *)
Fixpoint split_on (sep : ascii) (s : string) : list string :=
  match s with
  | EmptyString => [EmptyString]
  | String c s' =>
      if Ascii.eqb c sep then EmptyString :: split_on sep s'
      else match split_on sep s' with
           | [] => [String c EmptyString]
           | x :: xs => String c x :: xs
           end
  end.

(** [parts.join(sep)] *)
Fixpoint join (sep : string) (l : list string) : string :=
  match l with
  | [] => EmptyString
  | [x] => x
  | x :: l' => x +:+ sep +:+ join sep l'
  end.

Definition ascii_lower (c : ascii) : ascii :=
  let n := Ascii.nat_of_ascii c in
  if Nat.leb 65 n && Nat.leb n 90 then Ascii.ascii_of_nat (n + 32)%nat else c.

Definition ascii_upper (c : ascii) : ascii :=
  let n := Ascii.nat_of_ascii c in
  if Nat.leb 97 n && Nat.leb n 122 then Ascii.ascii_of_nat (n - 32)%nat else c.

Fixpoint str_map (f : ascii -> ascii) (s : string) : string :=
  match s with
  | EmptyString => EmptyString
  | String c s' => String (f c) (str_map f s')
  end.

Definition digit_val (c : ascii) : Z := Z.of_nat (Ascii.nat_of_ascii c) - 48.

Fixpoint take_digits (s : string) : string * string :=
  match s with
  | String c s' =>
      if is_digit c then let '(ds, r) := take_digits s' in (String c ds, r)
      else (EmptyString, s)
  | EmptyString => (EmptyString, EmptyString)
  end.

Fixpoint digits_value (acc : Z) (s : string) : Z :=
  match s with
  | EmptyString => acc
  | String c s' => digits_value (acc * 10 + digit_val c) s'
  end.

Definition is_js_space (c : ascii) : bool :=
  let n := Ascii.nat_of_ascii c in
  Nat.eqb n 32 || (Nat.leb 9 n && Nat.leb n 13).

Fixpoint skip_js_space (s : string) : string :=
  match s with
  | String c s' => if is_js_space c then skip_js_space s' else s
  | EmptyString => EmptyString
  end.

(** [parseInt(String(x), 10)]; [None] is [NaN], and a missing argument
    is the string ["undefined"]. *)
Definition parseInt10 (x : option string) : option Z :=
  let s := skip_js_space (default "undefined" x) in
  let '(neg, s) := match s with
                   | String c s' =>
                       if Ascii.eqb c "-"%char then (true, s')
                       else if Ascii.eqb c "+"%char then (false, s')
                       else (false, s)
                   | EmptyString => (false, s)
                   end in
  match take_digits s with
  | (EmptyString, _) => None
  | (ds, _) => let v := digits_value 0 ds in Some (if neg then - v else v)
  end.

(** ** JSON.parse *)

Definition is_json_ws (c : ascii) : bool :=
  let n := Ascii.nat_of_ascii c in
  Nat.eqb n 32 || Nat.eqb n 9 || Nat.eqb n 10 || Nat.eqb n 13.

Fixpoint skip_ws (s : string) : string :=
  match s with
  | String c s' => if is_json_ws c then skip_ws s' else s
  | EmptyString => EmptyString
  end.

Definition hex_val (c : ascii) : option nat :=
  let n := Ascii.nat_of_ascii c in
  if Nat.leb 48 n && Nat.leb n 57 then Some (n - 48)%nat
  else if Nat.leb 65 n && Nat.leb n 70 then Some (n - 55)%nat
  else if Nat.leb 97 n && Nat.leb n 102 then Some (n - 87)%nat
  else None.

Definition simple_escape (e : ascii) : option ascii :=
  let n := Ascii.nat_of_ascii e in
  if Nat.eqb n 34 then Some e                      (* quote *)
  else if Nat.eqb n 92 then Some e                 (* backslash *)
  else if Nat.eqb n 47 then Some e                 (* slash *)
  else if Nat.eqb n 98 then Some (Ascii.ascii_of_nat 8)
  else if Nat.eqb n 102 then Some (Ascii.ascii_of_nat 12)
  else if Nat.eqb n 110 then Some (Ascii.ascii_of_nat 10)
  else if Nat.eqb n 114 then Some (Ascii.ascii_of_nat 13)
  else if Nat.eqb n 116 then Some (Ascii.ascii_of_nat 9)
  else None.

(** The body of a string literal after its opening quote: the contents
    and the text after the closing quote.  Strings are 8-bit here, so a
    [\uXXXX] escape keeps the low byte of the code unit. *)
Fixpoint parse_str_body (s : string) : option (string * string) :=
  match s with
  | EmptyString => None
  | String c r =>
      let n := Ascii.nat_of_ascii c in
      if Nat.eqb n 34 then Some (EmptyString, r)
      else if Nat.eqb n 92 then
        match r with
        | String e r' =>
            match simple_escape e with
            | Some c' => '(b, r'') ← parse_str_body r'; Some (String c' b, r'')
            | None =>
                if Nat.eqb (Ascii.nat_of_ascii e) 117 then
                  match r' with
                  | String h1 (String h2 (String h3 (String h4 r''))) =>
                      match hex_val h1, hex_val h2, hex_val h3, hex_val h4 with
                      | Some a, Some b, Some c, Some d =>
                          '(t, r3) ← parse_str_body r'';
                          Some (String (Ascii.ascii_of_nat (16 * c + d)%nat) t, r3)
                      | _, _, _, _ => None
                      end
                  | _ => None
                  end
                else None
            end
        | EmptyString => None
        end
      else if Nat.ltb n 32 then None
      else ('(b, r') ← parse_str_body r; Some (String c b, r'))
  end.

(** A number literal: [-?(0|[1-9][0-9]* )(.[0-9]+)?([eE][+-]?[0-9]+)?];
    the literal text and the rest. *)
Definition parse_number (s : string) : option (string * string) :=
  let '(sign, s1) := match s with
                     | String c r => if Ascii.eqb c "-"%char then ("-", r) else (EmptyString, s)
                     | EmptyString => (EmptyString, s)
                     end in
  ip ← match s1 with
       | String c r =>
           if Ascii.eqb c "0"%char then Some ("0", r)
           else if is_digit c then let '(ds, r') := take_digits r in Some (String c ds, r')
           else None
       | EmptyString => None
       end;
  let '(ipart, s2) := ip in
  fr ← match s2 with
       | String c r =>
           if Ascii.eqb c "."%char then
             match take_digits r with
             | (EmptyString, _) => None
             | (ds, r') => Some ("." +:+ ds, r')
             end
           else Some (EmptyString, s2)
       | EmptyString => Some (EmptyString, s2)
       end;
  let '(fpart, s3) := fr in
  ex ← match s3 with
       | String c r =>
           if Ascii.eqb c "e"%char || Ascii.eqb c "E"%char then
             let '(esign, r1) := match r with
                                 | String c' r' =>
                                     if Ascii.eqb c' "+"%char || Ascii.eqb c' "-"%char
                                     then (String c' EmptyString, r') else (EmptyString, r)
                                 | EmptyString => (EmptyString, r)
                                 end in
             match take_digits r1 with
             | (EmptyString, _) => None
             | (ds, r') => Some (String c EmptyString +:+ esign +:+ ds, r')
             end
           else Some (EmptyString, s3)
       | EmptyString => Some (EmptyString, s3)
       end;
  let '(epart, s4) := ex in
  Some (sign +:+ ipart +:+ fpart +:+ epart, s4).

Fixpoint parse_value (n : nat) (s : string) : option (jsval * string) :=
  match n with
  | O => None
  | S n' =>
      match skip_ws s with
      | EmptyString => None
      | String c r =>
          let k := Ascii.nat_of_ascii c in
          if Nat.eqb k 123 then                                (* { *)
            match skip_ws r with
            | String c' r' => if Ascii.eqb c' "}"%char then Some (JObj [], r')
                              else parse_members n' (skip_ws r) []
            | EmptyString => None
            end
          else if Nat.eqb k 91 then                            (* [ *)
            match skip_ws r with
            | String c' r' => if Ascii.eqb c' "]"%char then Some (JArr [], r')
                              else parse_elems n' (skip_ws r) []
            | EmptyString => None
            end
          else if Nat.eqb k 34 then                            (* quote *)
            ('(b, r') ← parse_str_body r; Some (JStr b, r'))
          else
            match strip_prefix "true" (String c r) with
            | Some r' => Some (JBool true, r')
            | None =>
            match strip_prefix "false" (String c r) with
            | Some r' => Some (JBool false, r')
            | None =>
            match strip_prefix "null" (String c r) with
            | Some r' => Some (JNull, r')
            | None => '(lex, r') ← parse_number (String c r); Some (JNum lex, r')
            end end end
      end
  end
(** Members of an object, from the first key on. *)
with parse_members (n : nat) (s : string) (acc : list (string * jsval))
  : option (jsval * string) :=
  match n with
  | O => None
  | S n' =>
      match s with
      | String c r =>
          if Ascii.eqb c (Ascii.ascii_of_nat 34) then
            '(key, r1) ← parse_str_body r;
            match skip_ws r1 with
            | String c1 r2 =>
                if Ascii.eqb c1 ":"%char then
                  '(v, r3) ← parse_value n' r2;
                  match skip_ws r3 with
                  | String c2 r4 =>
                      if Ascii.eqb c2 ","%char then parse_members n' (skip_ws r4) (acc ++ [(key, v)])
                      else if Ascii.eqb c2 "}"%char then Some (JObj (acc ++ [(key, v)]), r4)
                      else None
                  | EmptyString => None
                  end
                else None
            | EmptyString => None
            end
          else None
      | EmptyString => None
      end
  end
(** Elements of an array, from the first one on. *)
with parse_elems (n : nat) (s : string) (acc : list jsval) : option (jsval * string) :=
  match n with
  | O => None
  | S n' =>
      '(v, r1) ← parse_value n' s;
      match skip_ws r1 with
      | String c r2 =>
          if Ascii.eqb c ","%char then parse_elems n' r2 (acc ++ [v])
          else if Ascii.eqb c "]"%char then Some (JArr (acc ++ [v]), r2)
          else None
      | EmptyString => None
      end
  end.

(** [JSON.parse(text)]; [None] is a SyntaxError.  The fuel bounds the
    number of nested values and members, which never exceeds the length. *)
Definition JSON_parse (text : string) : option jsval :=
  match parse_value (S (String.length text)) text with
  | Some (v, r) => match skip_ws r with EmptyString => Some v | _ => None end
  | None => None
  end.

(** [x === k] for a number literal [x] and an integer [k]. *)
Definition num_eqb_int (lex : string) (k : Z) : bool :=
  let '(neg, s) := match lex with
                   | String c r => if Ascii.eqb c "-"%char then (true, r) else (false, lex)
                   | EmptyString => (false, lex)
                   end in
  let '(ip, s1) := take_digits s in
  let '(fp, s2) := match s1 with
                   | String c r => if Ascii.eqb c "."%char then take_digits r else (EmptyString, s1)
                   | EmptyString => (EmptyString, s1)
                   end in
  let ex := match s2 with
            | String _ r =>
                match r with
                | String c r' =>
                    if Ascii.eqb c "-"%char then - digits_value 0 r'
                    else if Ascii.eqb c "+"%char then digits_value 0 r'
                    else digits_value 0 r
                | EmptyString => 0
                end
            | EmptyString => 0
            end in
  let m := digits_value (digits_value 0 ip) fp in
  let m := if neg then - m else m in
  let e := ex - Z.of_nat (String.length fp) in
  if 0 <=? e then m * 10 ^ e =? k else m =? k * 10 ^ (- e).

Definition js_eq_int (v : jsval) (k : Z) : bool :=
  match v with JNum lex => num_eqb_int lex k | _ => false end.

Definition js_eq_str (v : jsval) (k : string) : bool :=
  match v with JStr s => String.eqb s k | _ => false end.

(** ** The MQTT push path (part_000) *)

(** [message.k] inside the device code. *)
Definition getM (v : jsval) (k : string) : M jsval :=
  match jget v k with
  | Some x => ret x
  | None => throw (ErrType ("cannot read " +:+ k))
  end.

(** [this.findProperty(id)?.setCachedValueAndNotify(arg)]: the argument
    is evaluated only when the property exists. *)
Definition setPropOptWith (id : string) (arg : M jsval) : M unit :=
  d <- get ;;
  match d.(properties) !! id with
  | Some _ => v <- arg ;; setProp id v
  | None => ret tt
  end.

Definition nth_str (l : list string) (i : nat) : option string := l !! i.

Definition is_some_str (x : option string) (k : string) : bool :=
  match x with Some s => String.eqb s k | None => false end.

Section Push.

(** [n.toString(16).padStart(2, '0')] for a colour channel: JavaScript
    number formatting, left abstract; [None] when [n] has no
    [toString] (undefined or null). *)
Variable hex2 : jsval -> option string.

Definition hex2M (v : jsval) : M string :=
  match hex2 v with
  | Some s => ret s
  | None => throw (ErrType "toString")
  end.

(** The [switch(message)] of [event/button]. *)
Definition button_event (keyID : string) (message : jsval) : M unit :=
  let is k := js_eq_str message k in
  if is "p" then setProp keyID (JBool true)
  else if is "m1" then eventNotify (keyID +:+ "single") ;;; setProp keyID (JBool false)
  else if is "m2" then eventNotify (keyID +:+ "double") ;;; setProp keyID (JBool false)
  else if is "m3" then eventNotify (keyID +:+ "tripple") ;;; setProp keyID (JBool false)
  else if is "m2" then eventNotify (keyID +:+ "quadruple") ;;; setProp keyID (JBool false)
  else if is "h" then ret tt
  else if is "r" then eventNotify (keyID +:+ "long") ;;; setProp keyID (JBool false)
  else match message with
       | JStr s => if starts_with "m" s then setProp keyID (JBool false)
                   else ret tt (* console.warn *)
       | _ => throw (ErrType "message.startsWith is not a function")
       end.

(** [Dingz.mqttEvent(path, message)] *)
Definition mqttEvent (path : string) (message : jsval) : M unit :=
  let parts := split_on "/"%char path in
  let deviceType := default EmptyString (nth_str parts 0) in
  let event := nth_str parts 1 in
  let details := drop 2 parts in
  let detail0 := nth_str details 0 in
  let detail1 := nth_str details 1 in
  if String.eqb deviceType "online" then connectedNotify message
  else if String.eqb deviceType "announce" then
    ip <- getM message "ip" ;;
    modify (set_address ip) ;;;
    model <- getM message "model" ;;
    modify (set_deviceType model)
  else if String.eqb deviceType "last_alive" then ret tt
  else
    modify (set_deviceType (JStr deviceType)) ;;;
    if is_some_str event "sensor" then
      if is_some_str detail0 "temperature" then setPropOpt "temperature" message
      else if is_some_str detail0 "light" then setPropOpt "lightLevel" message
      else ret tt
    else if is_some_str event "power" then
      let index := option_map (fun z => z + 1) (parseInt10 detail1) in
      if is_some_str detail0 "motor" then
        setPropOpt ("shade" +:+ js_num_str index +:+ "Power") message
      else if is_some_str detail0 "light" then
        setPropOpt ("dimmer" +:+ js_num_str index +:+ "Power") message
      else ret tt
    else if is_some_str event "energy" then ret tt
    else if is_some_str event "state" then
      if is_some_str detail0 "light" then
        let id := "dimmer" +:+ js_num_str (option_map (fun z => z + 1) (parseInt10 detail1)) in
        setPropOptWith id (t <- getM message "turn" ;; ret (JBool (js_eq_str t "off"))) ;;;
        setPropOptWith (id +:+ "Brightness") (getM message "brightness")
      else if is_some_str detail0 "thermostat" then
        setPropOptWith "thermostatMode" (getM message "status") ;;;
        setPropOptWith "thermostatState"
          (st <- getM message "status" ;;
           if js_eq_str st "on" then getM message "mode" else ret (JStr "off")) ;;;
        setPropOptWith "targetTemperature" (getM message "target")
      else if is_some_str detail0 "motor" then
        let id := "shade" +:+ js_num_str (option_map (fun z => z + 1) (parseInt10 detail1)) in
        setPropOptWith id (getM message "position") ;;;
        setPropOptWith (id +:+ "Lamella") (getM message "lamella")
      else if is_some_str detail0 "led" then
        setPropOptWith "led" (o <- getM message "on" ;; ret (JBool (js_eq_int o 1))) ;;;
        setPropOptWith "ledColor"
          (r <- getM message "r" ;; r <- hex2M r ;;
           g <- getM message "g" ;; g <- hex2M g ;;
           b <- getM message "b" ;; b <- hex2M b ;;
           ret (JStr ("#" +:+ r +:+ g +:+ b)))
      else ret tt
    else if is_some_str event "event" then
      if is_some_str detail0 "button" then
        let keyID := key_id (parseInt10 detail1) in
        if String.eqb keyID "key5" then ret tt
        else button_event keyID message
      else if is_some_str detail0 "pir" then
        if is_some_str detail1 "0" then setPropOpt "motion" message else ret tt
      else ret tt
    else ret tt.

End Push.

(** ** The MQTT client's message handler ([DingzMQTT.connect]) *)

(** The adapter: its devices by id, and the devices it started to
    construct ([new Dingz(this, deviceSpec)]), as (mac, address). *)
Record adapter := mkAdapter {
  devices : gmap string dev;
  created : list (string * jsval)
}.

(** [DingzAdapter.handleDiscovery({mac, address})] *)
Definition handleDiscovery (mac : string) (addr : jsval) (a : adapter) : adapter * res unit :=
  let id := "dingz-" +:+ str_map ascii_lower mac in
  match a.(devices) !! id with
  | Some d =>
      let '(r, d') := updateFromDiscovery addr d in
      (mkAdapter (<[id := d']> a.(devices)) a.(created), r)
  | None => (mkAdapter a.(devices) (a.(created) ++ [(mac, addr)]), Ok tt)
  end.

Definition quote : string := String (Ascii.ascii_of_nat 34) EmptyString.

(** ['"target:"'] and its replacement ['"target":'] *)
Definition target_malformed : string := quote +:+ "target:" +:+ quote.
Definition target_repaired : string := quote +:+ "target" +:+ quote +:+ ":".

(** The [try]/[catch] that turns the payload into [parsedMessage];
    [None] is the [console.error] and [return] of an undecodable payload. *)
Definition parse_message (topic messageString : string) : option jsval :=
  let ms := if ends_with "state/thermostat" topic
            then replace_first target_malformed target_repaired messageString
            else messageString in
  match JSON_parse ms with
  | Some v => Some v
  | None =>
      if existsb (String.eqb ms) ["s"; "ss"; "n"] then Some (JBool (negb (String.eqb ms "n")))
      else if existsb (String.eqb ms) ["p"; "h"; "r"] || starts_with "m" ms then Some (JStr ms)
      else None
  end.

(** [this.client.on('message', (topic, message) => ...)];
    [messageString] is [message.toString('ascii')]. *)
Definition on_message (hex2 : jsval -> option string) (topic messageString : string)
  (a : adapter) : adapter * res unit :=
  match split_on "/"%char topic with
  | [] => (a, Ok tt)
  | dingzTopic :: rest =>
      if negb (String.eqb dingzTopic "dingz") then (a, Ok tt)
      else
        let localPath := drop 1 rest in
        let id := "dingz-" +:+ default "undefined" (rest !! 0%nat) in
        match parse_message topic messageString with
        | None => (a, Ok tt)
        | Some parsed =>
            match a.(devices) !! id with
            | None =>
                if is_some_str (localPath !! 0%nat) "announce" then
                  match rest !! 0%nat, jget parsed "ip" with
                  | Some dingzId, Some ip => handleDiscovery (str_map ascii_upper dingzId) ip a
                  | _, _ => (a, Exc (ErrType "announce"))
                  end
                else (a, Ok tt)
            | Some d =>
                let '(r, d') := mqttEvent hex2 (join "/" localPath) parsed d in
                (mkAdapter (<[id := d']> a.(devices)) a.(created), r)
            end
        end
  end.

(** ** The webhook path (index.js) *)

Fixpoint take_hex (s : string) : string * string :=
  match s with
  | String c s' =>
      match hex_val c with
      | Some _ => let '(ds, r) := take_hex s' in (String c ds, r)
      | None => (EmptyString, s)
      end
  | EmptyString => (EmptyString, EmptyString)
  end.

Fixpoint hex_value (acc : Z) (s : string) : Z :=
  match s with
  | EmptyString => acc
  | String c s' => hex_value (acc * 16 + Z.of_nat (default 0%nat (hex_val c))) s'
  end.

(** [parseInt(s)] without a radix: a [0x] prefix selects base 16. *)
Definition parseInt (s : string) : option Z :=
  let s := skip_js_space s in
  let '(neg, s) := match s with
                   | String c s' =>
                       if Ascii.eqb c "-"%char then (true, s')
                       else if Ascii.eqb c "+"%char then (false, s')
                       else (false, s)
                   | EmptyString => (false, s)
                   end in
  let sgn v := if neg then - v else v in
  match strip_prefix "0x" s, strip_prefix "0X" s with
  | Some h, _ | None, Some h =>
      match take_hex h with
      | (EmptyString, _) => None
      | (ds, _) => Some (sgn (hex_value 0 ds))
      end
  | None, None =>
      match take_digits s with
      | (EmptyString, _) => None
      | (ds, _) => Some (sgn (digits_value 0 ds))
      end
  end.

(** [Dingz.handleGenericEvent(index, action)] of index.js. *)
Definition handleGenericEvent (index action : string) : M unit :=
  let indexNumber := parseInt index in
  let is k := String.eqb action k in
  if match indexNumber with Some n => n <=? 4 | None => false end then
    let keyID := "key" +:+ index in
    if is "1" then eventNotify (keyID +:+ "single")
    else if is "2" then eventNotify (keyID +:+ "double")
    else if is "3" then eventNotify (keyID +:+ "long")
    else if is "20" then eventNotify (keyID +:+ "tripple")
    else if is "21" then eventNotify (keyID +:+ "quadruple")
    else if is "8" || is "begin" then setProp keyID (JBool true)
    else if is "9" || is "end" then setProp keyID (JBool false)
    else ret tt
  else if match indexNumber with Some n => n =? 5 | None => false end then
    if is "8" then setProp "motion" (JBool true)
    else if is "9" then setProp "motion" (JBool false)
    else ret tt
  else ret tt.

(** ** asDict *)

(** The serialised form of one property or action, as built by
    gateway-addon's [asDict] (and [BasicDingzProperty.asDict], which adds
    [visible]); [None] is an absent [visible] key. *)
Record entry_dict := {
  e_visible : option jsval;
  e_rest : list (string * jsval)
}.

Record device_dict := mkDict {
  dict_properties : gmap string entry_dict;
  dict_actions : gmap string entry_dict
}.

(** [visible === false] *)
Definition hidden (e : entry_dict) : bool :=
  match e.(e_visible) with Some (JBool false) => true | _ => false end.

(** Deleting, while iterating [Object.entries(...)], every key whose
    entry is hidden. *)
Fixpoint delete_hidden (ks : list (string * entry_dict)) (m : gmap string entry_dict)
  : gmap string entry_dict :=
  match ks with
  | [] => m
  | (k, e) :: ks' => delete_hidden ks' (if hidden e then delete k m else m)
  end.

(** [Dingz.asDict()] applied to the result of [super.asDict()]. *)
Definition asDict (dict : device_dict) : device_dict :=
  mkDict (delete_hidden (map_to_list dict.(dict_properties)) dict.(dict_properties))
         (delete_hidden (map_to_list dict.(dict_actions)) dict.(dict_actions)).

(** * Properties *)

(** ** Capability resolution *)


Definition logged (path method : string) (d : dev) : dev :=
  set_requests (d.(requests) ++ [(path, method)]) d.

Definition dev_example : dev :=
  mkDev (JBool true) (JStr "192.168.1.20") (JStr "dingz") "AABBCCDDEEFF"
    false true true false true true (Some 2) ∅ ∅ ∅ [] [].

Definition dev_with (ids : list string) : dev :=
  set_properties (list_to_map ((fun i => (i, JBool false)) <$> ids)) dev_example.

Definition caps4 (d : dev) : bool * bool * bool * option Z :=
  (d.(dimmerGroup1), d.(dimmerGroup2), d.(thermostat), d.(thermostatOutput)).

(** [m] keeps the capability flags [c] and the cached value of [k]. *)
Definition stableP {A} (c : bool * bool * bool * option Z) (k : string) (m : M A) : Prop :=
  forall d, caps4 d = c -> caps4 (snd (m d)) = c /\ (snd (m d)).(properties) !! k = d.(properties) !! k.

(** The three properties of logical dimmer [n]. *)
Definition dimmer_keys (n : Z) : list string :=
  let id := "dimmer" +:+ pretty n in [id; id +:+ "Brightness"; id +:+ "Power"].

Definition snapshot_of (o : fetch_outcome snapshot) : option snapshot :=
  match o with Response _ (Some s) _ => Some s | _ => None end.

Definition num_char (c : ascii) : bool := is_digit c || Ascii.eqb c "-"%char.

Fixpoint num_chars (s : string) : bool :=
  match s with EmptyString => true | String c s' => num_char c && num_chars s' end.

Definition nonnum_start (s : string) : bool :=
  match s with EmptyString => true | String c _ => negb (num_char c) end.

Definition absent_group (c : bool * bool * bool * option Z) (n : Z) : Prop :=
  let '(g1, g2, _, _) := c in
  (g2 = false /\ (n = 3 \/ n = 4)) \/ (g1 = false /\ (n = 1 \/ n = 2)).

(** A device of [dip_config] 1 (dimmer group B absent) whose thermostat
    valve is on output 2, with the properties the constructor registers. *)
Definition dev_thermo_base : dev :=
  mkDev (JBool true) (JStr "192.168.1.20") (JStr "dingz") "AABBCCDDEEFF"
    false true true false false true (Some 2) ∅ ∅ ∅ [] [].

Definition dev_thermo : dev :=
  set_properties (register_properties dev_thermo_base) dev_thermo_base.

(** A snapshot with entries for all four dimmers and an active thermostat
    on output 2. *)
Definition snap_thermo : snapshot := {|
  s_brightness := JNum "10";
  s_room_temperature := None;
  s_power_outputs := [JNum "1"; JNum "2"; JNum "5"; JNum "7"];
  s_led_on := JBool true;
  s_led_mode := "rgb";
  s_led_hsv := "";
  s_led_rgb := "ffffff";
  s_dimmers := [ {| dm_absolute := 0; dm_on := JBool true; dm_value := JNum "50" |};
                 {| dm_absolute := 1; dm_on := JBool true; dm_value := JNum "60" |};
                 {| dm_absolute := 2; dm_on := JBool true; dm_value := JNum "70" |};
                 {| dm_absolute := 3; dm_on := JBool true; dm_value := JNum "80" |} ];
  s_blinds := [ {| bl_absolute := 1; bl_position := JNum "30"; bl_lamella := JNum "0" |} ];
  s_thermostat := {| th_active := true; th_out := 2; th_enabled := true; th_on := true;
                     th_mode := "heating"; th_target_temp := JNum "21";
                     th_min_target_temp := JNum "5"; th_max_target_temp := JNum "30" |}
|}.

(** The entry points that act on one device: a poll cycle of either
    generation, a discovery ([handleDiscovery] of a known device calls
    [updateFromDiscovery]), an MQTT push ([mqttEvent], part_000), a webhook
    event ([handleGenericEvent], index.js) and any other [apiCall] (the
    property setters and actions). *)
Inductive dev_event :=
| EvPoll (o : fetch_outcome snapshot)
| EvPollV1 (o : fetch_outcome snapshot)
| EvDiscovery (addr : jsval)
| EvPush (path : string) (message : jsval)
| EvGeneric (index action : string)
| EvApiCall (path method : string) (o : fetch_outcome jsval).

Section Trace.

Variable hsv2rgb : string -> string.
Variable hex2 : jsval -> option string.

Definition step (e : dev_event) : M unit :=
  match e with
  | EvPoll o => poll hsv2rgb o
  | EvPollV1 o => poll_v1 hsv2rgb o
  | EvDiscovery addr => updateFromDiscovery addr
  | EvPush path message => mqttEvent hex2 path message
  | EvGeneric index action => handleGenericEvent index action
  | EvApiCall path method o => apiCall path method o ;;; ret tt
  end.

(** Each handler runs to completion or throws; a throw does not stop the
    later ones. *)
Fixpoint run (es : list dev_event) (d : dev) : dev :=
  match es with
  | [] => d
  | e :: es' => run es' (snd (step e d))
  end.

End Trace.

(** The events that can set [connected] to a truthy value:
    a discovery, and a push on the [online] topic with a truthy payload. *)
Definition reconnects (e : dev_event) : bool :=
  match e with
  | EvDiscovery _ => true
  | EvPush path message =>
      String.eqb (default EmptyString (nth_str (split_on "/"%char path) 0)) "online"
      && truthy message
  | _ => false
  end.

(** [m] never turns a disconnected device into a connected one. *)
Definition keeps_disc {A} (m : M A) : Prop :=
  forall d, truthy d.(connected) = false -> truthy (snd (m d)).(connected) = false.

Definition dev_off : dev := set_connected (JBool false) dev_example.


Abbreviation qc := (Ascii.ascii_of_nat 34).

(** A character that a payload string may hold: printable, no quote, no
    backslash and no colon. *)
Definition is_plain (c : ascii) : bool :=
  let n := Ascii.nat_of_ascii c in
  Nat.leb 32 n && Nat.leb n 126 && negb (Nat.eqb n 34) && negb (Nat.eqb n 92)
  && negb (Nat.eqb n 58).

Fixpoint plain (s : string) : bool :=
  match s with EmptyString => true | String c s' => is_plain c && plain s' end.

Fixpoint all_digits (s : string) : bool :=
  match s with EmptyString => true | String c s' => is_digit c && all_digits s' end.

(** The scalar member values of a payload; [SNum neg ip fp] is the
    number literal with sign [neg], integer digits [ip] and fraction
    digits [fp]. *)
Inductive scalar :=
| SNull
| SBool (b : bool)
| SStr (s : string)
| SNum (neg : bool) (ip fp : string).

Definition num_lexeme (neg : bool) (ip fp : string) : string :=
  (if neg then "-" else "") +:+ ip +:+
  (match fp with EmptyString => EmptyString | _ => "." +:+ fp end).

Definition ser_scalar (v : scalar) : string :=
  match v with
  | SNull => "null"
  | SBool true => "true"
  | SBool false => "false"
  | SStr s => quote +:+ s +:+ quote
  | SNum neg ip fp => num_lexeme neg ip fp
  end.

Definition scalar_val (v : scalar) : jsval :=
  match v with
  | SNull => JNull
  | SBool b => JBool b
  | SStr s => JStr s
  | SNum neg ip fp => JNum (num_lexeme neg ip fp)
  end.

Definition valid_ip (ip : string) : bool :=
  match ip with
  | EmptyString => false
  | String c r => if Ascii.eqb c "0"%char then String.eqb r "" else is_digit c && all_digits r
  end.

Definition wf_scalar (v : scalar) : bool :=
  match v with
  | SStr s => plain s
  | SNum _ ip fp => valid_ip ip && all_digits fp
  | _ => true
  end.

Definition ser_member (m : string * scalar) : string :=
  quote +:+ m.1 +:+ quote +:+ ":" +:+ ser_scalar m.2.

Definition member_val (m : string * scalar) : string * jsval := (m.1, scalar_val m.2).

Definition wf_member (m : string * scalar) : bool := plain m.1 && wf_scalar m.2.

(** The members before the malformed one, each followed by a comma. *)
Fixpoint ser_pre (ms : list (string * scalar)) : string :=
  match ms with [] => EmptyString | m :: ms' => ser_member m +:+ "," +:+ ser_pre ms' end.

(** The members after it, each preceded by a comma. *)
Fixpoint ser_post (ms : list (string * scalar)) : string :=
  match ms with [] => EmptyString | m :: ms' => "," +:+ ser_member m +:+ ser_post ms' end.

(** A thermostat state payload whose target member is written with the
    colon inside the key's quotes. *)
Definition thermostat_payload (pre : list (string * scalar)) (v : scalar)
  (post : list (string * scalar)) : string :=
  "{" +:+ ser_pre pre +:+ target_malformed +:+ ser_scalar v +:+ ser_post post +:+ "}".

Definition thermostat_topic (dingzId deviceType : string) : string :=
  "dingz/" +:+ dingzId +:+ "/" +:+ deviceType +:+ "/state/thermostat".

(** [replace_first] passes over [S] untouched whatever follows it. *)
Definition rsafe (S : string) : Prop :=
  forall X, replace_first target_malformed target_repaired (S +:+ X)
            = S +:+ replace_first target_malformed target_repaired X.

(** The first character before a quote is a colon. *)
Fixpoint colon_first (p : string) : bool :=
  match p with
  | EmptyString => false
  | String c p' => if Ascii.eqb c ":"%char then true
                   else if Ascii.eqb c qc then false else colon_first p'
  end.

Definition closer (c : ascii) : bool := Ascii.eqb c ","%char || Ascii.eqb c "}"%char.

Definition opt_insert (id : string) (v : jsval) (ps : gmap string jsval) : gmap string jsval :=
  match ps !! id with Some _ => <[id := v]> ps | None => ps end.

(** A thermostat device known to the adapter, and the members around the
    target of its state payload. *)
Definition thermo_pre : list (string * scalar) := [("status", SStr "on"); ("mode", SStr "heating")].
Definition thermo_post : list (string * scalar) := [("temp", SNum false "20" "5")].
Definition thermo_adapter : adapter :=
  mkAdapter {[ "dingz-AABBCCDDEEFF" := dev_with ["thermostatMode"; "thermostatState"; "targetTemperature"] ]} [].

Definition DISCOVERY_MESSAGE_BYTES : Z := 8.
Definition DINGZ_TYPE : Z := 108.
Definition MAC_BYTES : list nat := [0; 1; 2; 3; 4; 5]%nat.

(** [msg.readUInt8(i)]; [None] is the RangeError of an offset past the end. *)
Definition readUInt8 (msg : list Byte.byte) (i : nat) : option Z :=
  option_map (fun b => Z.of_N (Byte.to_N b)) (msg !! i).

Definition hex_digit (d : Z) : ascii :=
  if d <? 10 then Ascii.ascii_of_nat (48 + Z.to_nat d)
  else Ascii.ascii_of_nat (87 + Z.to_nat d).

Fixpoint hex_go (fuel : nat) (n : Z) (acc : string) : string :=
  match fuel with
  | O => acc
  | S f =>
      let acc' := String (hex_digit (n mod 16)) acc in
      if n <? 16 then acc' else hex_go f (n / 16) acc'
  end.

(** [n.toString(16)] for an integer [n >= 0]: lower-case digits, no padding. *)
Definition to_hex (n : Z) : string := hex_go (S (Z.to_nat n)) n EmptyString.

(** The result of one datagram: ignored, the [discoveryCallback] call with
    [{mac, address}], or the RangeError of a short buffer. *)
Inductive discovery_outcome :=
| Ignored
| Discovered (mac : string) (address : jsval)
| ReadError.

(** The [message] handler of the UDP socket; [size] is [remoteInfo.size]. *)
Definition on_discovery_message (msg : list Byte.byte) (size : Z) (address : jsval)
  : discovery_outcome :=
  if negb (size =? DISCOVERY_MESSAGE_BYTES) then Ignored
  else match readUInt8 msg 6 with
       | None => ReadError
       | Some type =>
           if negb (type =? DINGZ_TYPE) then Ignored
           else match mapM (readUInt8 msg) MAC_BYTES with
                | None => ReadError
                | Some bs => Discovered (join "" (map to_hex bs)) address
                end
       end.

(** The MAC bytes of a datagram. *)
Definition mac_bytes (msg : list Byte.byte) : list Byte.byte := take 6 msg.

Definition byte_z (b : Byte.byte) : Z := Z.of_N (Byte.to_N b).

(** The number of digits of [b.toString(16)]. *)
Definition hex_width (b : Byte.byte) : nat := if 16 <=? byte_z b then 2%nat else 1%nat.

(** [timer] is the interval id [this.timer] holds; [devices] the [Set] of
    devices (in insertion order); [pending] the [getPollInterval()] promises
    not settled yet; [intervals] the intervals running; [next_id] the id the
    next [setInterval] returns; [polled] the devices polled so far. *)
Record poller := mkPoller {
  timer : option nat;
  pdevices : list string;
  pending : nat;
  intervals : list nat;
  next_id : nat;
  polled : list string
}.

Definition poller_init : poller := mkPoller None [] 0 [] 0 [].

(** [Set.prototype.add] and [Set.prototype.delete] *)
Definition set_add (x : string) (s : list string) : list string :=
  if decide (x ∈ s) then s else s ++ [x].
Definition set_delete (x : string) (s : list string) : list string :=
  filter (fun y => y <> x) s.

(** [addDevice(device)]: the [then] callback is a later event. *)
Definition addDevice (dv : string) (p : poller) : poller :=
  let ds := set_add dv p.(pdevices) in
  match p.(timer) with
  | None => mkPoller None ds (S p.(pending)) p.(intervals) p.(next_id) p.(polled)
  | Some t => mkPoller (Some t) ds p.(pending) p.(intervals) p.(next_id) p.(polled)
  end.

(** [destroy()] *)
Definition destroy (p : poller) : poller :=
  match p.(timer) with
  | Some t => mkPoller None [] p.(pending) (filter (fun i => i <> t) p.(intervals)) p.(next_id) p.(polled)
  | None => mkPoller None [] p.(pending) p.(intervals) p.(next_id) p.(polled)
  end.

(** [removeDevice(device)] *)
Definition removeDevice (dv : string) (p : poller) : poller :=
  let ds := set_delete dv p.(pdevices) in
  let p' := mkPoller p.(timer) ds p.(pending) p.(intervals) p.(next_id) p.(polled) in
  if decide (length ds = 0%nat) then destroy p' else p'.

(** A [getPollInterval()] promise resolves: its [then] callback sets
    [this.timer = setInterval(...)]. *)
Definition resolve (p : poller) : poller :=
  match p.(pending) with
  | O => p
  | S k => mkPoller (Some p.(next_id)) p.(pdevices) k (p.(next_id) :: p.(intervals))
             (S p.(next_id)) p.(polled)
  end.

(** A [getPollInterval()] promise rejects ([console.error]). *)
Definition reject (p : poller) : poller :=
  mkPoller p.(timer) p.(pdevices) (Nat.pred p.(pending)) p.(intervals) p.(next_id) p.(polled).

(** A running interval fires: [notifyDevices()]. *)
Definition tick (i : nat) (p : poller) : poller :=
  if decide (i ∈ p.(intervals))
  then mkPoller p.(timer) p.(pdevices) p.(pending) p.(intervals) p.(next_id) (p.(polled) ++ p.(pdevices))
  else p.

Inductive poller_event :=
| PAdd (dv : string)          (** [DingzAdapter.handleDeviceAdded] *)
| PRemove (dv : string)       (** [DingzAdapter.handleDeviceRemoved] *)
| PDestroy                    (** [DingzAdapter.unload] *)
| PResolve
| PReject
| PTick (i : nat).

Definition poller_step (e : poller_event) (p : poller) : poller :=
  match e with
  | PAdd dv => addDevice dv p
  | PRemove dv => removeDevice dv p
  | PDestroy => destroy p
  | PResolve => resolve p
  | PReject => reject p
  | PTick i => tick i p
  end.

Definition poller_run (es : list poller_event) (p : poller) : poller :=
  foldl (fun p e => poller_step e p) p es.

(** [e] does not call [addDevice] while a [getPollInterval()] is pending
    and no timer is set. *)
Definition serial (p : poller) (e : poller_event) : Prop :=
  match e with
  | PAdd _ => p.(timer) = None -> p.(pending) = 0%nat
  | _ => True
  end.

Fixpoint serial_trace (p : poller) (es : list poller_event) : Prop :=
  match es with
  | [] => True
  | e :: es' => serial p e /\ serial_trace (poller_step e p) es'
  end.

(** At most one interval runs, and it is the one [this.timer] holds. *)
Definition one_timer (p : poller) : Prop :=
  (pending p + length (intervals p) <= 1)%nat /\
  match p.(timer) with
  | Some t => intervals p = [t]
  | None => intervals p = []
  end.

(** [this['@type'].push(t)], and the [if (!includes(t)) push(t)] guard. *)
Definition push_unique (x : string) (t : list string) : list string :=
  if decide (x ∈ t) then t else t ++ [x].

(** The [@type] list the constructor builds once the capability queries
    have resolved (the same in both files). *)
Definition device_types (d : dev) : list string :=
  let t := ["ColorControl"; "PushButton"; "TemperatureSensor"] in
  let t := if d.(motionSensor) then t ++ ["MotionSensor"] else t in
  let t := if d.(shade1) || d.(shade2) then (t ++ ["EnergyMonitor"]) ++ ["Shade"] else t in
  let t := if d.(dimmerGroup1) || d.(dimmerGroup2)
           then push_unique "EnergyMonitor" (t ++ ["Light"]) else t in
  let t := if d.(thermostat)
           then push_unique "EnergyMonitor" (t ++ ["Thermostat"]) else t in
  t.

(** The fields of a property object that the device code writes after
    construction: [visible] and [title]. *)
Record prop_meta := mkPropMeta {
  p_visible : jsval;
  p_title : jsval
}.

(** An action's metadata object: its [visible] key ([None]: absent) and
    [title]. *)
Record action_meta := mkActionMeta {
  a_visible : option jsval;
  a_title : jsval
}.

(** The device's [properties] and [actions] maps (gateway-addon's
    [addProperty] and [addAction] set the entry of the name). *)
Record meta := mkMeta {
  mprops : gmap string prop_meta;
  mactions : gmap string action_meta
}.

(** State passing over the two maps, with the TypeError of a write through
    [undefined]. *)
Definition MM (A : Type) : Type := meta -> res A * meta.

Definition mskip : MM unit := fun s => (Ok tt, s).
Definition mthrow (what : string) : MM unit := fun s => (Exc (ErrType what), s).
Definition mthen (m k : MM unit) : MM unit :=
  fun s => match m s with
           | (Ok _, s') => k s'
           | (Exc e, s') => (Exc e, s')
           end.
Notation "m ;> k" := (mthen m k) (at level 95, right associativity).

Definition addProperty (id : string) (p : prop_meta) : MM unit :=
  fun s => (Ok tt, mkMeta (<[id := p]> s.(mprops)) s.(mactions)).

Definition addAction (id : string) (a : action_meta) : MM unit :=
  fun s => (Ok tt, mkMeta s.(mprops) (<[id := a]> s.(mactions))).

(** [this.findProperty(id).visible = v] *)
Definition set_prop_visible (id : string) (v : jsval) : MM unit :=
  fun s => match s.(mprops) !! id with
           | Some p => (Ok tt, mkMeta (<[id := mkPropMeta v p.(p_title)]> s.(mprops)) s.(mactions))
           | None => (Exc (ErrType ("findProperty(" +:+ id +:+ ").visible")), s)
           end.

(** [this.findProperty(id).title = t] *)
Definition set_prop_title (id : string) (t : jsval) : MM unit :=
  fun s => match s.(mprops) !! id with
           | Some p => (Ok tt, mkMeta (<[id := mkPropMeta p.(p_visible) t]> s.(mprops)) s.(mactions))
           | None => (Exc (ErrType ("findProperty(" +:+ id +:+ ").title")), s)
           end.

(** [this.actions.get(id).visible = v] *)
Definition set_action_visible (id : string) (v : jsval) : MM unit :=
  fun s => match s.(mactions) !! id with
           | Some a => (Ok tt, mkMeta s.(mprops) (<[id := mkActionMeta (Some v) a.(a_title)]> s.(mactions)))
           | None => (Exc (ErrType ("actions.get(" +:+ id +:+ ").visible")), s)
           end.

(** [this.actions.get(id).title = t] *)
Definition set_action_title (id : string) (t : jsval) : MM unit :=
  fun s => match s.(mactions) !! id with
           | Some a => (Ok tt, mkMeta s.(mprops) (<[id := mkActionMeta a.(a_visible) t]> s.(mactions)))
           | None => (Exc (ErrType ("actions.get(" +:+ id +:+ ").title")), s)
           end.

(** [this.actions.delete(id)] *)
Definition delete_action (id : string) : MM unit :=
  fun s => (Ok tt, mkMeta s.(mprops) (delete id s.(mactions))).

(** [o[i]] for an integer [i]; [None] is the TypeError of [undefined[i]]
    and [null[i]]. *)
Definition js_index (v : jsval) (i : Z) : option jsval :=
  match v with
  | JUndef | JNull => None
  | JArr es => Some (if 0 <=? i then default JUndef (es !! Z.to_nat i) else JUndef)
  | JStr s => Some (if 0 <=? i then
                      match String.get (Z.to_nat i) s with
                      | Some c => JStr (String c EmptyString)
                      | None => JUndef
                      end
                    else JUndef)
  | JObj _ => jget v (pretty i)
  | _ => Some JUndef
  end.

(** [(index - 1) !== this.thermostatOutput] *)
Definition not_thermostat_output (out : option Z) (i : Z) : bool :=
  match out with Some o => negb (i - 1 =? o) | None => true end.

(** The [visible] of a new [BasicDingzProperty]: part_000 takes
    [spec.visible] when it is not [undefined]; index.js sets [true]. *)
Definition basic_visible (spec_visible : option jsval) : jsval :=
  match spec_visible with Some v => v | None => JBool true end.
Definition basic_visible_v1 (spec_visible : option jsval) : jsval := JBool true.

(** [Dingz.addDimmer(index)], given the [visible] rule of the file's
    [BasicDingzProperty]. *)
Definition addDimmer_with (vis : option jsval -> jsval) (out : option Z) (i : Z) : MM unit :=
  let dimmerID := "dimmer" +:+ pretty i in
  let visible := not_thermostat_output out i in
  addProperty dimmerID (mkPropMeta (vis (Some (JBool visible))) (JStr ("Dimmer " +:+ pretty i))) ;>
  addProperty (dimmerID +:+ "Brightness")
    (mkPropMeta (vis (Some (JBool visible))) (JStr ("Dimmer " +:+ pretty i +:+ " Brightness"))) ;>
  addProperty (dimmerID +:+ "Power")
    (mkPropMeta (vis (Some (JBool true))) (JStr ("Dimmer " +:+ pretty i +:+ " Power"))) ;>
  (if visible
   then addAction (dimmerID +:+ "toggle") (mkActionMeta None (JStr ("Toggle dimmer " +:+ pretty i)))
   else mskip).

Definition addDimmer_meta := addDimmer_with basic_visible.
Definition addDimmer_meta_v1 := addDimmer_with basic_visible_v1.

Section DimmerConfig.

(** [String(v)] for a template literal ([None]: it throws), and the loose
    equality [v == s]. *)
Variable js_String : jsval -> option string.
Variable loose_eq : jsval -> string -> bool.

(** The common part of [setDimmerConfig]: the writes after [visible] is
    computed from [config]. *)
Definition apply_dimmer_config (i : Z) (visible name : jsval) : MM unit :=
  let dimmerID := "dimmer" +:+ pretty i in
  set_prop_visible dimmerID visible ;>
  set_prop_visible (dimmerID +:+ "Brightness") visible ;>
  set_prop_visible (dimmerID +:+ "Power") visible ;>
  set_action_visible (dimmerID +:+ "toggle") visible ;>
  (if truthy name then
     set_prop_title dimmerID name ;>
     match js_String name with
     | None => mthrow "String(config.name)"
     | Some n =>
         set_prop_title (dimmerID +:+ "Brightness") (JStr (n +:+ " Brightness")) ;>
         set_prop_title (dimmerID +:+ "Power") (JStr (n +:+ " Power")) ;>
         set_action_title (dimmerID +:+ "toggle") (JStr ("Toggle " +:+ n))
     end
   else mskip) ;>
  (if negb (truthy visible) then delete_action (dimmerID +:+ "toggle") else mskip).

(** [dimmerConfig.dimmers[index - 1]] and one of its fields. *)
Definition with_config (dimmerConfig : jsval) (i : Z) (k : jsval -> MM unit) : MM unit :=
  match jget dimmerConfig "dimmers" with
  | None => mthrow "dimmerConfig.dimmers"
  | Some ds =>
      match js_index ds (i - 1) with
      | None => mthrow "dimmers[index - 1]"
      | Some config => k config
      end
  end.

(** [setDimmerConfig(index, dimmerConfig)] of part_000:
    [visible = config.active && config.type == "light"]. *)
Definition setDimmerConfig (out : option Z) (i : Z) (dimmerConfig : jsval) : MM unit :=
  if not_thermostat_output out i then
    with_config dimmerConfig i (fun config =>
      match jget config "active", jget config "type", jget config "name" with
      | Some active, Some type, Some name =>
          let visible := if truthy active then JBool (loose_eq type "light") else active in
          apply_dimmer_config i visible name
      | _, _, _ => mthrow "config.active"
      end)
  else mskip.

(** [setDimmerConfig(index, dimmerConfig)] of index.js:
    [visible = config.output !== 'not_connected']. *)
Definition setDimmerConfig_v1 (out : option Z) (i : Z) (dimmerConfig : jsval) : MM unit :=
  if not_thermostat_output out i then
    with_config dimmerConfig i (fun config =>
      match jget config "output", jget config "name" with
      | Some output, Some name =>
          apply_dimmer_config i (JBool (negb (js_eq_str output "not_connected"))) name
      | _, _ => mthrow "config.output"
      end)
  else mskip.

End DimmerConfig.

(** [BasicDingzProperty.asDict()]: the serialised property carries
    [this.visible]. *)
Definition prop_entry (p : prop_meta) (rest : list (string * jsval)) : entry_dict :=
  {| e_visible := Some p.(p_visible); e_rest := rest |}.

(** The serialised action: its metadata object. *)
Definition action_entry (a : action_meta) (rest : list (string * jsval)) : entry_dict :=
  {| e_visible := a.(a_visible); e_rest := rest |}.

(** [s.slice(b, e)] and [s.slice(b)] for [0 <= b], [0 <= e]. *)
Definition js_slice (b e : nat) (s : string) : string := substring b (e - b) s.
Definition js_slice_from (b : nat) (s : string) : string :=
  substring b (String.length s - b) s.

(** [Dingz.performAction(action)] of index.js (the dimmer branch is a
    TODO and returns [undefined]). *)
Definition performAction_v1 (name : string) (o : fetch_outcome jsval) : M (option jsval) :=
  if starts_with "shade" name then
    let index := option_map (fun z => z - 1) (parseInt (js_slice 5 6 name)) in
    let actionName := js_slice_from 6 name in
    apiCall ("shade/" +:+ js_num_str index +:+ "/" +:+ actionName) "POST" o
  else ret None.

Section Mqtt.

(** [JSON.stringify(message)], and [String(v)] for the values other than
    strings, [undefined], [null] and booleans ([None]: it throws). *)
Variable JSON_stringify : jsval -> string.
Variable js_String : jsval -> option string.

(** [`${v}`] *)
Definition js_template (v : jsval) : option string :=
  match v with
  | JStr s => Some s
  | JUndef => Some "undefined"
  | JNull => Some "null"
  | JBool b => Some (if b then "true" else "false")
  | _ => js_String v
  end.

(** [DingzMQTT.sendEvent(dingzId, localPath, message)]: the publish. *)
Definition sendEvent (dingzId localPath message : string) : string * string :=
  ("dingz/" +:+ dingzId +:+ "/" +:+ localPath, message).

(** [Dingz.sendMqttEvent(path, message)]: [Ok None] is the
    [console.error] and [return] of a device whose type is not known yet. *)
Definition sendMqttEvent (d : dev) (path : string) (message : jsval)
  : res (option (string * string)) :=
  if negb (truthy d.(deviceType)) then Ok None
  else match js_template d.(deviceType) with
       | None => Exc (ErrType "String(deviceType)")
       | Some ty =>
           Ok (Some (sendEvent (str_map ascii_lower d.(mac)) (ty +:+ "/" +:+ path)
                       (JSON_stringify message)))
       end.

(** [Dingz.performAction(action)] of part_000. *)
Definition performAction (d : dev) (name : string) : res (option (string * string)) :=
  if starts_with "shade" name then
    let index := option_map (fun z => z - 1) (parseInt (js_slice 5 6 name)) in
    let actionName := js_slice_from 6 name in
    let motion := if String.eqb actionName "stop" then Some 0
                  else if String.eqb actionName "up" then Some 1
                  else if String.eqb actionName "down" then Some 2
                  else None in
    match motion with
    | None => Ok None            (* console.error, return *)
    | Some m => sendMqttEvent d ("command/motor/" +:+ js_num_str index)
                  (JObj [("motion", JNum (pretty m))])
    end
  else if starts_with "dimmer" name then
    sendMqttEvent d ("command/light/" +:+
                     js_num_str (option_map (fun z => z - 1) (parseInt (js_slice 6 7 name))))
      (JObj [("turn", JStr "toggle")])
  else Ok None.

End Mqtt.

(** The adapter holding [dev_example] once its type is known. *)
Definition adapter_typed : adapter :=
  mkAdapter {[ "dingz-aabbccddeeff" := set_deviceType (JStr "dingz") dev_example ]} [].

(** [this.device.getProperty(name)] of gateway-addon's [Device]: the
    cached value, or a rejection when no property has that name. *)
Definition getProperty (name : string) : M jsval :=
  d <- get ;;
  match d.(properties) !! name with
  | Some v => ret v
  | None => throw (ErrType ("Property " +:+ name +:+ " not found"))
  end.

(** [try { v = await this.device.getProperty(name); } catch { v = 100; }] *)
Definition getProperty_or_100 (name : string) : M jsval :=
  d <- get ;;
  match d.(properties) !! name with
  | Some v => ret v
  | None => ret (JNum "100")
  end.

(** [s.slice(0, -k)] *)
Definition js_slice_drop_end (k : nat) (s : string) : string :=
  substring 0 (String.length s - k) s.

(** [parseInt(s, 16)]: a [0x] prefix is skipped. *)
Definition parseInt16 (s : string) : option Z :=
  let s := skip_js_space s in
  let '(neg, s) := match s with
                   | String c s' =>
                       if Ascii.eqb c "-"%char then (true, s')
                       else if Ascii.eqb c "+"%char then (false, s')
                       else (false, s)
                   | EmptyString => (false, s)
                   end in
  let h := match strip_prefix "0x" s, strip_prefix "0X" s with
           | Some h, _ | None, Some h => h
           | None, None => s
           end in
  match take_hex h with
  | (EmptyString, _) => None
  | (ds, _) => Some (let v := hex_value 0 ds in if neg then - v else v)
  end.

(** A number in a message: [NaN] is written [null] by [JSON.stringify]. *)
Definition js_num (n : option Z) : jsval :=
  match n with Some z => JNum (pretty z) | None => JNull end.

(** [s.padStart(2, '0')] *)
Definition pad2 (s : string) : string :=
  match String.length s with
  | O => "00"
  | 1%nat => "0" +:+ s
  | _ => s
  end.

(** [`#${r}${g}${b}`] with each channel [c.toString(16).padStart(2, '0')],
    the colour the device reports. *)
Definition color_string (r g b : Z) : string :=
  "#" +:+ pad2 (to_hex r) +:+ pad2 (to_hex g) +:+ pad2 (to_hex b).

Section SetValue.

Variable js_String : jsval -> option string.
Variable JSON_stringify : jsval -> string.

(** [super.setValue(value)] of gateway-addon's [Property]. *)
Variable super_setValue : string -> jsval -> M unit.

(** [parseInt(value.slice(b, e), 16)] for an array [value]. *)
Variable parseInt16_array_slice : list jsval -> nat -> option nat -> option Z.

(** [`${v}`] *)
Definition tmpl (v : jsval) : M string :=
  match js_template js_String v with
  | Some s => ret s
  | None => throw (ErrType "String(value)")
  end.

(** [parseInt(value.slice(b, e), 16)] ([e = None]: [value.slice(b)]). *)
Definition channel (value : jsval) (b : nat) (e : option nat) : M (option Z) :=
  match value with
  | JStr s => ret (parseInt16 (match e with
                               | Some e => js_slice b e s
                               | None => js_slice_from b s
                               end))
  | JArr l => ret (parseInt16_array_slice l b e)
  | _ => throw (ErrType "value.slice is not a function")
  end.

(** [await this.device.sendMqttEvent(path, message)]: the message
    published, [None] when none is. *)
Definition publish (path : string) (message : jsval) : M (option (string * string)) :=
  d <- get ;;
  match sendMqttEvent JSON_stringify js_String d path message with
  | Ok p => ret p
  | Exc e => throw e
  end.

(** The shade branch: the property [shade<i>] or [shade<i>Lamella], the
    value written, and the other coordinate read back. *)
Definition shade_values (name : string) (value : jsval) : M (string * jsval * jsval) :=
  let index := js_slice_from 5 name in
  if ends_with "Lamella" name then
    blindValue <- getProperty_or_100 (js_slice_drop_end 7 name) ;;
    ret (js_slice_drop_end 7 index, blindValue, value)
  else
    lamellaValue <- getProperty_or_100 (name +:+ "Lamella") ;;
    ret (index, value, lamellaValue).

(** [DingzProperty.setValue(value)] of index.js; [o] is the outcome of its
    request. *)
Definition setValue_v1 (name : string) (value : jsval) (o : fetch_outcome jsval) : M unit :=
  (if String.eqb name "led" then
     apiCall "led/set" "POST" o ;;; ret tt
   else if String.eqb name "ledColor" then
     match value with
     | JStr _ => apiCall "led/set" "POST" o ;;; ret tt
     | _ => throw (ErrType "value.slice(...).toUpperCase is not a function")
     end
   else if String.eqb name "targetTemperature" then
     m <- getProperty "thermostatMode" ;;
     vs <- tmpl value ;;
     apiCall ("thermostat?target_temp=" +:+ vs +:+ "&enable=" +:+
              (if js_eq_str m "off" then "false" else "true")) "POST" o ;;; ret tt
   else if String.eqb name "thermostatMode" then
     t <- getProperty "targetTemperature" ;;
     ts <- tmpl t ;;
     apiCall ("thermostat?target_temp=" +:+ ts +:+ "&enable=" +:+
              (if js_eq_str value "off" then "false" else "true")) "POST" o ;;; ret tt
   else if starts_with "shade" name then
     sv <- shade_values name value ;;
     let '(index, blindValue, lamellaValue) := sv in
     bs <- tmpl blindValue ;;
     ls <- tmpl lamellaValue ;;
     apiCall ("shade/" +:+ js_num_str (option_map (fun z => z - 1) (parseInt index)) +:+
              "?blind=" +:+ bs +:+ "&lamella=" +:+ ls) "POST" o ;;; ret tt
   else ret tt) ;;;
  super_setValue name value.

(** [DingzProperty.setValue(value)] of part_000: the message it publishes,
    if any. *)
Definition setValue (name : string) (value : jsval) (o : fetch_outcome jsval)
  : M (option (string * string)) :=
  if String.eqb name "led" then
    p <- publish "command/led" (JObj [("on", JNum (if truthy value then "1" else "0"))]) ;;
    super_setValue name value ;;; ret p
  else if String.eqb name "ledColor" then
    if negb (truthy value) then ret None
    else
      r <- channel value 1 (Some 3%nat) ;;
      g <- channel value 3 (Some 5%nat) ;;
      b <- channel value 5 None ;;
      p <- publish "command/led" (JObj [("r", js_num r); ("g", js_num g); ("b", js_num b)]) ;;
      super_setValue name value ;;; ret p
  else if String.eqb name "targetTemperature" then
    m <- getProperty "thermostatMode" ;;
    ms <- tmpl m ;;
    vs <- tmpl value ;;
    apiCall ("thermostat/" +:+ ms +:+ "?temp=" +:+ vs) "POST" o ;;;
    super_setValue name value ;;; ret None
  else if String.eqb name "thermostatMode" then
    t <- getProperty "targetTemperature" ;;
    ts <- tmpl t ;;
    apiCall ("thermostat/" +:+ (if truthy value then "on" else "off") +:+ "?temp=" +:+ ts)
      "POST" o ;;;
    super_setValue name value ;;; ret None
  else if starts_with "shade" name then
    sv <- shade_values name value ;;
    let '(index, blindValue, lamellaValue) := sv in
    p <- publish ("command/motor/" +:+ js_num_str (option_map (fun z => z - 1) (parseInt index)))
           (JObj [("position", blindValue); ("lamella", lamellaValue)]) ;;
    super_setValue name value ;;; ret p
  else
    super_setValue name value ;;; ret None.

End SetValue.

(** A [200] answer to a request. *)
Definition ok_response : fetch_outcome jsval := Response 200 None EmptyString.

(** The device with a target temperature of ["21"]. *)
Definition dev_thermo21 : dev :=
  set_properties {[ "targetTemperature" := JStr "21" ]} dev_example.

(** [String(x)] for a number written in its shortest form. *)
Definition num_String (v : jsval) : option string :=
  match v with JNum s => Some s | _ => None end.

(** C2: for a [dip_config] in 0..3 the capability flags follow the truth
    table: shade 1 iff 0 or 2, shade 2 iff at most 1, dimmer group A
    (dimmers 1-2) iff 1 or 3, dimmer group B (dimmers 3-4) iff at least 2. *)
Theorem dip_config_truth_table (dipConfig : Z) (has_pir : bool) (d : dev) :
  0 <= dipConfig <= 3 ->
  let d' := apply_device_info dipConfig has_pir d in
  (d'.(shade1) = true <-> dipConfig = 0 \/ dipConfig = 2) /\
  (d'.(shade2) = true <-> dipConfig <= 1) /\
  (d'.(dimmerGroup1) = true <-> dipConfig = 1 \/ dipConfig = 3) /\
  (d'.(dimmerGroup2) = true <-> 2 <= dipConfig).
Proof.
  intros Hr d'. subst d'.
  assert (dipConfig = 0 \/ dipConfig = 1 \/ dipConfig = 2 \/ dipConfig = 3) as Hc by lia.
  destruct Hc as [-> | [-> | [-> | ->]]]; cbn;
    repeat split; intros; try lia; try discriminate; auto.
Qed.

Lemma dip_config_truth_table_witness :
  0 <= 2 <= 3 /\
  let d' := apply_device_info 2 true
              (mkDev (JBool true) (JStr "10.0.0.2") JUndef "A1" false false false false
                 false false None ∅ ∅ ∅ [] []) in
  (d'.(shade1) = true <-> 2 = 0 \/ 2 = 2) /\
  (d'.(shade2) = true <-> 2 <= 1) /\
  (d'.(dimmerGroup1) = true <-> 2 = 1 \/ 2 = 3) /\
  (d'.(dimmerGroup2) = true <-> 2 <= 2).
Proof.
  split; [lia |].
  apply (dip_config_truth_table 2 true); lia.
Defined.

(** C10: for a [dip_config] in 0..3 exactly one of shade 1 and dimmer
    group A is present, and exactly one of shade 2 and dimmer group B. *)
Theorem dip_config_pairing (dipConfig : Z) (has_pir : bool) (d : dev) :
  0 <= dipConfig <= 3 ->
  let d' := apply_device_info dipConfig has_pir d in
  xorb d'.(shade1) d'.(dimmerGroup1) = true /\
  xorb d'.(shade2) d'.(dimmerGroup2) = true.
Proof.
  intros Hr d'. subst d'.
  assert (dipConfig = 0 \/ dipConfig = 1 \/ dipConfig = 2 \/ dipConfig = 3) as Hc by lia.
  destruct Hc as [-> | [-> | [-> | ->]]]; cbn; auto.
Qed.

Lemma dip_config_pairing_witness :
  0 <= 1 <= 3 /\
  let d' := apply_device_info 1 false
              (mkDev (JBool true) (JStr "10.0.0.2") JUndef "A1" false false false false
                 false false None ∅ ∅ ∅ [] []) in
  xorb d'.(shade1) d'.(dimmerGroup1) = true /\
  xorb d'.(shade2) d'.(dimmerGroup2) = true.
Proof.
  split; [lia |].
  apply (dip_config_pairing 1 false); lia.
Defined.

(** ** apiCall *)

(** C4: when the device has an address, a fetch failure of type
    [system] with code [ETIMEDOUT] or [EHOSTUNREACH] marks the device
    disconnected and the call resolves with [undefined]; any other fetch
    failure is rethrown as it is; a non-2xx response is rethrown as an
    error with its status and body text; a 2xx body that is not JSON is a
    rejection too. *)
Theorem apiCall_failures {A : Type} (path method : string) (d : dev) :
  truthy d.(address) = true ->
  (forall ty code,
      ty = Some "system" /\ (code = Some "ETIMEDOUT" \/ code = Some "EHOSTUNREACH") ->
      apiCall path method (@Failure A ty code) d
      = (Ok None, set_connected (JBool false) (logged path method d))) /\
  (forall ty code,
      ~ (ty = Some "system" /\ (code = Some "ETIMEDOUT" \/ code = Some "EHOSTUNREACH")) ->
      apiCall path method (@Failure A ty code) d
      = (Exc (ErrFetch ty code), logged path method d)) /\
  (forall status json text,
      ~ (200 <= status <= 299) ->
      apiCall path method (@Response A status json text) d
      = (Exc (ErrHttp status text), logged path method d)) /\
  (forall status text,
      200 <= status <= 299 -> status <> 204 -> method <> "POST" ->
      apiCall path method (@Response A status None text) d
      = (Exc ErrJson, logged path method d)).
Proof.
  intros Haddr. unfold apiCall, bind, get, modify.
  rewrite Haddr. cbn [negb]. repeat split.
  - intros ty code [-> Hc]. unfold catch_api, is_unreachable.
    destruct Hc as [-> | ->]; reflexivity.
  - intros ty code Hn. unfold catch_api.
    destruct (is_unreachable (ErrFetch ty code)) eqn:Hu; [| reflexivity].
    exfalso. apply Hn. unfold is_unreachable in Hu.
    destruct ty as [ty|]; [| discriminate]. destruct code as [c|]; [| discriminate].
    apply andb_prop in Hu as [H1 H2]. apply String.eqb_eq in H1. subst.
    split; [reflexivity |].
    apply orb_prop in H2 as [H2 | H2]; apply String.eqb_eq in H2; subst; auto.
  - intros status json text Hn.
    destruct ((200 <=? status) && (status <=? 299) && (status <? 400)) eqn:Hs.
    + exfalso. apply Hn. apply andb_prop in Hs as [Hs _].
      apply andb_prop in Hs as [H1 H2]. apply Z.leb_le in H1. apply Z.leb_le in H2. lia.
    + reflexivity.
  - intros status text Hs H204 Hpost.
    replace ((200 <=? status) && (status <=? 299) && (status <? 400)) with true
      by (symmetry; apply andb_true_intro; split; [apply andb_true_intro; split|];
          [apply Z.leb_le | apply Z.leb_le | apply Z.ltb_lt]; lia).
    replace (status =? 204) with false by (symmetry; apply Z.eqb_neq; exact H204).
    replace (String.eqb method "POST") with false by (symmetry; apply String.eqb_neq; exact Hpost).
    reflexivity.
Qed.

Lemma apiCall_failures_witness :
  truthy dev_example.(address) = true /\
  apiCall "state" "GET" (@Failure unit (Some "system") (Some "EHOSTUNREACH")) dev_example
  = (Ok None, set_connected (JBool false) (logged "state" "GET" dev_example)).
Proof.
  split; [reflexivity |].
  apply (apiCall_failures (A := unit) "state" "GET" dev_example); [reflexivity |].
  split; [reflexivity | right; reflexivity].
Defined.

(** ** asDict *)

Lemma delete_hidden_lookup (ks : list (string * entry_dict)) (m : gmap string entry_dict)
  (k : string) :
  delete_hidden ks m !! k
  = if existsb (fun ke => String.eqb ke.1 k && hidden ke.2) ks then None else m !! k.
Proof.
  revert m. induction ks as [| [k' e] ks IH]; intros m; cbn; [reflexivity |].
  rewrite IH.
  destruct (String.eqb k' k) eqn:Hk; cbn.
  - apply String.eqb_eq in Hk. subst k'.
    destruct (hidden e); cbn.
    + destruct (existsb _ ks); [reflexivity | apply lookup_delete_eq].
    + reflexivity.
  - destruct (existsb _ ks); [reflexivity |].
    destruct (hidden e); [| reflexivity].
    apply lookup_delete_ne. intros ->. rewrite String.eqb_refl in Hk. discriminate.
Qed.

Lemma delete_hidden_self (m : gmap string entry_dict) (k : string) :
  delete_hidden (map_to_list m) m !! k
  = match m !! k with
    | Some e => if hidden e then None else Some e
    | None => None
    end.
Proof.
  rewrite delete_hidden_lookup.
  destruct (existsb _ _) eqn:Hex.
  - apply existsb_exists in Hex as [[k' e] [Hin Hke]].
    apply andb_prop in Hke as [Hk He]. apply String.eqb_eq in Hk. cbn in Hk, He. subst k'.
    apply list_elem_of_In in Hin. apply elem_of_map_to_list' in Hin. cbn in Hin. rewrite Hin, He. reflexivity.
  - destruct (m !! k) as [e|] eqn:Hm; [| reflexivity].
    destruct (hidden e) eqn:He; [| reflexivity].
    exfalso. assert (existsb (fun ke => String.eqb ke.1 k && hidden ke.2) (map_to_list m) = true)
      as Htrue; [| congruence].
    apply existsb_exists. exists (k, e). split.
    + apply list_elem_of_In. apply elem_of_map_to_list. exact Hm.
    + cbn. rewrite String.eqb_refl, He. reflexivity.
Qed.

(** C9: serialising a device drops exactly the properties and the
    actions whose [visible] is [false] and keeps every other entry as it
    is; no key is added. *)
Theorem asDict_visibility (dict : device_dict) (k : string) :
  (asDict dict).(dict_properties) !! k
  = match dict.(dict_properties) !! k with
    | Some e => match e.(e_visible) with Some (JBool false) => None | _ => Some e end
    | None => None
    end /\
  (asDict dict).(dict_actions) !! k
  = match dict.(dict_actions) !! k with
    | Some e => match e.(e_visible) with Some (JBool false) => None | _ => Some e end
    | None => None
    end.
Proof.
  unfold asDict. cbn. rewrite !delete_hidden_self.
  split; [destruct (dict_properties dict !! k) as [e|] | destruct (dict_actions dict !! k) as [e|]];
    try reflexivity; unfold hidden;
    destruct (e_visible e) as [[| | [] | | | |]|]; reflexivity.
Qed.

(** ** Webhook events (index.js) *)

(** C7, refuted: on index 5 the code [begin] does not set the motion
    property. *)
Lemma generic_motion_begin_ignored :
  let d := dev_with ["motion"] in
  (snd (handleGenericEvent "5" "begin" d)).(properties) !! "motion" <> Some (JBool true).
Proof. vm_compute. discriminate. Qed.

(** C7 (as the code has it): for a button index 1-4 the codes 1, 2, 3,
    20 and 21 fire the single, double, long, triple ([tripple]) and
    quadruple events, 8/[begin] sets the key's pressed property to true
    and 9/[end] to false; for index 5 only the numeric codes 8 and 9 set
    the motion property to true/false, every other code (also [begin] and
    [end]) changes nothing; an index above 5 changes nothing. *)
Ltac eval_parseInt :=
  repeat match goal with
         | |- context [parseInt ?s] =>
             let v := eval vm_compute in (parseInt s) in change (parseInt s) with v
         end.

Theorem generic_event_table (index action : string) (d : dev) :
  (index ∈ ["1"; "2"; "3"; "4"] ->
   let keyID := "key" +:+ index in
   let fires name := (Ok tt, set_events (d.(events) ++ [keyID +:+ name]) d) in
   (action = "1" -> handleGenericEvent index action d = fires "single") /\
   (action = "2" -> handleGenericEvent index action d = fires "double") /\
   (action = "3" -> handleGenericEvent index action d = fires "long") /\
   (action = "20" -> handleGenericEvent index action d = fires "tripple") /\
   (action = "21" -> handleGenericEvent index action d = fires "quadruple") /\
   (is_Some (d.(properties) !! keyID) ->
    (action = "8" \/ action = "begin") ->
    handleGenericEvent index action d
    = (Ok tt, set_properties (<[keyID := JBool true]> d.(properties)) d)) /\
   (is_Some (d.(properties) !! keyID) ->
    (action = "9" \/ action = "end") ->
    handleGenericEvent index action d
    = (Ok tt, set_properties (<[keyID := JBool false]> d.(properties)) d))) /\
  (index = "5" -> is_Some (d.(properties) !! "motion") ->
   (action = "8" ->
    handleGenericEvent index action d
    = (Ok tt, set_properties (<["motion" := JBool true]> d.(properties)) d)) /\
   (action = "9" ->
    handleGenericEvent index action d
    = (Ok tt, set_properties (<["motion" := JBool false]> d.(properties)) d)) /\
   (action <> "8" -> action <> "9" -> handleGenericEvent index action d = (Ok tt, d))) /\
  (forall n, parseInt index = Some n -> 5 < n -> handleGenericEvent index action d = (Ok tt, d)).
Proof.
  split; [| split].
  - intros Hi keyID fires.
    apply list_elem_of_In in Hi; cbn in Hi.
    repeat split; intros; repeat match goal with H : _ \/ _ |- _ => destruct H end;
      repeat match goal with H : is_Some _ |- _ => destruct H as [? ?] end;
      subst; subst keyID fires; try contradiction;
      unfold handleGenericEvent, setProp, eventNotify, bind, get, modify, ret;
      eval_parseInt; cbn;
      repeat match goal with H : _ !! _ = Some _ |- _ => cbn in H; rewrite H end;
      reflexivity.
  - intros -> [v Hv]. split; [| split]; intros Ha.
    + subst. unfold handleGenericEvent, setProp, bind, get, modify, ret; eval_parseInt; cbn.
      rewrite Hv. reflexivity.
    + subst. unfold handleGenericEvent, setProp, bind, get, modify, ret; eval_parseInt; cbn.
      rewrite Hv. reflexivity.
    + intros Hb. unfold handleGenericEvent. eval_parseInt. cbn -[String.eqb].
      rewrite (proj2 (String.eqb_neq _ _) Ha), (proj2 (String.eqb_neq _ _) Hb).
      reflexivity.
  - intros n Hn Hgt. unfold handleGenericEvent. rewrite Hn.
    replace (n <=? 4) with false by (symmetry; apply Z.leb_gt; lia).
    replace (n =? 5) with false by (symmetry; apply Z.eqb_neq; lia).
    reflexivity.
Qed.

Lemma generic_event_table_witness :
  "2" ∈ ["1"; "2"; "3"; "4"] /\
  handleGenericEvent "2" "21" (dev_with ["key2"])
  = (Ok tt, set_events ((dev_with ["key2"]).(events) ++ ["key2" +:+ "quadruple"]) (dev_with ["key2"])).
Proof.
  assert (Hin : "2" ∈ ["1"; "2"; "3"; "4"]) by (apply list_elem_of_In; cbn; auto).
  split; [exact Hin |].
  exact (proj1 (proj2 (proj2 (proj2 (proj2 (proj1 (generic_event_table "2" "21" (dev_with ["key2"])) Hin)))))
           eq_refl).
Defined.

(** ** The push path (part_000) *)

Ltac eval_ids :=
  repeat match goal with
         | |- context [key_id ?x] =>
             let v := eval vm_compute in (key_id x) in change (key_id x) with v
         end.

(** C1, refuted: the token [m4] fires no event at all (the fourth case
    of the [switch] repeats [m2], so [m4] falls to the default branch);
    [m1], [m2], [m3] fire the single, double and triple events.  Each of
    the four tokens clears the key's pressed property. *)
Theorem legacy_button_tokens (hex2 : jsval -> option string) (d : dev) (v : jsval) :
  d.(properties) !! "key1" = Some v ->
  parse_message "dingz/aabbccddeeff/dingz/event/button/0" "m4" = Some (JStr "m4") /\
  let run tok := mqttEvent hex2 "dingz/event/button/0" (JStr tok) d in
  let cleared es :=
    (Ok tt, set_properties (<["key1" := JBool false]> d.(properties))
              (set_events es (set_deviceType (JStr "dingz") d))) in
  run "m1" = cleared (d.(events) ++ ["key1single"]) /\
  run "m2" = cleared (d.(events) ++ ["key1double"]) /\
  run "m3" = cleared (d.(events) ++ ["key1tripple"]) /\
  run "m4" = cleared d.(events).
Proof.
  intros Hk. split; [reflexivity |].
  intros run cleared. subst run cleared.
  unfold mqttEvent, button_event, setProp, eventNotify, bind, get, modify, ret.
  eval_ids. cbn. rewrite Hk. cbn. repeat split.
Qed.

Lemma legacy_button_tokens_witness :
  (dev_with ["key1"]).(properties) !! "key1" = Some (JBool false) /\
  mqttEvent (fun _ => None) "dingz/event/button/0" (JStr "m4") (dev_with ["key1"])
  = (Ok tt, set_properties (<["key1" := JBool false]> (dev_with ["key1"]).(properties))
              (set_events (dev_with ["key1"]).(events)
                 (set_deviceType (JStr "dingz") (dev_with ["key1"])))).
Proof.
  split; [reflexivity |].
  exact (proj2 (proj2 (proj2 (proj2 (legacy_button_tokens (fun _ => None) (dev_with ["key1"])
                                        (JBool false) eq_refl))))).
Defined.

(** C8, refuted on the push path: a [state/thermostat] push with
    [status] [on] and [mode] [heating] writes [on] into the thermostat
    mode, not [heat]; the poll path maps the same data to [heat]. *)
Theorem push_thermostat_mode_raw (hex2 : jsval -> option string) (d : dev) (v : jsval) :
  d.(properties) !! "thermostatMode" = Some v ->
  let msg := JObj [("status", JStr "on"); ("mode", JStr "heating"); ("target", JNum "21")] in
  (snd (mqttEvent hex2 "dingz/state/thermostat" msg d)).(properties) !! "thermostatMode"
  = Some (JStr "on").
Proof.
  intros Hm msg. subst msg.
  unfold mqttEvent, setPropOptWith, setProp, getM, bind, get, modify, ret. cbn.
  rewrite Hm. cbn. rewrite Hm. cbn.
  repeat (match goal with
          | |- context [match ?m !! ?k with _ => _ end] => destruct (m !! k) eqn:?
          end; cbn);
  simplify_map_eq; reflexivity.
Qed.

Lemma push_thermostat_mode_raw_witness :
  (dev_with ["thermostatMode"; "thermostatState"; "targetTemperature"]).(properties)
    !! "thermostatMode" = Some (JBool false) /\
  (snd (mqttEvent (fun _ => None) "dingz/state/thermostat"
          (JObj [("status", JStr "on"); ("mode", JStr "heating"); ("target", JNum "21")])
          (dev_with ["thermostatMode"; "thermostatState"; "targetTemperature"]))).(properties)
    !! "thermostatMode" = Some (JStr "on").
Proof.
  split; [reflexivity |].
  exact (push_thermostat_mode_raw (fun _ => None)
           (dev_with ["thermostatMode"; "thermostatState"; "targetTemperature"])
           (JBool false) eq_refl).
Defined.

(** ** Dimmer groups under poll *)

Lemma stable_ret {A} c k (a : A) : stableP c k (ret a).
Proof. intros d Hd. split; [exact Hd | reflexivity]. Qed.

Lemma stable_throw {A} c k e : stableP (A:=A) c k (throw e).
Proof. intros d Hd. split; [exact Hd | reflexivity]. Qed.

Lemma stable_bind {A B} c k (m : M A) (f : A -> M B) :
  stableP c k m -> (forall a, stableP c k (f a)) -> stableP c k (bind m f).
Proof.
  intros Hm Hf d Hd. unfold bind.
  specialize (Hm d Hd). destruct (m d) as [[a|e] d'] eqn:E; cbn in *.
  - destruct Hm as [Hc Hk]. destruct (Hf a d' Hc) as [Hc' Hk']. split; congruence.
  - exact Hm.
Qed.

Lemma stable_get_bind {A} c k (f : dev -> M A) :
  (forall d0, caps4 d0 = c -> stableP c k (f d0)) -> stableP c k (bind get f).
Proof. intros H d Hd. exact (H d Hd d Hd). Qed.

Lemma stable_modify c k (f : dev -> dev) :
  (forall d, caps4 (f d) = caps4 d /\ (f d).(properties) !! k = d.(properties) !! k) ->
  stableP c k (modify f).
Proof. intros H d Hd. destruct (H d) as [H1 H2]. cbn. split; congruence. Qed.

Lemma stable_setProp c k id v : id <> k -> stableP c k (setProp id v).
Proof.
  intros Hne d Hd. unfold setProp, bind, get, modify, throw. cbn.
  destruct (d.(properties) !! id); cbn; split; try exact Hd; [| reflexivity].
  rewrite lookup_insert_ne; auto.
Qed.

Lemma stable_power_at c k s i : stableP c k (power_at s i).
Proof.
  unfold power_at. destruct i as [z|]; [| apply stable_throw].
  destruct (z <? 0); [apply stable_throw |].
  destruct (s_power_outputs s !! Z.to_nat z); [apply stable_ret | apply stable_throw].
Qed.

Lemma stable_apiCall {A} c k path method (o : fetch_outcome A) :
  stableP c k (apiCall path method o).
Proof.
  unfold apiCall. apply stable_get_bind. intros d0 _.
  destruct (negb (truthy (address d0))); [apply stable_ret |].
  apply stable_bind; [apply stable_modify; intros d; split; reflexivity | intros _].
  assert (Hc : forall e, stableP (A:=option A) c k (catch_api e)).
  { intros e. unfold catch_api. destruct (is_unreachable e); [| apply stable_throw].
    apply stable_bind; [apply stable_modify; intros d; split; reflexivity | intros _].
    apply stable_ret. }
  destruct o as [status json text | ty code]; [| apply Hc].
  destruct ((200 <=? status) && (status <=? 299) && (status <? 400)); [| apply Hc].
  destruct (negb (status =? 204) && negb (String.eqb method "POST"));
    [destruct json; [apply stable_ret | apply stable_throw] | apply stable_ret].
Qed.

Lemma stable_forM {A} c k (f : A -> M unit) (l : list A) :
  (forall x, In x l -> stableP c k (f x)) -> stableP c k (forM f l).
Proof.
  induction l as [|x l IH]; intros H; cbn.
  - apply stable_ret.
  - apply stable_bind; [apply H; left; reflexivity | intros _].
    apply IH. intros y Hy. apply H. right. exact Hy.
Qed.

Lemma str_app_nil_l (a : string) : "" +:+ a = a.
Proof. reflexivity. Qed.

Lemma str_app_cons (x : ascii) (a b : string) : String x a +:+ b = String x (a +:+ b).
Proof. reflexivity. Qed.

Lemma str_app_assoc (a b c : string) : (a +:+ b) +:+ c = a +:+ (b +:+ c).
Proof. induction a as [|x a IH]; [reflexivity | exact (f_equal (String x) IH)]. Qed.

Lemma str_app_nil_r (a : string) : a +:+ "" = a.
Proof. induction a as [|x a IH]; [reflexivity | exact (f_equal (String x) IH)]. Qed.

Lemma num_chars_pretty_N_go (x : N) (s : string) :
  num_chars s = true -> num_chars (pretty_N_go x s) = true.
Proof.
  revert s. induction (N.lt_wf_0 x) as [x _ IH]; intros s Hs.
  assert (x = 0 \/ 0 < x)%N as [->|Hx] by lia; [rewrite pretty_N_go_0; exact Hs |].
  rewrite pretty_N_go_step by exact Hx. apply IH; [apply N.div_lt; lia |].
  cbn. rewrite Hs, andb_true_r. unfold num_char, pretty_N_char.
  repeat case_match; reflexivity.
Qed.

Lemma num_chars_pretty_N (x : N) : num_chars (pretty x) = true.
Proof.
  unfold pretty, pretty_N. case_decide; [reflexivity |].
  apply num_chars_pretty_N_go. reflexivity.
Qed.

Lemma num_chars_pretty (z : Z) : num_chars (pretty z) = true.
Proof.
  destruct z as [|p|p]; [reflexivity | apply num_chars_pretty_N |].
  change (num_char "-"%char && num_chars (pretty (N.pos p)) = true).
  rewrite num_chars_pretty_N. reflexivity.
Qed.

(** A number followed by a non-numeric suffix can be split uniquely. *)
Lemma num_app_inj (p q suf suf' : string) :
  num_chars p = true -> num_chars q = true ->
  nonnum_start suf = true -> nonnum_start suf' = true ->
  p +:+ suf = q +:+ suf' -> p = q /\ suf = suf'.
Proof.
  revert q. induction p as [|x p IH]; intros q Hp Hq Hs Hs' E; destruct q as [|y q];
    rewrite ?str_app_nil_l, ?str_app_cons in E; cbn [num_chars] in *.
  - split; [reflexivity | exact E].
  - subst suf. cbn in Hs. apply andb_prop in Hq as [Hy _]. rewrite Hy in Hs. discriminate.
  - subst suf'. cbn in Hs'. apply andb_prop in Hp as [Hx _]. rewrite Hx in Hs'. discriminate.
  - injection E as -> E. apply andb_prop in Hp as [_ Hp]. apply andb_prop in Hq as [_ Hq].
    destruct (IH q Hp Hq Hs Hs' E) as [-> ->]. split; reflexivity.
Qed.

(** The properties written for dimmer entry [a] are not those of
    dimmer [n] unless [a + 1 = n]. *)
Lemma dimmer_key_ne (a n : Z) (suf k : string) :
  a + 1 <> n -> suf ∈ ["" ; "Brightness"; "Power"] -> k ∈ dimmer_keys n ->
  dimmer_id (Some a) +:+ suf <> k.
Proof.
  intros Hne Hs Hk E. unfold dimmer_keys, dimmer_id, js_num_str in *. cbn [option_map] in *.
  rewrite str_app_assoc in E.
  apply list_elem_of_In in Hs, Hk. cbn in Hs, Hk.
  assert (exists suf', nonnum_start suf' = true /\ k = "dimmer" +:+ pretty n +:+ suf') as [suf' [Hs' ->]].
  { destruct Hk as [<-|[<-|[<-|[]]]].
    - exists "". rewrite str_app_nil_r. split; reflexivity.
    - exists "Brightness". split; reflexivity.
    - exists "Power". split; reflexivity. }
  apply (inj (String.append "dimmer")) in E.
  apply num_app_inj in E as [E _]; try apply num_chars_pretty; [| | exact Hs'].
  - apply pretty_Z_inj in E. lia.
  - destruct Hs as [<-|[<-|[<-|[]]]]; reflexivity.
Qed.

Lemma dimmer_keys_head (n : Z) (k : string) :
  k ∈ dimmer_keys n -> exists r, k = String "d"%char r.
Proof.
  intros Hk. apply list_elem_of_In in Hk. unfold dimmer_keys in Hk. cbn in Hk.
  destruct Hk as [<-|[<-|[<-|[]]]]; eexists; reflexivity.
Qed.

Ltac key_head :=
  match goal with
  | Hk : ?k ∈ dimmer_keys _ |- _ <> ?k =>
      let r := fresh "r" in
      destruct (dimmer_keys_head _ _ Hk) as [r ->]; discriminate
  end.

Lemma apiCall_result {A} path method (o : fetch_outcome A) (d : dev) :
  match apiCall path method o d with
  | (Ok v, d') => caps4 d' = caps4 d /\ d'.(properties) = d.(properties) /\
                  (v = None \/ exists st txt, o = Response st v txt)
  | (Exc _, d') => caps4 d' = caps4 d /\ d'.(properties) = d.(properties)
  end.
Proof.
  unfold apiCall, catch_api, connectedNotify, bind, get, modify, ret, throw.
  destruct (negb (truthy (address d))); cbn; [auto |].
  destruct o as [st json txt | ty code].
  - destruct ((200 <=? st) && (st <=? 299) && (st <? 400)); cbn.
    + destruct (negb (st =? 204) && negb (String.eqb method "POST")); cbn; [| auto].
      destruct json; cbn; [| auto]. split; [reflexivity | split; [reflexivity |]].
      right. eauto.
    + repeat case_match; simplify_eq/=; auto.
  - repeat case_match; simplify_eq/=; auto.
Qed.

Lemma stable_apiCall_bind {A B} c k path method (o : fetch_outcome A) (f : option A -> M B) :
  (forall v, (v = None \/ exists st txt, o = Response st v txt) -> stableP c k (f v)) ->
  stableP c k (bind (apiCall path method o) f).
Proof.
  intros H d Hd. unfold bind. pose proof (apiCall_result path method o d) as R.
  destruct (apiCall path method o d) as [[v|e] d'].
  - destruct R as [Hc [Hp Hv]]. rewrite Hd in Hc. destruct (H v Hv d' Hc) as [H1 H2].
    split; [exact H1 |]. rewrite H2, Hp. reflexivity.
  - destruct R as [Hc Hp]. cbn. rewrite Hp, Hc. split; [exact Hd | reflexivity].
Qed.

Lemma stable_bounds c k (f : dev -> dev) (mi ma : dev -> gmap string jsval) :
  stableP c k (modify (fun d => set_bounds (mi d) (ma d) d)).
Proof. apply stable_modify. intros d. split; reflexivity. Qed.

Section PollFrame.

Variable hsv2rgb : string -> string.
Variable c : bool * bool * bool * option Z.
Variable n : Z.
Variable k : string.
Hypothesis Hk : k ∈ dimmer_keys n.

Ltac suf_in := apply list_elem_of_In; cbn; tauto.

Lemma stable_poll_dimmer s dm : absent_group c n -> stableP c k (poll_dimmer s dm).
Proof.
  intros Habs. unfold poll_dimmer. apply stable_get_bind. intros d0 Hc. cbv zeta.
  destruct c as [[[g1 g2] t] o]. unfold caps4 in Hc. injection Hc as E1 E2 _ _.
  rewrite E1, E2.
  destruct ((1 <? dm_absolute dm) && g2 || (dm_absolute dm <=? 1) && g1) eqn:E;
    [| apply stable_ret].
  assert (Ha : dm_absolute dm + 1 <> n).
  { cbn in Habs. destruct Habs as [[-> Hn]|[-> Hn]];
      rewrite ?andb_false_r, ?orb_false_l, ?orb_false_r in E;
      apply andb_prop in E as [E _]; [apply Z.leb_le in E | apply Z.ltb_lt in E]; lia. }
  apply stable_bind.
  { apply stable_setProp. rewrite <- (str_app_nil_r (dimmer_id _)).
    apply (dimmer_key_ne _ n); [exact Ha | suf_in | exact Hk]. }
  intros _. apply stable_bind.
  { apply stable_setProp. apply (dimmer_key_ne _ n); [exact Ha | suf_in | exact Hk]. }
  intros _. apply stable_bind; [apply stable_power_at | intros p].
  apply stable_setProp. apply (dimmer_key_ne _ n); [exact Ha | suf_in | exact Hk].
Qed.

Lemma stable_poll_blind s bl : stableP c k (poll_blind s bl).
Proof.
  unfold poll_blind. apply stable_get_bind. intros d0 _. cbv zeta.
  destruct (_ || _); [| apply stable_ret].
  unfold shade_id.
  apply stable_bind; [apply stable_setProp; key_head | intros _].
  apply stable_bind; [apply stable_setProp; rewrite str_app_assoc; key_head | intros _].
  apply stable_bind; [apply stable_power_at | intros m1].
  apply stable_bind; [apply stable_power_at | intros m2].
  apply stable_setProp; rewrite str_app_assoc; key_head.
Qed.

Lemma stable_poll_thermostat s out :
  (c.1.2 = false \/ k <> dimmer_id out +:+ "Power") -> stableP c k (poll_thermostat s out).
Proof.
  intros Hth. unfold poll_thermostat. apply stable_get_bind. intros d0 Hc. cbv zeta.
  destruct (th_active (s_thermostat s) && thermostat d0) eqn:E; [| apply stable_ret].
  assert (Hne : k <> dimmer_id out +:+ "Power").
  { destruct Hth as [Ht|Hne]; [| exact Hne].
    apply andb_prop in E as [_ E]. rewrite <- Hc in Ht. unfold caps4 in Ht. cbn in Ht. congruence. }
  apply stable_bind; [apply stable_setProp; key_head | intros _].
  apply stable_bind; [apply stable_modify; intros d; split; reflexivity | intros _].
  apply stable_bind; [apply stable_modify; intros d; split; reflexivity | intros _].
  apply stable_bind; [apply stable_setProp; key_head | intros _].
  apply stable_bind; [apply stable_setProp; key_head | intros _].
  apply stable_get_bind. intros d1 _.
  destruct (properties d1 !! (dimmer_id out +:+ "Power")); [| apply stable_throw].
  apply stable_bind; [apply stable_power_at | intros p].
  apply stable_setProp. intros E'. apply Hne. symmetry. exact E'.
Qed.

Lemma stable_apply_state s out :
  absent_group c n -> (c.1.2 = false \/ k <> dimmer_id out +:+ "Power") ->
  stableP c k (apply_state hsv2rgb s out).
Proof.
  intros Habs Hth. unfold apply_state.
  apply stable_bind.
  { destruct (s_brightness s); try (apply stable_setProp; key_head). apply stable_ret. }
  intros _. apply stable_bind.
  { destruct (s_room_temperature s); [apply stable_setProp; key_head | apply stable_ret]. }
  intros _. apply stable_bind; [apply stable_setProp; key_head | intros _].
  apply stable_bind; [apply stable_setProp; key_head | intros _].
  apply stable_bind.
  { apply stable_forM. intros dm _. apply stable_poll_dimmer. exact Habs. }
  intros _. apply stable_bind.
  { apply stable_forM. intros bl _. apply stable_poll_blind. }
  intros _. apply stable_poll_thermostat. exact Hth.
Qed.

Lemma stable_poll o :
  absent_group c n -> (c.1.2 = false \/ k <> dimmer_id c.2 +:+ "Power") ->
  stableP c k (poll hsv2rgb o).
Proof.
  intros Habs Hth. unfold poll. apply stable_get_bind. intros d0 _.
  destruct (negb (truthy (connected d0))); [apply stable_ret |].
  apply stable_apiCall_bind. intros [s|] _; [| apply stable_ret].
  apply stable_get_bind. intros d1 Hc. apply stable_apply_state; [exact Habs |].
  rewrite <- Hc in Hth |- *. exact Hth.
Qed.

Lemma stable_poll_v1 o :
  absent_group c n ->
  (c.1.2 = false \/ forall s, snapshot_of o = Some s ->
                     k <> dimmer_id (Some s.(s_thermostat).(th_out)) +:+ "Power") ->
  stableP c k (poll_v1 hsv2rgb o).
Proof.
  intros Habs Hth. unfold poll_v1. apply stable_get_bind. intros d0 _.
  destruct (negb (truthy (connected d0))); [apply stable_ret |].
  apply stable_apiCall_bind. intros [s|] Hv; [| apply stable_throw].
  apply stable_apply_state; [exact Habs |].
  destruct Hth as [Ht|Hth]; [left; exact Ht | right; apply Hth].
  destruct Hv as [Hv|[st [txt ->]]]; [discriminate | reflexivity].
Qed.

End PollFrame.

(** C6, counterexample: with dimmer group B absent, a poll still writes
    the power property of dimmer 3 when the thermostat valve is on output
    2, in both generations. *)
Lemma poll_thermostat_writes_dimmer3Power :
  dev_thermo.(dimmerGroup2) = false /\
  dev_thermo.(properties) !! "dimmer3Power" = Some JUndef /\
  (snd (poll (fun x => x) (Response 200 (Some snap_thermo) "") dev_thermo)).(properties)
    !! "dimmer3Power" = Some (JNum "5") /\
  (snd (poll_v1 (fun x => x) (Response 200 (Some snap_thermo) "") dev_thermo)).(properties)
    !! "dimmer3Power" = Some (JNum "5").
Proof. vm_compute. repeat split. Qed.

(** C6 (amended): when a dimmer group is absent (group B for logical
    dimmers 3 and 4, group A for 1 and 2), a poll of either generation
    leaves the on/off, brightness and power properties of those dimmers
    unchanged, whatever the snapshot holds, except the power property of
    the thermostat valve's output, which the thermostat block writes
    ([this.thermostatOutput] in part_000, [state.thermostat.out] in
    index.js). *)
Theorem poll_dimmer_group_frame (hsv2rgb : string -> string) (o : fetch_outcome snapshot)
  (d : dev) (n : Z) (k : string) :
  (d.(dimmerGroup2) = false /\ (n = 3 \/ n = 4)) \/
  (d.(dimmerGroup1) = false /\ (n = 1 \/ n = 2)) ->
  k ∈ dimmer_keys n ->
  ((d.(thermostat) = false \/ k <> dimmer_id d.(thermostatOutput) +:+ "Power") ->
   (snd (poll hsv2rgb o d)).(properties) !! k = d.(properties) !! k) /\
  ((d.(thermostat) = false \/
    (forall s, snapshot_of o = Some s -> k <> dimmer_id (Some s.(s_thermostat).(th_out)) +:+ "Power")) ->
   (snd (poll_v1 hsv2rgb o d)).(properties) !! k = d.(properties) !! k).
Proof.
  intros Habs Hk. assert (Habs' : absent_group (caps4 d) n) by exact Habs.
  split; intros Hth.
  - exact (proj2 (stable_poll hsv2rgb (caps4 d) n k Hk o Habs' Hth d eq_refl)).
  - exact (proj2 (stable_poll_v1 hsv2rgb (caps4 d) n k Hk o Habs' Hth d eq_refl)).
Qed.

Lemma poll_dimmer_group_frame_witness :
  (snd (poll (fun x => x) (Response 200 (Some snap_thermo) "") dev_thermo)).(properties)
    !! "dimmer3" = dev_thermo.(properties) !! "dimmer3" /\
  (snd (poll_v1 (fun x => x) (Response 200 (Some snap_thermo) "") dev_thermo)).(properties)
    !! "dimmer4Brightness" = dev_thermo.(properties) !! "dimmer4Brightness".
Proof.
  split.
  - assert (Hk : "dimmer3" ∈ dimmer_keys 3).
    { apply list_elem_of_In. left. vm_compute. reflexivity. }
    destruct (poll_dimmer_group_frame (fun x => x) (Response 200 (Some snap_thermo) "")
                dev_thermo 3 "dimmer3"
                (or_introl (conj eq_refl (or_introl eq_refl))) Hk) as [P _].
    apply P. right. intros E. vm_compute in E. discriminate E.
  - assert (Hk : "dimmer4Brightness" ∈ dimmer_keys 4).
    { apply list_elem_of_In. right. left. vm_compute. reflexivity. }
    destruct (poll_dimmer_group_frame (fun x => x) (Response 200 (Some snap_thermo) "")
                dev_thermo 4 "dimmer4Brightness"
                (or_introl (conj eq_refl (or_intror eq_refl))) Hk) as [_ P].
    apply P. right. intros s Hs E. injection Hs as <-. vm_compute in E. discriminate E.
Defined.

(** ** Connectivity over a sequence of events *)

Lemma kd_ret {A} (a : A) : keeps_disc (ret a).
Proof. intros d H. exact H. Qed.

Lemma kd_throw {A} e : keeps_disc (A:=A) (throw e).
Proof. intros d H. exact H. Qed.

Lemma kd_bind {A B} (m : M A) (f : A -> M B) :
  keeps_disc m -> (forall a, keeps_disc (f a)) -> keeps_disc (bind m f).
Proof.
  intros Hm Hf d Hd. unfold bind. specialize (Hm d Hd).
  destruct (m d) as [[a|e] d']; cbn in *; [apply Hf |]; exact Hm.
Qed.

Lemma kd_get_bind {A} (f : dev -> M A) :
  (forall d0, keeps_disc (f d0)) -> keeps_disc (bind get f).
Proof. intros H d Hd. exact (H d d Hd). Qed.

Lemma kd_modify (f : dev -> dev) :
  (forall d, truthy d.(connected) = false -> truthy (f d).(connected) = false) ->
  keeps_disc (modify f).
Proof. intros H d Hd. exact (H d Hd). Qed.

Ltac kd :=
  repeat match goal with
    | |- keeps_disc (ret _) => apply kd_ret
    | |- keeps_disc (setProp _ _) => unfold setProp
    | |- keeps_disc (throw _) => apply kd_throw
    | |- keeps_disc (bind get _) => apply kd_get_bind; intros ?; cbv beta
    | |- keeps_disc (bind _ _) => apply kd_bind; [| intros ?; cbv beta]
    | |- keeps_disc (modify _) => apply kd_modify; intros ? ?Hc; first [exact Hc | reflexivity]
    | |- keeps_disc (if ?b then _ else _) => destruct b
    | |- keeps_disc (match ?x with _ => _ end) => destruct x
    end.

Lemma kd_apiCall {A} path method (o : fetch_outcome A) : keeps_disc (apiCall path method o).
Proof. unfold apiCall, catch_api, connectedNotify. kd. Qed.

Lemma kd_handleGenericEvent index action : keeps_disc (handleGenericEvent index action).
Proof. unfold handleGenericEvent, setProp, eventNotify. cbv zeta. kd. Qed.

Lemma kd_mqttEvent hex2 path message :
  (String.eqb (default EmptyString (nth_str (split_on "/"%char path) 0)) "online"
   && truthy message) = false ->
  keeps_disc (mqttEvent hex2 path message).
Proof.
  intros Hr. unfold mqttEvent. cbv zeta.
  destruct (String.eqb (default EmptyString (nth_str (split_on "/"%char path) 0)) "online").
  - cbn in Hr. unfold connectedNotify. apply kd_modify. intros d _. exact Hr.
  - unfold button_event, setProp, setPropOpt, setPropOptWith, getM, hex2M, eventNotify.
    cbv zeta. kd.
Qed.

(** A disconnected device ignores a poll cycle of either generation. *)
Lemma poll_disconnected hsv2rgb o d :
  truthy d.(connected) = false -> poll hsv2rgb o d = (Ok tt, d).
Proof. intros H. unfold poll, bind, get. rewrite H. reflexivity. Qed.

Lemma poll_v1_disconnected hsv2rgb o d :
  truthy d.(connected) = false -> poll_v1 hsv2rgb o d = (Ok tt, d).
Proof. intros H. unfold poll_v1, bind, get. rewrite H. reflexivity. Qed.

Lemma kd_step hsv2rgb hex2 e :
  reconnects e = false -> keeps_disc (step hsv2rgb hex2 e).
Proof.
  intros Hr. destruct e as [o|o|addr|path message|index action|path method o]; cbn [step].
  - intros d Hd. rewrite poll_disconnected by exact Hd. exact Hd.
  - intros d Hd. rewrite poll_v1_disconnected by exact Hd. exact Hd.
  - discriminate Hr.
  - apply kd_mqttEvent. exact Hr.
  - apply kd_handleGenericEvent.
  - apply kd_bind; [apply kd_apiCall | intros _; apply kd_ret].
Qed.

Lemma run_disconnected hsv2rgb hex2 es d :
  truthy d.(connected) = false -> Forall (fun e => reconnects e = false) es ->
  truthy (run hsv2rgb hex2 es d).(connected) = false.
Proof.
  intros Hd Hes. revert d Hd. induction Hes as [|e es He _ IH]; intros d Hd; cbn [run].
  - exact Hd.
  - apply IH. apply (kd_step hsv2rgb hex2 e He d Hd).
Qed.

(** C3, counterexample: in part_000 a push on the [online] topic with a
    truthy payload reconnects a disconnected device without any discovery,
    and the next poll issues the [state] request. *)
Lemma online_push_reconnects :
  truthy dev_off.(connected) = false /\
  (snd (poll (fun x => x) (Failure None None)
          (run (fun x => x) (fun _ => None) [EvPush "online" (JBool true)] dev_off))).(requests)
  = [("state", "GET")].
Proof. vm_compute. split; reflexivity. Qed.

(** C3 (amended): once a device is disconnected, every poll cycle of either
    generation returns without a request and without changing the device,
    through any sequence of polls, pushes, webhook events and other
    requests, until an event that reconnects it: a discovery
    ([updateFromDiscovery], which sets [connected] to true) or, in
    part_000, a push on the [online] topic, which sets [connected] to its
    payload. *)
Theorem disconnected_until_reconnect (hsv2rgb : string -> string)
  (hex2 : jsval -> option string) (es : list dev_event) (d : dev) :
  truthy d.(connected) = false ->
  Forall (fun e => reconnects e = false) es ->
  (forall o, poll hsv2rgb o (run hsv2rgb hex2 es d) = (Ok tt, run hsv2rgb hex2 es d) /\
             poll_v1 hsv2rgb o (run hsv2rgb hex2 es d) = (Ok tt, run hsv2rgb hex2 es d)) /\
  (forall addr, (snd (updateFromDiscovery addr (run hsv2rgb hex2 es d))).(connected) = JBool true) /\
  (forall message, (snd (mqttEvent hex2 "online" message (run hsv2rgb hex2 es d))).(connected)
                   = message).
Proof.
  intros Hd Hes. pose proof (run_disconnected hsv2rgb hex2 es d Hd Hes) as Hrun.
  split; [| split].
  - intros o. split; [apply poll_disconnected | apply poll_v1_disconnected]; exact Hrun.
  - intros addr. unfold updateFromDiscovery, connectedNotify, bind, modify, ret, throw. cbn.
    destruct (truthy addr); [destruct (includes_colon addr) as [[]|] |]; reflexivity.
  - intros message. reflexivity.
Qed.

Lemma disconnected_until_reconnect_witness :
  truthy dev_off.(connected) = false /\
  Forall (fun e => reconnects e = false)
    [EvGeneric "1" "1"; EvPush "dingz/event/button/0" (JStr "m1"); EvPoll (Failure None None)] /\
  poll (fun x => x) (Failure None None)
    (run (fun x => x) (fun _ => None)
       [EvGeneric "1" "1"; EvPush "dingz/event/button/0" (JStr "m1"); EvPoll (Failure None None)]
       dev_off)
  = (Ok tt, run (fun x => x) (fun _ => None)
              [EvGeneric "1" "1"; EvPush "dingz/event/button/0" (JStr "m1"); EvPoll (Failure None None)]
              dev_off).
Proof.
  assert (Hd : truthy dev_off.(connected) = false) by reflexivity.
  assert (Hes : Forall (fun e => reconnects e = false)
    [EvGeneric "1" "1"; EvPush "dingz/event/button/0" (JStr "m1"); EvPoll (Failure None None)]).
  { repeat constructor. }
  split; [exact Hd | split; [exact Hes |]].
  exact (proj1 (proj1 (disconnected_until_reconnect (fun x => x) (fun _ => None) _ dev_off Hd Hes)
                  (Failure None None))).
Defined.

(** ** Thermostat payloads *)

Lemma str_length_app (a b : string) :
  String.length (a +:+ b) = (String.length a + String.length b)%nat.
Proof. induction a as [|c a IH]; [reflexivity | cbn; rewrite <- IH; reflexivity]. Qed.

Lemma strip_prefix_app (p X : string) : strip_prefix p (p +:+ X) = Some X.
Proof.
  induction p as [|c p IH]; [reflexivity |].
  rewrite str_app_cons. cbn. rewrite Ascii.eqb_refl. exact IH.
Qed.

Lemma str_rev_app (a b : string) : str_rev (a +:+ b) = str_rev b +:+ str_rev a.
Proof.
  induction a as [|c a IH].
  - rewrite str_app_nil_l. cbn. rewrite str_app_nil_r. reflexivity.
  - rewrite str_app_cons. cbn. rewrite IH, str_app_assoc. reflexivity.
Qed.

Lemma ends_with_app (p X : string) : ends_with p (X +:+ p) = true.
Proof. unfold ends_with, starts_with. rewrite str_rev_app, strip_prefix_app. reflexivity. Qed.

Lemma rsafe_nil : rsafe "".
Proof. intros X. reflexivity. Qed.

Lemma rsafe_app (A B : string) : rsafe A -> rsafe B -> rsafe (A +:+ B).
Proof. intros HA HB X. rewrite !str_app_assoc, HA, HB. reflexivity. Qed.

Lemma rsafe_char (c : ascii) : Ascii.eqb c qc = false -> rsafe (String c "").
Proof.
  intros Hc X. rewrite str_app_cons, str_app_nil_l.
  change target_malformed with (String qc ("target:" +:+ quote)). cbn [replace_first strip_prefix].
  rewrite Ascii.eqb_sym, Hc. reflexivity.
Qed.

Lemma plain_char (c : ascii) :
  is_plain c = true -> Ascii.eqb c ":"%char = false /\ Ascii.eqb c qc = false.
Proof.
  intros H. split.
  - destruct (Ascii.eqb c ":"%char) eqn:E; [apply Ascii.eqb_eq in E; subst; discriminate H | reflexivity].
  - destruct (Ascii.eqb c qc) eqn:E; [apply Ascii.eqb_eq in E; subst; discriminate H | reflexivity].
Qed.

Lemma strip_colon_first (k Y p : string) :
  plain k = true -> colon_first p = true -> strip_prefix p (k +:+ String qc Y) = None.
Proof.
  revert p. induction k as [|c k IH]; intros p Hk Hp; destruct p as [|c0 p]; try discriminate Hp.
  - rewrite str_app_nil_l. cbn [strip_prefix].
    destruct (Ascii.eqb c0 qc) eqn:E; [| reflexivity].
    apply Ascii.eqb_eq in E. subst c0. discriminate Hp.
  - rewrite str_app_cons. cbn [strip_prefix].
    destruct (Ascii.eqb c0 c) eqn:E; [| reflexivity].
    apply Ascii.eqb_eq in E. subst c0. cbn [plain] in Hk. apply andb_prop in Hk as [Hc Hk].
    destruct (plain_char c Hc) as [H1 H2].
    apply IH; [exact Hk |]. cbn [colon_first] in Hp. rewrite H1, H2 in Hp. exact Hp.
Qed.

Lemma plain_app (a b : string) : plain (a +:+ b) = plain a && plain b.
Proof.
  induction a as [|c a IH]; [reflexivity |]. rewrite str_app_cons. cbn [plain].
  rewrite IH, andb_assoc. reflexivity.
Qed.

Lemma digits_plain (s : string) : all_digits s = true -> plain s = true.
Proof.
  induction s as [|c s IH]; [reflexivity |]. cbn [all_digits plain]. intros H.
  apply andb_prop in H as [Hc H]. rewrite (IH H), andb_true_r.
  unfold is_digit in Hc. unfold is_plain.
  apply andb_prop in Hc as [H1 H2]. apply Nat.leb_le in H1, H2.
  repeat (apply andb_true_intro; split);
    try (apply Nat.leb_le; lia); apply negb_true_iff, Nat.eqb_neq; lia.
Qed.

Lemma rsafe_plain (s : string) : plain s = true -> rsafe s.
Proof.
  induction s as [|c s IH]; intros H; [apply rsafe_nil |].
  cbn [plain] in H. apply andb_prop in H as [Hc H].
  change (String c s) with (String c "" +:+ s).
  apply rsafe_app; [apply rsafe_char, (plain_char c Hc) | apply IH, H].
Qed.

Lemma replace_first_eq (pat rep s : string) :
  replace_first pat rep s =
  match strip_prefix pat s with
  | Some r => rep +:+ r
  | None => match s with
            | EmptyString => EmptyString
            | String c s' => String c (replace_first pat rep s')
            end
  end.
Proof. destruct s; reflexivity. Qed.

Lemma target_malformed_lit : target_malformed = String qc ("target:" +:+ quote).
Proof. reflexivity. Qed.

Lemma rsafe_str_unit (s : string) (c : ascii) :
  plain s = true -> Ascii.eqb c "t"%char = false -> Ascii.eqb c qc = false ->
  rsafe (quote +:+ s +:+ quote +:+ String c "").
Proof.
  intros Hs Ht Hq X. unfold quote. rewrite !str_app_assoc, !str_app_cons, !str_app_nil_l.
  rewrite replace_first_eq, target_malformed_lit. cbn [strip_prefix]. rewrite (Ascii.eqb_refl qc).
  rewrite strip_colon_first by (exact Hs || reflexivity).
  f_equal. rewrite (rsafe_plain s Hs). f_equal.
  rewrite replace_first_eq, ?target_malformed_lit. cbn [strip_prefix]. rewrite Ascii.eqb_refl.
  change ("target:" +:+ quote) with (String "t"%char ("arget:" +:+ quote)).
  cbn [strip_prefix]. rewrite Ascii.eqb_sym, Ht. f_equal.
  rewrite replace_first_eq, ?target_malformed_lit. cbn [strip_prefix].
  rewrite Ascii.eqb_sym, Hq. reflexivity.
Qed.

Lemma rsafe_member_comma (m : string * scalar) : wf_member m = true -> rsafe (ser_member m +:+ ",").
Proof.
  destruct m as [k v]. unfold wf_member, ser_member. cbn [fst snd]. intros H.
  apply andb_prop in H as [Hk Hv].
  replace ((quote +:+ k +:+ quote +:+ ":" +:+ ser_scalar v) +:+ ",")
    with ((quote +:+ k +:+ quote +:+ String ":"%char "") +:+ (ser_scalar v +:+ ","))
    by (rewrite !str_app_assoc; reflexivity).
  apply rsafe_app; [apply rsafe_str_unit; (exact Hk || reflexivity) |].
  destruct v as [|[]|s|neg ip fp]; cbn [ser_scalar wf_scalar] in *;
    try (apply rsafe_plain; reflexivity).
  - replace ((quote +:+ s +:+ quote) +:+ ",") with (quote +:+ s +:+ quote +:+ String ","%char "")
      by (rewrite !str_app_assoc; reflexivity).
    apply rsafe_str_unit; (exact Hv || reflexivity).
  - apply rsafe_plain. apply andb_prop in Hv as [Hip Hfp].
    unfold num_lexeme. rewrite !plain_app.
    assert (Hd : all_digits ip = true).
    { unfold valid_ip in Hip. destruct ip as [|c r]; [discriminate |].
      destruct (Ascii.eqb c "0"%char) eqn:E.
      - apply Ascii.eqb_eq in E. subst c. apply String.eqb_eq in Hip. subst r. reflexivity.
      - exact Hip. }
    rewrite (digits_plain ip Hd).
    destruct neg, fp; cbn; rewrite ?plain_app, ?(digits_plain _ Hfp); reflexivity.
Qed.

Lemma rsafe_pre (pre : list (string * scalar)) : Forall (fun m => wf_member m = true) pre -> rsafe (ser_pre pre).
Proof.
  induction 1 as [|m pre Hm _ IH]; [apply rsafe_nil |]. cbn [ser_pre].
  rewrite <- str_app_assoc. apply rsafe_app; [apply rsafe_member_comma, Hm | exact IH].
Qed.

Lemma replace_payload (pre post : list (string * scalar)) (v : scalar) :
  Forall (fun m => wf_member m = true) pre ->
  replace_first target_malformed target_repaired (thermostat_payload pre v post)
  = "{" +:+ ser_pre pre +:+ ser_member ("target", v) +:+ ser_post post +:+ "}".
Proof.
  intros Hpre. unfold thermostat_payload.
  rewrite <- (str_app_assoc "{" (ser_pre pre)).
  rewrite (rsafe_app "{" (ser_pre pre) (rsafe_char "{"%char eq_refl) (rsafe_pre pre Hpre)).
  rewrite str_app_assoc. f_equal.
Qed.

Lemma plain_nat (c : ascii) :
  is_plain c = true ->
  Nat.eqb (Ascii.nat_of_ascii c) 34 = false /\ Nat.eqb (Ascii.nat_of_ascii c) 92 = false /\
  Nat.ltb (Ascii.nat_of_ascii c) 32 = false.
Proof.
  unfold is_plain. intros H.
  repeat match goal with H : _ && _ = true |- _ => apply andb_prop in H as [? ?] end.
  repeat match goal with H : negb _ = true |- _ => apply negb_true_iff in H end.
  split; [assumption | split; [assumption |]].
  apply Nat.ltb_ge. apply Nat.leb_le. assumption.
Qed.

Lemma parse_str_body_plain (s X : string) :
  plain s = true -> parse_str_body (s +:+ String qc X) = Some (s, X).
Proof.
  induction s as [|c s IH]; intros H.
  - reflexivity.
  - cbn [plain] in H. apply andb_prop in H as [Hc H].
    destruct (plain_nat c Hc) as [H1 [H2 H3]].
    rewrite str_app_cons. cbn [parse_str_body]. rewrite H1, H2, H3, (IH H). reflexivity.
Qed.

Lemma digit_nat (d : ascii) :
  is_digit d = true -> (48 <= Ascii.nat_of_ascii d <= 57)%nat.
Proof. unfold is_digit. intros H. apply andb_prop in H as [H1 H2]. apply Nat.leb_le in H1, H2. lia. Qed.

Lemma digit_neq (d k : ascii) : is_digit d = true -> is_digit k = false -> Ascii.eqb k d = false.
Proof.
  intros Hd Hk. destruct (Ascii.eqb k d) eqn:E; [| reflexivity].
  apply Ascii.eqb_eq in E. subst. congruence.
Qed.

Lemma take_digits_app (ds Y : string) :
  all_digits ds = true ->
  match Y with String c _ => is_digit c = false | EmptyString => True end ->
  take_digits (ds +:+ Y) = (ds, Y).
Proof.
  intros Hd HY. induction ds as [|c ds IH].
  - destruct Y as [|c Y]; [reflexivity |]. rewrite str_app_nil_l. cbn. rewrite HY. reflexivity.
  - cbn [all_digits] in Hd. apply andb_prop in Hd as [Hc Hd].
    rewrite str_app_cons. cbn [take_digits]. rewrite Hc, (IH Hd). reflexivity.
Qed.

Ltac closed_bool :=
  match goal with
  | |- context [?t] =>
      match type of t with
      | bool =>
          match t with
          | true => fail 1
          | false => fail 1
          | _ =>
              let v := eval vm_compute in t in
              match v with
              | true => change t with true
              | false => change t with false
              end
          end
      end
  end.

Lemma parse_number_lexeme (neg : bool) (ip fp : string) (c : ascii) (X : string) :
  valid_ip ip = true -> all_digits fp = true -> closer c = true ->
  parse_number (num_lexeme neg ip fp +:+ String c X) = Some (num_lexeme neg ip fp, String c X).
Proof.
  intros Hip Hfp Hc.
  assert (Hc' : c = ","%char \/ c = "}"%char).
  { unfold closer in Hc. apply orb_prop in Hc as [E|E]; apply Ascii.eqb_eq in E; auto. }
  destruct ip as [|d r]; [discriminate |]. unfold valid_ip in Hip.
  assert (Hd : is_digit d = true /\ all_digits r = true /\ (Ascii.eqb d "0"%char = true -> r = "")).
  { destruct (Ascii.eqb d "0"%char) eqn:E.
    - apply Ascii.eqb_eq in E. subst d. apply String.eqb_eq in Hip. subst r. auto.
    - apply andb_prop in Hip as [H1 H2]. split; [exact H1 | split; [exact H2 | discriminate]]. }
  clear Hip. destruct Hd as [Hd [Hr H0]].
  assert (Hdm : Ascii.eqb d "-"%char = false)
    by (rewrite Ascii.eqb_sym; apply digit_neq; [exact Hd | reflexivity]).
  destruct Hc' as [-> | ->]; destruct neg; destruct fp as [|f fr]; unfold num_lexeme;
    rewrite ?str_app_nil_l, ?str_app_assoc, ?str_app_cons, ?str_app_nil_l;
    unfold parse_number; cbn -[String.append take_digits]; rewrite ?Hdm;
    (destruct (Ascii.eqb d "0"%char) eqn:E;
     [apply Ascii.eqb_eq in E; subst d; try rewrite (H0 eq_refl) | try rewrite Hd]);
    cbn [all_digits] in Hfp;
    repeat match type of Hfp with _ && _ = true => apply andb_prop in Hfp as [?Hf Hfp] end;
    repeat first
      [ rewrite take_digits_app by (assumption || reflexivity)
      | match goal with H : is_digit ?f = true |- context [is_digit ?f] => rewrite H end
      | progress cbn -[String.append take_digits]
      | progress cbn [take_digits]
      | closed_bool
      | rewrite str_app_assoc | rewrite str_app_cons | rewrite str_app_nil_l ];
    rewrite ?str_app_nil_r, ?str_app_assoc, ?str_app_cons, ?str_app_nil_l, ?str_app_nil_r;
    try reflexivity.

Qed.

Lemma digit_cases (d : ascii) : is_digit d = true ->
  d = "0"%char \/ d = "1"%char \/ d = "2"%char \/ d = "3"%char \/ d = "4"%char \/
  d = "5"%char \/ d = "6"%char \/ d = "7"%char \/ d = "8"%char \/ d = "9"%char.
Proof.
  destruct d as [[] [] [] [] [] [] [] []]; intros H; vm_compute in H;
    try discriminate H; tauto.
Qed.

Lemma parse_value_num (n : nat) (h : ascii) (s : string) :
  h = "-"%char \/ is_digit h = true ->
  parse_value (S n) (String h s) =
  ('(lex, r') ← parse_number (String h s); Some (JNum lex, r')).
Proof.
  intros [-> | Hd]; [reflexivity |].
  apply digit_cases in Hd.
  repeat destruct Hd as [-> | Hd]; try reflexivity. subst; reflexivity.
Qed.

Lemma parse_value_str (n : nat) (s : string) :
  parse_value (S n) (String qc s) = ('(b, r') ← parse_str_body s; Some (JStr b, r')).
Proof. reflexivity. Qed.

Lemma num_lexeme_head (neg : bool) (d : ascii) (r fp Y : string) :
  is_digit d = true ->
  exists h s', num_lexeme neg (String d r) fp +:+ Y = String h s' /\
    (h = "-"%char \/ is_digit h = true).
Proof.
  intros Hd. destruct neg; eexists _, _; (split; [reflexivity |]); auto.
Qed.

Lemma parse_scalar (n : nat) (v : scalar) (c : ascii) (X : string) :
  (1 <= n)%nat -> wf_scalar v = true -> closer c = true ->
  parse_value n (ser_scalar v +:+ String c X) = Some (scalar_val v, String c X).
Proof.
  intros Hn Hv Hc. destruct n as [|n]; [lia |].
  destruct v as [| [] | s | neg ip fp]; cbn [wf_scalar] in Hv.
  - reflexivity.
  - reflexivity.
  - reflexivity.
  - unfold ser_scalar. rewrite !str_app_assoc.
    change (parse_value (S n) (String qc (s +:+ String qc (String c X))) = Some (JStr s, String c X)).
    rewrite parse_value_str, parse_str_body_plain by exact Hv. reflexivity.
  - apply andb_prop in Hv as [Hip Hfp].
    destruct ip as [|d r]; [discriminate |].
    assert (Hd : is_digit d = true).
    { unfold valid_ip in Hip. destruct (Ascii.eqb d "0"%char) eqn:E.
      - apply Ascii.eqb_eq in E. subst. reflexivity.
      - apply andb_prop in Hip as [H _]. exact H. }
    unfold ser_scalar, scalar_val.
    destruct (num_lexeme_head neg d r fp (String c X) Hd) as (h & s' & E & Hh).
    rewrite E, parse_value_num by exact Hh. rewrite <- E.
    rewrite parse_number_lexeme by assumption. reflexivity.
Qed.

Lemma parse_member_step (n : nat) (m : string * scalar) (c2 : ascii) (Y : string)
    (acc : list (string * jsval)) :
  (1 <= n)%nat -> wf_member m = true -> closer c2 = true ->
  parse_members (S n) (ser_member m +:+ String c2 Y) acc =
  if Ascii.eqb c2 ","%char then parse_members n (skip_ws Y) (acc ++ [member_val m])
  else Some (JObj (acc ++ [member_val m]), Y).
Proof.
  intros Hn Hm Hc. destruct m as [k v]. unfold wf_member in Hm; cbn [fst snd] in Hm.
  apply andb_prop in Hm as [Hk Hv].
  unfold ser_member; cbn [fst snd]. rewrite !str_app_assoc.
  change (parse_members (S n) (String qc (k +:+ String qc (String ":" (ser_scalar v +:+ String c2 Y)))) acc =
    if Ascii.eqb c2 ","%char then parse_members n (skip_ws Y) (acc ++ [(k, scalar_val v)])
    else Some (JObj (acc ++ [(k, scalar_val v)]), Y)).
  repeat first [progress cbn -[String.append parse_str_body] | closed_bool].
  rewrite parse_str_body_plain by exact Hk.
  repeat first [progress cbn -[String.append parse_str_body] | closed_bool].
  rewrite parse_scalar by assumption.
  assert (Hc' : c2 = ","%char \/ c2 = "}"%char).
  { unfold closer in Hc. apply orb_prop in Hc as [E|E]; apply Ascii.eqb_eq in E; auto. }
  destruct Hc' as [-> | ->]; reflexivity.
Qed.

Lemma skip_ws_member (m : string * scalar) (W : string) :
  skip_ws (ser_member m +:+ W) = ser_member m +:+ W.
Proof. reflexivity. Qed.

Lemma closer_comma : closer ","%char = true.
Proof. reflexivity. Qed.

Lemma closer_brace : closer "}"%char = true.
Proof. reflexivity. Qed.

Lemma parse_post (post : list (string * scalar)) (t : string * scalar) (Z0 : string)
    (N : nat) (acc : list (string * jsval)) :
  Forall (fun m => wf_member m = true) (t :: post) ->
  (length post + 2 <= N)%nat ->
  parse_members N (ser_member t +:+ ser_post post +:+ "}" +:+ Z0) acc =
  Some (JObj (acc ++ member_val t :: map member_val post), Z0).
Proof.
  revert t N acc. induction post as [|m post IH]; intros t N acc Hwf HN;
    inversion Hwf as [|? ? Ht Hrest]; subst.
  - destruct N as [|N]; [cbn in HN; lia |].
    change (parse_members (S N) (ser_member t +:+ String "}" Z0) acc =
            Some (JObj (acc ++ [member_val t]), Z0)).
    rewrite parse_member_step by (cbn in HN; lia || assumption || reflexivity).
    reflexivity.
  - destruct N as [|N]; [cbn in HN; lia |].
    cbn [ser_post]. rewrite !str_app_assoc.
    change (parse_members (S N) (ser_member t +:+ String "," (ser_member m +:+
              ser_post post +:+ "}" +:+ Z0)) acc =
            Some (JObj (acc ++ member_val t :: member_val m :: map member_val post), Z0)).
    rewrite parse_member_step by (cbn in HN; lia || assumption || reflexivity).
    cbn [Ascii.eqb Bool.eqb andb]. rewrite skip_ws_member.
    rewrite IH by (assumption || (cbn in HN; lia)).
    rewrite <- app_assoc. reflexivity.
Qed.

Lemma parse_pre (pre post : list (string * scalar)) (t : string * scalar) (Z0 : string)
    (N : nat) (acc : list (string * jsval)) :
  Forall (fun m => wf_member m = true) pre ->
  Forall (fun m => wf_member m = true) (t :: post) ->
  (length pre + length post + 2 <= N)%nat ->
  parse_members N (ser_pre pre +:+ ser_member t +:+ ser_post post +:+ "}" +:+ Z0) acc =
  Some (JObj (acc ++ map member_val pre ++ member_val t :: map member_val post), Z0).
Proof.
  revert N acc. induction pre as [|m pre IH]; intros N acc Hpre Hpost HN.
  - rewrite str_app_nil_l. apply parse_post; [assumption | cbn in HN; lia].
  - inversion Hpre as [|? ? Hm Hrest]; subst.
    destruct N as [|N]; [cbn in HN; lia |].
    cbn [ser_pre]. rewrite !str_app_assoc.
    change (parse_members (S N) (ser_member m +:+ String "," (ser_pre pre +:+ ser_member t +:+
              ser_post post +:+ "}" +:+ Z0)) acc =
            Some (JObj (acc ++ (member_val m :: map member_val pre) ++ member_val t :: map member_val post), Z0)).
    rewrite parse_member_step by (cbn in HN; lia || assumption || reflexivity).
    cbn [Ascii.eqb Bool.eqb andb].
    assert (Hs : skip_ws (ser_pre pre +:+ ser_member t +:+ ser_post post +:+ "}" +:+ Z0) =
                 ser_pre pre +:+ ser_member t +:+ ser_post post +:+ "}" +:+ Z0).
    { destruct pre as [|m' pre]; [reflexivity |].
      cbn [ser_pre]. rewrite !str_app_assoc. apply skip_ws_member. }
    rewrite Hs, IH by (assumption || (cbn in HN; lia)).
    rewrite <- app_assoc. reflexivity.
Qed.

Lemma parse_value_obj (n : nat) (R : string) :
  parse_value (S n) (String "{" (String qc R)) = parse_members n (String qc R) [].
Proof. reflexivity. Qed.

Lemma len_ser_member (m : string * scalar) : (1 <= String.length (ser_member m))%nat.
Proof. change (1 <= S (String.length (m.1 +:+ quote +:+ ":" +:+ ser_scalar m.2)))%nat. lia. Qed.

Lemma len_ser_pre (pre : list (string * scalar)) : (length pre <= String.length (ser_pre pre))%nat.
Proof.
  induction pre as [|m pre IH]; cbn [ser_pre length]; [lia |].
  rewrite !str_length_app. pose proof (len_ser_member m). cbn [String.length]. lia.
Qed.

Lemma len_ser_post (post : list (string * scalar)) : (length post <= String.length (ser_post post))%nat.
Proof.
  induction post as [|m post IH]; cbn [ser_post length]; [lia |].
  rewrite !str_length_app. pose proof (len_ser_member m). cbn [String.length]. lia.
Qed.

Lemma json_repaired (pre post : list (string * scalar)) (v : scalar) :
  Forall (fun m => wf_member m = true) pre ->
  Forall (fun m => wf_member m = true) post ->
  wf_scalar v = true ->
  JSON_parse ("{" +:+ ser_pre pre +:+ ser_member ("target", v) +:+ ser_post post +:+ "}") =
  Some (JObj (map member_val pre ++ ("target", scalar_val v) :: map member_val post)).
Proof.
  intros Hpre Hpost Hv.
  set (R := ser_pre pre +:+ ser_member ("target", v) +:+ ser_post post +:+ "}").
  assert (HR : exists R', R = String qc R').
  { subst R. destruct pre as [|m pre]; [eexists; reflexivity |].
    cbn [ser_pre]. rewrite !str_app_assoc. eexists; reflexivity. }
  assert (HL : (length pre + length post + 2 <= String.length R)%nat).
  { subst R. rewrite !str_length_app. pose proof (len_ser_pre pre). pose proof (len_ser_post post).
    pose proof (len_ser_member ("target", v)). cbn [String.length]. lia. }
  assert (Ht : Forall (fun m => wf_member m = true) (("target", v) :: post)).
  { constructor; [unfold wf_member; cbn [fst snd]; rewrite Hv; reflexivity | exact Hpost]. }
  unfold JSON_parse. change ("{" +:+ R) with (String "{" R).
  change (String.length (String "{" R)) with (S (String.length R)).
  destruct HR as [R' ER]. rewrite ER, parse_value_obj, <- ER.
  assert (ER2 : R = ser_pre pre +:+ ser_member ("target", v) +:+ ser_post post +:+ "}" +:+ "")
    by (subst R; rewrite str_app_nil_r; reflexivity).
  rewrite ER2, parse_pre by (assumption || (rewrite <- ER2; lia)). reflexivity.
Qed.

Lemma split_on_app (c : ascii) (a b : string) :
  str_has c a = false -> split_on c (a +:+ String c b) = a :: split_on c b.
Proof.
  induction a as [|x a IH]; intros H.
  - rewrite str_app_nil_l. cbn. rewrite Ascii.eqb_refl. reflexivity.
  - cbn [str_has] in H. apply orb_false_iff in H as [H1 H2].
    rewrite str_app_cons. cbn [split_on]. rewrite Ascii.eqb_sym, H1, (IH H2). reflexivity.
Qed.

Lemma split_on_none (c : ascii) (a : string) :
  str_has c a = false -> split_on c a = [a].
Proof.
  induction a as [|x a IH]; intros H; [reflexivity |].
  cbn [str_has] in H. apply orb_false_iff in H as [H1 H2].
  cbn [split_on]. rewrite Ascii.eqb_sym, H1, (IH H2). reflexivity.
Qed.

Lemma jget_last_target (pre post : list (string * jsval)) (tv : jsval) :
  Forall (fun kv => kv.1 <> "target") post ->
  jget (JObj (pre ++ ("target", tv) :: post)) "target" = Some tv.
Proof.
  intros Hpost. unfold jget. f_equal. rewrite foldl_app. cbn [foldl].
  generalize (foldl (fun acc kv => if String.eqb kv.1 "target" then Some kv.2 else acc) None pre).
  intros o. cbn [fst snd]. rewrite String.eqb_refl.
  assert (Hk : forall o', foldl (fun acc kv => if String.eqb kv.1 "target" then Some kv.2 else acc)
                 o' post = o').
  { induction Hpost as [|kv post Hkv _ IH]; intros o'; [reflexivity |].
    cbn [foldl]. destruct (String.eqb kv.1 "target") eqn:E;
      [apply String.eqb_eq in E; contradiction | apply IH]. }
  rewrite Hk. reflexivity.
Qed.

Lemma thermostat_topic_ends (dingzId ty : string) :
  ends_with "state/thermostat" (thermostat_topic dingzId ty) = true.
Proof.
  unfold thermostat_topic.
  replace ("dingz/" +:+ dingzId +:+ "/" +:+ ty +:+ "/state/thermostat")
    with (("dingz/" +:+ dingzId +:+ "/" +:+ ty +:+ "/") +:+ "state/thermostat")
    by (rewrite !str_app_assoc; reflexivity).
  apply ends_with_app.
Qed.

Lemma parse_thermostat_payload (dingzId ty : string) (pre post : list (string * scalar)) (v : scalar) :
  Forall (fun m => wf_member m = true) pre ->
  Forall (fun m => wf_member m = true) post ->
  wf_scalar v = true ->
  parse_message (thermostat_topic dingzId ty) (thermostat_payload pre v post) =
  Some (JObj (map member_val pre ++ ("target", scalar_val v) :: map member_val post)).
Proof.
  intros Hpre Hpost Hv. unfold parse_message.
  rewrite thermostat_topic_ends, replace_payload by exact Hpre.
  rewrite json_repaired by assumption. reflexivity.
Qed.

Lemma bind_ret_l {A B} (x : A) (k : A -> M B) : bind (ret x) k = k x.
Proof. reflexivity. Qed.

Lemma bind_modify_app {B} (f : dev -> dev) (k : unit -> M B) (d : dev) :
  bind (modify f) k d = k tt (f d).
Proof. reflexivity. Qed.

Lemma setPropOptWith_ret (id : string) (v : jsval) (d : dev) :
  setPropOptWith id (ret v) d = (Ok tt, set_properties (opt_insert id v d.(properties)) d).
Proof.
  unfold setPropOptWith, opt_insert, bind, get, ret, setProp, modify.
  destruct (properties d !! id) eqn:E; cbn; rewrite ?E; [reflexivity |].
  destruct d; reflexivity.
Qed.

Lemma bind_setPropOptWith_ret {B} (id : string) (v : jsval) (k : unit -> M B) (d : dev) :
  bind (setPropOptWith id (ret v)) k d = k tt (set_properties (opt_insert id v d.(properties)) d).
Proof. unfold bind at 1. rewrite setPropOptWith_ret. reflexivity. Qed.

Lemma if_ret {A} (b : bool) (x y : A) : (if b then ret x else ret y) = ret (if b then x else y).
Proof. destruct b; reflexivity. Qed.

Lemma getM_obj (ms : list (string * jsval)) (k : string) :
  getM (JObj ms) k = ret (default JUndef (foldl (fun acc kv => if String.eqb kv.1 k then Some kv.2 else acc) None ms)).
Proof. reflexivity. Qed.

Lemma opt_insert_ne (id k : string) (v : jsval) (ps : gmap string jsval) :
  id <> k -> opt_insert id v ps !! k = ps !! k.
Proof. intros H. unfold opt_insert. destruct (ps !! id); [apply lookup_insert_ne, H | reflexivity]. Qed.

Lemma opt_insert_eq (id : string) (v : jsval) (ps : gmap string jsval) :
  is_Some (ps !! id) -> opt_insert id v ps !! id = Some v.
Proof. intros [x H]. unfold opt_insert. rewrite H. by simplify_map_eq. Qed.

Lemma thermostat_event (hex2 : jsval -> option string) (ty : string)
    (ms : list (string * jsval)) (tv : jsval) (d : dev) :
  str_has "/"%char ty = false ->
  String.eqb ty "online" = false -> String.eqb ty "announce" = false ->
  String.eqb ty "last_alive" = false ->
  jget (JObj ms) "target" = Some tv ->
  is_Some (d.(properties) !! "targetTemperature") ->
  (mqttEvent hex2 (join "/" [ty; "state"; "thermostat"]) (JObj ms) d).1 = Ok tt /\
  (mqttEvent hex2 (join "/" [ty; "state"; "thermostat"]) (JObj ms) d).2.(properties)
    !! "targetTemperature" = Some tv.
Proof.
  intros Hs H1 H2 H3 Ht Hp.
  assert (Hsplit : split_on "/"%char (join "/" [ty; "state"; "thermostat"]) = [ty; "state"; "thermostat"]).
  { change (join "/" [ty; "state"; "thermostat"]) with (ty +:+ String "/" "state/thermostat").
    rewrite split_on_app by exact Hs. reflexivity. }
  assert (Htv : getM (JObj ms) "target" = ret tv) by (unfold getM; rewrite Ht; reflexivity).
  unfold mqttEvent. rewrite Hsplit. cbv zeta. cbn [default nth_str lookup list_lookup drop].
  unfold id. rewrite H1, H2, H3. cbn [is_some_str String.eqb Ascii.eqb Bool.eqb andb].
  rewrite Htv, !getM_obj, !bind_ret_l, if_ret.
  rewrite bind_modify_app, !bind_setPropOptWith_ret, setPropOptWith_ret.
  cbn [fst snd properties set_properties]. split; [reflexivity |].
  apply opt_insert_eq. cbn [properties set_properties].
  rewrite !opt_insert_ne by discriminate. exact Hp.
Qed.

(** C5: for a push on [dingz/<id>/<type>/state/thermostat] whose payload
    is an object of scalar members in which the target member is written
    with the colon inside the key's quotes (["target:"21]),
    [parse_message] repairs and parses it to the object with a [target]
    member, [on_message] completes without error and the device's
    [targetTemperature] holds the parsed target value.  The members hold
    printable text without quotes, backslashes or colons and JSON number
    literals; no member after the target is named [target]. *)
Theorem thermostat_target_repair (hex2 : jsval -> option string) (dingzId ty : string)
    (pre post : list (string * scalar)) (v : scalar) (a : adapter) (d : dev) :
  Forall (fun m => wf_member m = true) pre ->
  Forall (fun m => wf_member m = true) post ->
  Forall (fun m => m.1 <> "target") post ->
  wf_scalar v = true ->
  str_has "/"%char dingzId = false -> str_has "/"%char ty = false ->
  String.eqb ty "online" = false -> String.eqb ty "announce" = false ->
  String.eqb ty "last_alive" = false ->
  a.(devices) !! ("dingz-" +:+ dingzId) = Some d ->
  is_Some (d.(properties) !! "targetTemperature") ->
  parse_message (thermostat_topic dingzId ty) (thermostat_payload pre v post) =
    Some (JObj (map member_val pre ++ ("target", scalar_val v) :: map member_val post)) /\
  (on_message hex2 (thermostat_topic dingzId ty) (thermostat_payload pre v post) a).2 = Ok tt /\
  exists d', (on_message hex2 (thermostat_topic dingzId ty) (thermostat_payload pre v post) a).1
               .(devices) !! ("dingz-" +:+ dingzId) = Some d' /\
             d'.(properties) !! "targetTemperature" = Some (scalar_val v).
Proof.
  intros Hpre Hpost Hkeys Hv Hid Hty H1 H2 H3 Hd Hp.
  pose proof (parse_thermostat_payload dingzId ty pre post v Hpre Hpost Hv) as Hparse.
  split; [exact Hparse |].
  assert (Hsplit : split_on "/"%char (thermostat_topic dingzId ty) =
                   ["dingz"; dingzId; ty; "state"; "thermostat"]).
  { change (thermostat_topic dingzId ty) with
      ("dingz" +:+ String "/" (dingzId +:+ String "/" (ty +:+ String "/" "state/thermostat"))).
    rewrite split_on_app by reflexivity.
    rewrite split_on_app by exact Hid.
    rewrite split_on_app by exact Hty. reflexivity. }
  assert (Ht : jget (JObj (map member_val pre ++ ("target", scalar_val v) :: map member_val post))
                 "target" = Some (scalar_val v)).
  { apply jget_last_target. apply Forall_map. eapply Forall_impl; [exact Hkeys |].
    intros [k s] Hk. exact Hk. }
  destruct (thermostat_event hex2 ty _ _ d Hty H1 H2 H3 Ht Hp) as [Er Ep].
  unfold on_message. rewrite Hsplit. cbn [String.eqb Ascii.eqb Bool.eqb andb negb drop lookup list_lookup default].
  rewrite Hparse. unfold id. rewrite Hd.
  destruct (mqttEvent hex2 (join "/" [ty; "state"; "thermostat"]) _ d) as [r d'] eqn:Ev.
  cbn [fst snd] in Er, Ep |- *.
  split; [exact Er |].
  exists d'. split; [| exact Ep]. cbn [devices]. by simplify_map_eq.
Qed.

(** C5, instance: the payload
    [{"status":"on","mode":"heating","target:"21,"temp":20.5}] on
    [dingz/AABBCCDDEEFF/dingz/state/thermostat] sets the target temperature
    to 21. *)
Lemma thermostat_target_repair_witness :
  parse_message (thermostat_topic "AABBCCDDEEFF" "dingz") (thermostat_payload thermo_pre (SNum false "21" "") thermo_post) =
    Some (JObj (map member_val thermo_pre ++ ("target", JNum "21") :: map member_val thermo_post)) /\
  (on_message (fun _ => None) (thermostat_topic "AABBCCDDEEFF" "dingz")
     (thermostat_payload thermo_pre (SNum false "21" "") thermo_post) thermo_adapter).2 = Ok tt /\
  exists d', (on_message (fun _ => None) (thermostat_topic "AABBCCDDEEFF" "dingz")
     (thermostat_payload thermo_pre (SNum false "21" "") thermo_post) thermo_adapter).1
               .(devices) !! "dingz-AABBCCDDEEFF" = Some d' /\
             d'.(properties) !! "targetTemperature" = Some (JNum "21").
Proof.
  apply (thermostat_target_repair (fun _ => None) "AABBCCDDEEFF" "dingz" thermo_pre thermo_post
           (SNum false "21" "") thermo_adapter
           (dev_with ["thermostatMode"; "thermostatState"; "targetTemperature"]));
    try reflexivity.
  - repeat constructor.
  - repeat constructor.
  - repeat constructor; cbn; discriminate.
  - eexists; reflexivity.
Defined.

(** ** UDP discovery (index.js [DingzDiscovery]) *)

Lemma to_hex_byte_len (b : Byte.byte) :
  String.length (to_hex (byte_z b)) = hex_width b.
Proof. destruct b; vm_compute; reflexivity. Qed.

Lemma to_hex_byte_inv (b : Byte.byte) : hex_value 0 (to_hex (byte_z b)) = byte_z b.
Proof. destruct b; vm_compute; reflexivity. Qed.

Lemma byte_z_inj (a b : Byte.byte) : byte_z a = byte_z b -> a = b.
Proof.
  unfold byte_z; intros H.
  apply N2Z.inj in H.
  apply (f_equal Byte.of_N) in H.
  rewrite !Byte.of_to_N in H. congruence.
Qed.

Lemma join_empty_cons (x : string) (l : list string) :
  join "" (x :: l) = x +:+ join "" l.
Proof.
  destruct l as [|y l]; cbn; [by rewrite str_app_nil_r | reflexivity].
Qed.

Lemma append_length (s t : string) :
  String.length (s +:+ t) = (String.length s + String.length t)%nat.
Proof. induction s; [reflexivity|]. rewrite str_app_cons. cbn. congruence. Qed.

Lemma append_inj_len (a b r r' : string) :
  String.length a = String.length b -> a +:+ r = b +:+ r' -> a = b /\ r = r'.
Proof.
  revert b. induction a as [|c a IH]; intros [|c' b] Hl He; cbn in Hl; try lia.
  - rewrite !str_app_nil_l in He. auto.
  - rewrite !str_app_cons in He. injection He as -> He. destruct (IH b ltac:(lia) He) as [-> ->]. auto.
Qed.

Lemma mapM_readUInt8 (msg : list Byte.byte) :
  (7 <= length msg)%nat ->
  mapM (readUInt8 msg) MAC_BYTES = Some (map byte_z (mac_bytes msg)).
Proof.
  intros H.
  do 7 (destruct msg as [|? msg]; cbn in H; [lia|]).
  reflexivity.
Qed.

Lemma discovered_inv (msg : list Byte.byte) size addr m a :
  on_discovery_message msg size addr = Discovered m a ->
  m = join "" (map to_hex (map byte_z (mac_bytes msg))) /\ a = addr /\ (7 <= length msg)%nat.
Proof.
  unfold on_discovery_message.
  destruct (negb (size =? DISCOVERY_MESSAGE_BYTES)); [discriminate|].
  destruct (readUInt8 msg 6) eqn:E6; [|discriminate].
  assert (H7 : (7 <= length msg)%nat).
  { unfold readUInt8 in E6. destruct (msg !! 6%nat) eqn:E; [|discriminate].
    apply lookup_lt_Some in E. lia. }
  destruct (negb (z =? DINGZ_TYPE)); [discriminate|].
  rewrite mapM_readUInt8 by exact H7.
  intros Hd; injection Hd as <- <-. auto.
Qed.

Lemma join_hex_length (bs : list Byte.byte) :
  String.length (join "" (map to_hex (map byte_z bs))) =
  sum_list (map hex_width bs).
Proof.
  induction bs as [|b bs IH]; [reflexivity|].
  cbn [map sum_list]. rewrite join_empty_cons, append_length, to_hex_byte_len, IH.
  reflexivity.
Qed.

Lemma sum_list_12 (bs : list Byte.byte) :
  length bs = 6%nat ->
  sum_list (map hex_width bs) = 12%nat <->
  Forall (fun b => 16 <= byte_z b) bs.
Proof.
  intros Hl.
  assert (Hle : forall l : list Byte.byte,
             let w := sum_list (map hex_width l) in
             (w <= 2 * length l)%nat /\
             (w = (2 * length l)%nat <-> Forall (fun b => 16 <= byte_z b) l)).
  { induction l as [|b l IH]; cbv zeta in *; cbn [map sum_list length]; unfold id.
    2: destruct IH as [IH1 IH2].
    - split; [lia|]. split; [constructor | reflexivity].
    - change (sum_list_with (fun x : nat => x) (map hex_width l)) with (sum_list (map hex_width l)).
      change (hex_width b) with (if 16 <=? byte_z b then 2%nat else 1%nat).
      destruct (16 <=? byte_z b) eqn:Eb.
      + apply Z.leb_le in Eb. split; [lia|]. rewrite Forall_cons.
        split; [intros H; split; [exact Eb | apply IH2; lia] | intros [_ H]; apply IH2 in H; lia].
      + apply Z.leb_gt in Eb. split; [lia|]. rewrite Forall_cons.
        split; [lia | intros [H _]; lia]. }
  destruct (Hle bs) as [_ H]. cbv zeta in H. rewrite Hl in H. exact H.
Qed.

Lemma mac_bytes_len (msg : list Byte.byte) :
  (7 <= length msg)%nat -> length (mac_bytes msg) = 6%nat.
Proof. intros H. unfold mac_bytes. rewrite length_take. lia. Qed.

Lemma join_hex_inj (xs ys : list Byte.byte) :
  Forall (fun b => 16 <= byte_z b) xs -> Forall (fun b => 16 <= byte_z b) ys ->
  length xs = length ys ->
  join "" (map to_hex (map byte_z xs)) = join "" (map to_hex (map byte_z ys)) -> xs = ys.
Proof.
  revert ys. induction xs as [|x xs IH]; intros [|y ys] Hx Hy Hl He; cbn in Hl; try lia.
  - reflexivity.
  - inversion Hx as [|? ? Hx1 Hx2]; inversion Hy as [|? ? Hy1 Hy2]; subst.
    cbn [map] in He. rewrite !join_empty_cons in He.
    apply append_inj_len in He as [Hh Ht].
    + f_equal; [|apply IH; auto].
      apply byte_z_inj. rewrite <- (to_hex_byte_inv x), <- (to_hex_byte_inv y), Hh. reflexivity.
    + rewrite !to_hex_byte_len. unfold hex_width. apply Z.leb_le in Hx1, Hy1. rewrite Hx1, Hy1. reflexivity.
Qed.

(** The [mac] a dingz datagram announces is 12 characters long exactly when
    each of its six MAC bytes is at least 16: [toString(16)] does not pad,
    so a byte below 16 gives a single digit. *)
Lemma discovery_mac_length (msg : list Byte.byte) (size : Z) (addr : jsval) (m : string) (a : jsval) :
  on_discovery_message msg size addr = Discovered m a ->
  String.length m = 12%nat <-> Forall (fun b => 16 <= byte_z b) (mac_bytes msg).
Proof.
  intros H. apply discovered_inv in H as (-> & _ & H7).
  rewrite join_hex_length. apply sum_list_12, mac_bytes_len, H7.
Qed.

Lemma discovery_mac_length_witness :
  on_discovery_message [Byte.x01; Byte.x1a; Byte.xbb; Byte.xcc; Byte.xdd; Byte.xee; Byte.x6c; Byte.x00] 8 (JStr "10.0.0.5")
    = Discovered "11abbccddee" (JStr "10.0.0.5") /\
  (String.length "11abbccddee" = 12%nat <->
   Forall (fun b => 16 <= byte_z b) (mac_bytes [Byte.x01; Byte.x1a; Byte.xbb; Byte.xcc; Byte.xdd; Byte.xee; Byte.x6c; Byte.x00])).
Proof.
  assert (H : on_discovery_message [Byte.x01; Byte.x1a; Byte.xbb; Byte.xcc; Byte.xdd; Byte.xee; Byte.x6c; Byte.x00] 8 (JStr "10.0.0.5")
    = Discovered "11abbccddee" (JStr "10.0.0.5")) by (vm_compute; reflexivity).
  split; [exact H | exact (discovery_mac_length _ _ _ _ _ H)].
Defined.

(** Two dingz datagrams announce the same [mac] only if they carry the same
    MAC bytes, provided the MAC bytes of one of them are all at least 16. *)
Lemma discovery_mac_injective (msg1 msg2 : list Byte.byte) (s1 s2 : Z) (a1 a2 b1 b2 : jsval) (m : string) :
  on_discovery_message msg1 s1 a1 = Discovered m b1 ->
  on_discovery_message msg2 s2 a2 = Discovered m b2 ->
  Forall (fun b => 16 <= byte_z b) (mac_bytes msg1) ->
  mac_bytes msg1 = mac_bytes msg2.
Proof.
  intros H1 H2 F1.
  pose proof (proj2 (discovery_mac_length _ _ _ _ _ H1) F1) as L.
  pose proof (proj1 (discovery_mac_length _ _ _ _ _ H2) L) as F2.
  apply discovered_inv in H1 as (-> & _ & L1).
  apply discovered_inv in H2 as (E & _ & L2).
  apply join_hex_inj; auto.
  rewrite !mac_bytes_len; auto.
Qed.

Lemma discovery_mac_injective_witness :
  let msg := [Byte.xa1; Byte.x1a; Byte.xbb; Byte.xcc; Byte.xdd; Byte.xee; Byte.x6c; Byte.x00] in
  mac_bytes msg = mac_bytes msg.
Proof.
  cbv zeta.
  apply (discovery_mac_injective _ _ 8 8 (JStr "10.0.0.5") (JStr "10.0.0.6") (JStr "10.0.0.5") (JStr "10.0.0.6") "a11abbccddee");
    [vm_compute; reflexivity | vm_compute; reflexivity | ].
  repeat constructor; vm_compute; discriminate.
Defined.


(** ** The poll timer (index.js [DevicePoller]) *)

Lemma one_timer_step (p : poller) (e : poller_event) :
  one_timer p -> serial p e -> one_timer (poller_step e p).
Proof.
  unfold one_timer; destruct p as [tm ds pe iv nx pl]; cbn.
  intros [Hs Ht] Hser.
  destruct e as [dv|dv| | | |i]; cbn in *.
  - unfold addDevice; cbn. destruct tm as [t|]; cbn.
    + split; [lia | exact Ht].
    + specialize (Hser eq_refl). rewrite Hser, Ht. split; [cbn; lia | reflexivity].
  - unfold removeDevice; cbn.
    destruct (decide _).
    + unfold destroy; cbn. destruct tm as [t|]; cbn.
      * rewrite Ht. cbn. rewrite decide_False by congruence. cbn. split; [rewrite Ht in Hs; cbn in Hs; lia | reflexivity].
      * split; assumption.
    + split; assumption.
  - unfold destroy; cbn. destruct tm as [t|]; cbn.
    * rewrite Ht. cbn. rewrite decide_False by congruence. cbn. split; [rewrite Ht in Hs; cbn in Hs; lia | reflexivity].
    * split; assumption.
  - unfold resolve; cbn. destruct pe as [|k]; cbn.
    + split; assumption.
    + assert (iv = []) as -> by (destruct iv; cbn in Hs; [reflexivity | lia]).
      split; [cbn; lia | reflexivity].
  - split; [lia | exact Ht].
  - unfold tick; cbn. destruct (decide _); cbn; split; assumption.
Qed.

Lemma poller_run_cons (e : poller_event) (es : list poller_event) (p : poller) :
  poller_run (e :: es) p = poller_run es (poller_step e p).
Proof. reflexivity. Qed.

Lemma poller_run_app (es1 es2 : list poller_event) (p : poller) :
  poller_run (es1 ++ es2) p = poller_run es2 (poller_run es1 p).
Proof. unfold poller_run. by rewrite foldl_app. Qed.

(** When [addDevice] is never called while a [getPollInterval()] is in
    flight, at most one poll interval runs and [this.timer] holds it, so
    [destroy] (on [unload], or when the last device is removed) leaves no
    interval running. *)
Lemma poller_single_interval (es : list poller_event) :
  serial_trace poller_init es ->
  one_timer (poller_run es poller_init) /\ intervals (destroy (poller_run es poller_init)) = [].
Proof.
  intros Hs.
  assert (Hinv : one_timer (poller_run es poller_init)).
  { assert (H0 : one_timer poller_init) by (split; cbn; [lia | reflexivity]).
    revert Hs H0. generalize poller_init as p.
    induction es as [|e es IH]; intros p Hs Hp; [exact Hp|].
    destruct Hs as [He Hs]. rewrite poller_run_cons.
    apply IH; [exact Hs | apply one_timer_step; assumption]. }
  split; [exact Hinv|].
  destruct Hinv as [_ Ht]. destruct (poller_run es poller_init) as [tm ds pe iv nx pl].
  unfold destroy; cbn in *. destruct tm as [t|]; cbn.
  - rewrite Ht. cbn. rewrite decide_False by congruence. reflexivity.
  - exact Ht.
Qed.

Lemma poller_single_interval_witness :
  one_timer (poller_run [PAdd "dingz-a"; PResolve; PAdd "dingz-b"; PTick 0; PRemove "dingz-a"] poller_init) /\
  intervals (destroy (poller_run [PAdd "dingz-a"; PResolve; PAdd "dingz-b"; PTick 0; PRemove "dingz-a"] poller_init)) = [].
Proof.
  apply poller_single_interval. cbn. repeat split; discriminate.
Defined.

Lemma run_adds (dvs : list string) (ds : list string) (pe nx : nat) (iv : list nat) (pl : list string) :
  exists ds', poller_run (map PAdd dvs) (mkPoller None ds pe iv nx pl) =
              mkPoller None ds' (pe + length dvs) iv nx pl.
Proof.
  revert ds pe. induction dvs as [|dv dvs IH]; intros ds pe.
  - exists ds. cbn. f_equal. lia.
  - cbn [map]. rewrite poller_run_cons. cbn. unfold addDevice; cbn.
    destruct (IH (set_add dv ds) (S pe)) as [ds' E]. exists ds'. rewrite E. f_equal. cbn. lia.
Qed.

Lemma run_resolves (n : nat) (tm : option nat) (ds : list string) (nx : nat) (iv : list nat) (pl : list string) :
  poller_run (repeat PResolve (S n)) (mkPoller tm ds (S n) iv nx pl) =
  mkPoller (Some (nx + n)%nat) ds 0 (rev (seq nx (S n)) ++ iv) (S (nx + n)) pl.
Proof.
  revert tm nx iv. induction n as [|n IH]; intros tm nx iv.
  - cbn. by rewrite Nat.add_0_r.
  - change (repeat PResolve (S (S n))) with (PResolve :: repeat PResolve (S n)). rewrite poller_run_cons. cbn [poller_step]. unfold resolve; cbn [pending].
    cbn [timer pdevices intervals next_id polled].
    rewrite IH. replace (S nx + n)%nat with (nx + S n)%nat by lia.
    f_equal. cbn [seq rev]. rewrite <- !app_assoc. reflexivity.
Qed.

Lemma filter_keep (t : nat) (l : list nat) :
  Forall (fun i => i <> t) l -> filter (fun i => i <> t) l = l.
Proof.
  induction 1 as [|x l Hx _ IH]; [reflexivity|].
  rewrite filter_cons_True by exact Hx. by rewrite IH.
Qed.

Lemma seq_below (nx n : nat) : Forall (fun i => i <> (nx + n)%nat) (rev (seq nx n)).
Proof.
  apply Forall_rev, Forall_forall. intros i Hi.
  apply list_elem_of_In, in_seq in Hi. lia.
Qed.

(** Every [addDevice] made before the first [getPollInterval()] settles
    starts its own poll interval: [k] devices added that way give [k]
    intervals, and [destroy] clears only the last
    one, leaving [k - 1] running. *)
Lemma poller_add_race (dvs : list string) :
  dvs <> [] ->
  length (intervals (poller_run (map PAdd dvs ++ repeat PResolve (length dvs)) poller_init))
    = length dvs /\
  length (intervals (destroy (poller_run (map PAdd dvs ++ repeat PResolve (length dvs)) poller_init)))
    = (length dvs - 1)%nat.
Proof.
  intros Hne. rewrite poller_run_app.
  destruct (run_adds dvs [] 0 0 [] []) as [ds' E]. unfold poller_init. rewrite E.
  destruct (length dvs) as [|n] eqn:L; [destruct dvs; [congruence | discriminate]|].
  cbn [Nat.add]. rewrite run_resolves.
  unfold destroy; cbn [timer intervals]. rewrite app_nil_r.
  rewrite (seq_S n 0), rev_app_distr. cbn [rev app].
  split.
  - cbn [length]. rewrite length_rev, length_seq. lia.
  - rewrite filter_cons_False by (intros H; apply H; reflexivity).
    rewrite filter_keep by (apply (seq_below 0 n)).
    rewrite length_rev, length_seq. lia.
Qed.

Lemma poller_add_race_witness :
  length (intervals (poller_run (map PAdd ["dingz-a"; "dingz-b"] ++ repeat PResolve 2) poller_init)) = 2%nat /\
  length (intervals (destroy (poller_run (map PAdd ["dingz-a"; "dingz-b"] ++ repeat PResolve 2) poller_init))) = 1%nat.
Proof. apply (poller_add_race ["dingz-a"; "dingz-b"]). discriminate. Defined.

(** The [@type] list has no duplicate, and it lists [EnergyMonitor] exactly
    when the device has a shade, a dimmer group or a thermostat. *)
Lemma device_types_energy (d : dev) :
  NoDup (device_types d) /\
  ("EnergyMonitor" ∈ device_types d <->
   (d.(shade1) || d.(shade2) || d.(dimmerGroup1) || d.(dimmerGroup2) || d.(thermostat)) = true).
Proof.
  destruct d as [c a ty m s1 s2 g1 g2 pir th o ps mi ma ev rq]; unfold device_types; cbn.
  destruct s1, s2, g1, g2, pir, th;
    apply (bool_decide_unpack _); vm_compute; reflexivity.
Qed.

(** ** Property and action metadata (addDimmer, setDimmerConfig) *)

Lemma app_neq_self (a t : string) : t <> "" -> a <> a +:+ t.
Proof.
  intros Ht E. apply (f_equal String.length) in E.
  rewrite append_length in E. destruct t; [congruence | cbn in E; lia].
Qed.

Lemma app_cancel_l (a b c : string) : a +:+ b = a +:+ c -> b = c.
Proof.
  induction a as [|x a IH]; [by rewrite !str_app_nil_l|].
  rewrite !str_app_cons. intros E. injection E. exact IH.
Qed.

Ltac dimmer_keys_neq D :=
  assert (D <> D +:+ "Brightness") by (apply app_neq_self; discriminate);
  assert (D <> D +:+ "Power") by (apply app_neq_self; discriminate);
  assert (D <> D +:+ "toggle") by (apply app_neq_self; discriminate);
  assert (D +:+ "Brightness" <> D +:+ "Power") by (intros E; apply app_cancel_l in E; discriminate);
  assert (D +:+ "Power" <> D +:+ "Brightness") by (intros E; apply app_cancel_l in E; discriminate).

(** part_000: the dimmer on the thermostat output is hidden.  [addDimmer]
    registers its switch and brightness with [visible: false] and no toggle
    action, [setDimmerConfig] leaves it alone, and [asDict] drops both
    properties; only its power reading stays listed. *)
Lemma thermostat_dimmer_hidden (js_String : jsval -> option string) (loose_eq : jsval -> string -> bool)
  (out : option Z) (i : Z) (dimmerConfig : jsval) (s : meta) (rest : list (string * jsval)) :
  not_thermostat_output out i = false ->
  let r := (addDimmer_meta out i ;> setDimmerConfig js_String loose_eq out i dimmerConfig) s in
  let D := "dimmer" +:+ pretty i in
  fst r = Ok tt /\
  option_map (fun p => hidden (prop_entry p rest)) ((snd r).(mprops) !! D) = Some true /\
  option_map (fun p => hidden (prop_entry p rest)) ((snd r).(mprops) !! (D +:+ "Brightness")) = Some true /\
  option_map (fun p => hidden (prop_entry p rest)) ((snd r).(mprops) !! (D +:+ "Power")) = Some false /\
  (snd r).(mactions) = s.(mactions).
Proof.
  intros Hno. cbv zeta.
  unfold addDimmer_meta, addDimmer_with, setDimmerConfig. rewrite Hno.
  set (D := "dimmer" +:+ pretty i). dimmer_keys_neq D.
  cbn. repeat split; by simplify_map_eq.
Qed.

(** index.js: the dimmer on the thermostat output stays listed.  Its
    [BasicDingzProperty] constructor sets [visible = true] whatever the
    [visible: false] of [addDimmer]'s spec, and [setDimmerConfig] skips it,
    so [asDict] keeps its switch and brightness, while it has no toggle
    action. *)
Lemma thermostat_dimmer_listed_v1 (js_String : jsval -> option string) (loose_eq : jsval -> string -> bool)
  (out : option Z) (i : Z) (dimmerConfig : jsval) (s : meta) (rest : list (string * jsval)) :
  not_thermostat_output out i = false ->
  let r := (addDimmer_meta_v1 out i ;> setDimmerConfig_v1 js_String out i dimmerConfig) s in
  let D := "dimmer" +:+ pretty i in
  fst r = Ok tt /\
  option_map (fun p => hidden (prop_entry p rest)) ((snd r).(mprops) !! D) = Some false /\
  option_map (fun p => hidden (prop_entry p rest)) ((snd r).(mprops) !! (D +:+ "Brightness")) = Some false /\
  option_map (fun p => hidden (prop_entry p rest)) ((snd r).(mprops) !! (D +:+ "Power")) = Some false /\
  (snd r).(mactions) = s.(mactions).
Proof.
  intros Hno. cbv zeta.
  unfold addDimmer_meta_v1, addDimmer_with, setDimmerConfig_v1. rewrite Hno.
  set (D := "dimmer" +:+ pretty i). dimmer_keys_neq D.
  cbn. repeat split; by simplify_map_eq.
Qed.

Lemma thermostat_dimmer_listed_v1_witness :
  let r := (addDimmer_meta_v1 (Some 2) 3 ;> setDimmerConfig_v1 (fun _ => None) (Some 2) 3 JNull)
             (mkMeta ∅ ∅) in
  fst r = Ok tt /\
  option_map (fun p => hidden (prop_entry p [])) ((snd r).(mprops) !! "dimmer3") = Some false /\
  option_map (fun p => hidden (prop_entry p [])) ((snd r).(mprops) !! ("dimmer3" +:+ "Brightness")) = Some false /\
  option_map (fun p => hidden (prop_entry p [])) ((snd r).(mprops) !! ("dimmer3" +:+ "Power")) = Some false /\
  (snd r).(mactions) = (mkMeta ∅ ∅).(mactions).
Proof.
  exact (thermostat_dimmer_listed_v1 (fun _ => None) (fun _ _ => false) (Some 2) 3 JNull (mkMeta ∅ ∅) []
           ltac:(reflexivity)).
Defined.

Lemma thermostat_dimmer_hidden_witness :
  let r := (addDimmer_meta (Some 2) 3 ;> setDimmerConfig (fun _ => None) (fun _ _ => false) (Some 2) 3 JNull)
             (mkMeta ∅ ∅) in
  fst r = Ok tt /\
  option_map (fun p => hidden (prop_entry p [])) ((snd r).(mprops) !! "dimmer3") = Some true /\
  option_map (fun p => hidden (prop_entry p [])) ((snd r).(mprops) !! ("dimmer3" +:+ "Brightness")) = Some true /\
  option_map (fun p => hidden (prop_entry p [])) ((snd r).(mprops) !! ("dimmer3" +:+ "Power")) = Some false /\
  (snd r).(mactions) = (mkMeta ∅ ∅).(mactions).
Proof.
  exact (thermostat_dimmer_hidden (fun _ => None) (fun _ _ => false) (Some 2) 3 JNull (mkMeta ∅ ∅) []
           ltac:(reflexivity)).
Defined.

(** part_000: on any other dimmer, [setDimmerConfig] gives the three
    properties [visible = config.active && config.type == "light"] and keeps
    the toggle action exactly when that value is truthy.  When
    [config.active] is falsy but not [false] (missing, [null], [0]), the
    properties keep a [visible] that is not [false], so [asDict] still lists
    them, while the toggle action is deleted. *)
Lemma dimmer_config_visibility (js_String : jsval -> option string) (loose_eq : jsval -> string -> bool)
  (out : option Z) (i : Z) (dimmerConfig ds config active type name : jsval) (s : meta) :
  not_thermostat_output out i = true ->
  jget dimmerConfig "dimmers" = Some ds ->
  js_index ds (i - 1) = Some config ->
  jget config "active" = Some active ->
  jget config "type" = Some type ->
  jget config "name" = Some name ->
  (truthy name = false \/ js_String name <> None) ->
  let r := (addDimmer_meta out i ;> setDimmerConfig js_String loose_eq out i dimmerConfig) s in
  let D := "dimmer" +:+ pretty i in
  let visible := if truthy active then JBool (loose_eq type "light") else active in
  fst r = Ok tt /\
  option_map p_visible ((snd r).(mprops) !! D) = Some visible /\
  option_map p_visible ((snd r).(mprops) !! (D +:+ "Brightness")) = Some visible /\
  option_map p_visible ((snd r).(mprops) !! (D +:+ "Power")) = Some visible /\
  (is_Some ((snd r).(mactions) !! (D +:+ "toggle")) <-> truthy visible = true).
Proof.
  intros Hno Hds Hc Ha Ht Hn Hname. cbv zeta.
  unfold addDimmer_meta, addDimmer_with, setDimmerConfig. rewrite Hno.
  set (D := "dimmer" +:+ pretty i). dimmer_keys_neq D.
  unfold with_config. rewrite Hds, Hc, Ha, Ht, Hn.
  set (vis := if truthy active then JBool (loose_eq type "light") else active).
  unfold apply_dimmer_config. fold D.
  assert (K1 : D +:+ "toggle" <> D +:+ "Brightness") by (intros E; apply app_cancel_l in E; discriminate).
  assert (K2 : D +:+ "toggle" <> D +:+ "Power") by (intros E; apply app_cancel_l in E; discriminate).
  unfold mthen, set_prop_visible, set_action_visible, set_prop_title, set_action_title, mskip, delete_action.
  destruct (truthy name) eqn:EN;
    [destruct Hname as [Hf|HS]; [congruence|];
     destruct (js_String name) as [n|] eqn:ES; [|congruence] |];
    destruct (truthy vis) eqn:EV; cbn [negb];
    repeat (progress (cbn [mprops mactions fst p_title a_title p_visible a_visible]; simplify_map_eq));
    (repeat split); try reflexivity; try (intros _; exact (ex_intro _ _ eq_refl)); try (intros [? Hx]; discriminate Hx);
    try discriminate.
Qed.

Lemma dimmer_config_visibility_witness :
  let cfg := JObj [("dimmers", JArr [JObj [("type", JStr "light"); ("name", JStr "")]])] in
  let r := (addDimmer_meta None 1 ;> setDimmerConfig (fun _ => None) (fun _ _ => true) None 1 cfg)
             (mkMeta ∅ ∅) in
  fst r = Ok tt /\
  option_map p_visible ((snd r).(mprops) !! ("dimmer" +:+ pretty 1)) = Some JUndef /\
  option_map p_visible ((snd r).(mprops) !! ("dimmer" +:+ pretty 1 +:+ "Brightness")) = Some JUndef /\
  option_map p_visible ((snd r).(mprops) !! ("dimmer" +:+ pretty 1 +:+ "Power")) = Some JUndef /\
  (is_Some ((snd r).(mactions) !! ("dimmer" +:+ pretty 1 +:+ "toggle")) <-> truthy JUndef = true).
Proof.
  exact (dimmer_config_visibility (fun _ => None) (fun _ _ => true) None 1
           (JObj [("dimmers", JArr [JObj [("type", JStr "light"); ("name", JStr "")]])])
           (JArr [JObj [("type", JStr "light"); ("name", JStr "")]])
           (JObj [("type", JStr "light"); ("name", JStr "")])
           JUndef (JStr "light") (JStr "") (mkMeta ∅ ∅)
           eq_refl eq_refl eq_refl eq_refl eq_refl eq_refl (or_introl eq_refl)).
Defined.

(** ** Actions and MQTT commands *)

Lemma substring_all (s : string) : substring 0 (String.length s) s = s.
Proof. induction s as [|c s IH]; cbn; [reflexivity | by rewrite IH]. Qed.

Lemma js_slice_from_app (p s : string) : js_slice_from (String.length p) (p +:+ s) = s.
Proof.
  unfold js_slice_from. rewrite append_length.
  replace (String.length p + String.length s - String.length p)%nat with (String.length s) by lia.
  induction p as [|c p IH]; [by rewrite str_app_nil_l, substring_all|].
  rewrite str_app_cons. exact IH.
Qed.

Lemma pretty_digit (i : Z) :
  1 <= i <= 9 ->
  exists c, pretty i = String c EmptyString /\ parseInt (String c EmptyString) = Some i.
Proof.
  intros H.
  assert (i = 1 \/ i = 2 \/ i = 3 \/ i = 4 \/ i = 5 \/ i = 6 \/ i = 7 \/ i = 8 \/ i = 9) as Hi by lia.
  repeat destruct Hi as [->|Hi]; try subst i; eexists; split; vm_compute; reflexivity.
Qed.

Lemma starts_with_app (p s : string) : starts_with p (p +:+ s) = true.
Proof. unfold starts_with. by rewrite strip_prefix_app. Qed.

(** The name of an action [prefix ++ i ++ act], with [i] one digit. *)
Lemma action_name_split (prefix : string) (i : Z) (act : string) (c : ascii) :
  pretty i = String c EmptyString ->
  prefix +:+ pretty i +:+ act = (prefix +:+ String c EmptyString) +:+ act.
Proof. intros ->. by rewrite str_app_assoc, str_app_cons, str_app_nil_l. Qed.

Lemma length_app_char (p : string) (c : ascii) :
  String.length (p +:+ String c EmptyString) = S (String.length p).
Proof. rewrite append_length. cbn. lia. Qed.

(** index.js: the action [shade<i><act>] ([up], [down], [stop] as
    [addShade] registers them) is the request [POST shade/<i-1>/<act>],
    for a one-digit shade number [i]. *)
Lemma performAction_v1_shade (i : Z) (act : string) (o : fetch_outcome jsval) :
  1 <= i <= 9 ->
  performAction_v1 ("shade" +:+ pretty i +:+ act) o =
  apiCall ("shade/" +:+ pretty (i - 1) +:+ "/" +:+ act) "POST" o.
Proof.
  intros Hi. destruct (pretty_digit i Hi) as (c & Hc & Hp).
  unfold performAction_v1. rewrite (action_name_split _ _ _ _ Hc).
  rewrite (str_app_assoc "shade"), starts_with_app, <- (str_app_assoc "shade").
  assert (E5 : js_slice 5 6 (("shade" +:+ String c EmptyString) +:+ act) = String c EmptyString)
    by (destruct act; reflexivity).
  rewrite E5, Hp.
  rewrite <- (js_slice_from_app ("shade" +:+ String c EmptyString) act) at 2.
  reflexivity.
Qed.

Lemma performAction_v1_shade_witness :
  (1 <= 2 <= 9) /\
  performAction_v1 ("shade" +:+ pretty 2 +:+ "up") (Response 200 (Some (JObj [])) EmptyString) =
  apiCall ("shade/" +:+ pretty (2 - 1) +:+ "/" +:+ "up") "POST" (Response 200 (Some (JObj [])) EmptyString).
Proof. split; [lia | apply (performAction_v1_shade 2 "up" (Response 200 (Some (JObj [])) EmptyString)); lia]. Defined.

Lemma js_slice_name (prefix act : string) (c : ascii) :
  js_slice (String.length prefix) (S (String.length prefix)) ((prefix +:+ String c EmptyString) +:+ act)
  = String c EmptyString.
Proof.
  unfold js_slice. replace (S (String.length prefix) - String.length prefix)%nat with 1%nat by lia.
  induction prefix as [|x p IH]; [destruct act; reflexivity | exact IH].
Qed.

Lemma strip_prefix_some (p s r : string) : strip_prefix p s = Some r -> s = p +:+ r.
Proof.
  revert s. induction p as [|c p IH]; intros [|c' s] H; cbn in H.
  - by inversion H.
  - by inversion H.
  - discriminate.
  - destruct (Ascii.eqb c c') eqn:E; [|discriminate].
    apply Ascii.eqb_eq in E as ->. rewrite (IH s H). reflexivity.
Qed.

Lemma split_on_cons (c : ascii) (s : string) : exists x xs, split_on c s = x :: xs.
Proof.
  induction s as [|y s (x & xs & IH)]; [by exists EmptyString, [] |].
  cbn [split_on]. destruct (Ascii.eqb y c); [by eexists _, _ |].
  rewrite IH. by eexists _, _.
Qed.

Lemma join_cons_char (sep : string) (c : ascii) (x : string) (xs : list string) :
  join sep (String c x :: xs) = String c (join sep (x :: xs)).
Proof. destruct xs; reflexivity. Qed.

Lemma join_cons2 (sep x y : string) (ys : list string) :
  join sep (x :: y :: ys) = x +:+ sep +:+ join sep (y :: ys).
Proof. reflexivity. Qed.

(** [s.split(c).join(c)] is [s]. *)
Lemma join_split (c : ascii) (s : string) :
  join (String c EmptyString) (split_on c s) = s.
Proof.
  induction s as [|y s IH]; [reflexivity|].
  cbn [split_on]. destruct (Ascii.eqb y c) eqn:E.
  - apply Ascii.eqb_eq in E as ->.
    destruct (split_on_cons c s) as (x & xs & Hs). rewrite Hs in *.
    rewrite join_cons2, str_app_nil_l, str_app_cons, str_app_nil_l, IH. reflexivity.
  - destruct (split_on_cons c s) as (x & xs & Hs). rewrite Hs in *.
    rewrite join_cons_char, IH. reflexivity.
Qed.

Lemma ascii_lower_slash (x : ascii) : Ascii.eqb "/"%char (ascii_lower x) = Ascii.eqb "/"%char x.
Proof. destruct x as [[] [] [] [] [] [] [] []]; reflexivity. Qed.

Lemma str_has_slash_lower (m : string) :
  str_has "/"%char (str_map ascii_lower m) = str_has "/"%char m.
Proof.
  induction m as [|x m IH]; [reflexivity|].
  cbn [str_map str_has]. rewrite ascii_lower_slash, IH. reflexivity.
Qed.

Lemma set_deviceType_same (d : dev) (ty : jsval) :
  d.(deviceType) = ty -> set_deviceType ty d = d.
Proof. destruct d; cbn. intros ->. reflexivity. Qed.

(** part_000: the actions [shade<i>stop], [shade<i>up] and [shade<i>down]
    publish [{motion: 0}], [{motion: 1}] and [{motion: 2}] on
    [dingz/<mac in lower case>/<deviceType>/command/motor/<i-1>], for a
    one-digit shade number [i] and a device whose type is known; any other
    [shade<i>...] action publishes nothing. *)
Lemma performAction_shade_motion (JSON_stringify : jsval -> string)
  (js_String : jsval -> option string) (d : dev) (i : Z) (ty : string) :
  1 <= i <= 9 -> d.(deviceType) = JStr ty -> ty <> EmptyString ->
  (forall act m, In (act, m) [("stop", 0); ("up", 1); ("down", 2)] ->
     performAction JSON_stringify js_String d ("shade" +:+ pretty i +:+ act) =
     Ok (Some ("dingz/" +:+ str_map ascii_lower d.(mac) +:+ "/" +:+ ty +:+
               "/command/motor/" +:+ pretty (i - 1),
               JSON_stringify (JObj [("motion", JNum (pretty m))])))) /\
  (forall act, act ∉ ["stop"; "up"; "down"] ->
     performAction JSON_stringify js_String d ("shade" +:+ pretty i +:+ act) = Ok None).
Proof.
  intros Hi Hty Hne. destruct (pretty_digit i Hi) as (c & Hc & Hp).
  assert (Hname : forall act,
    performAction JSON_stringify js_String d ("shade" +:+ pretty i +:+ act) =
    match (if String.eqb act "stop" then Some 0
           else if String.eqb act "up" then Some 1
           else if String.eqb act "down" then Some 2 else None) with
    | None => Ok None
    | Some m => sendMqttEvent JSON_stringify js_String d
                  ("command/motor/" +:+ pretty (i - 1)) (JObj [("motion", JNum (pretty m))])
    end).
  { intros act. unfold performAction. rewrite (action_name_split _ _ _ _ Hc).
    rewrite (str_app_assoc "shade"), starts_with_app, <- (str_app_assoc "shade").
    rewrite (js_slice_name "shade" act c : js_slice 5 6 _ = _), Hp.
    change 6%nat with (String.length ("shade" +:+ String c EmptyString)).
    rewrite js_slice_from_app. reflexivity. }
  assert (Hsend : forall p m, sendMqttEvent JSON_stringify js_String d p m =
                    Ok (Some ("dingz/" +:+ str_map ascii_lower d.(mac) +:+ "/" +:+ ty +:+ "/" +:+ p,
                              JSON_stringify m))).
  { intros p m. unfold sendMqttEvent. rewrite Hty. cbn [truthy js_template].
    apply String.eqb_neq in Hne. rewrite Hne. reflexivity. }
  split.
  - intros act m Hin.
    destruct Hin as [E|[E|[E|[]]]]; inversion E; subst;
      rewrite Hname; cbn -[sendMqttEvent pretty]; rewrite Hsend; reflexivity.
  - intros act Hn. rewrite Hname.
    apply not_elem_of_cons in Hn as [H1 Hn].
    apply not_elem_of_cons in Hn as [H2 Hn].
    apply not_elem_of_cons in Hn as [H3 _].
    apply String.eqb_neq in H1, H2, H3. rewrite H1, H2, H3. reflexivity.
Qed.

Lemma performAction_shade_motion_witness :
  (1 <= 1 <= 9) /\
  (forall act m, In (act, m) [("stop", 0); ("up", 1); ("down", 2)] ->
     performAction (fun _ => "{}") (fun _ => None) (set_deviceType (JStr "dingz") dev_example)
       ("shade" +:+ pretty 1 +:+ act) =
     Ok (Some ("dingz/" +:+ str_map ascii_lower (set_deviceType (JStr "dingz") dev_example).(mac)
               +:+ "/" +:+ "dingz" +:+ "/command/motor/" +:+ pretty (1 - 1),
               (fun _ => "{}") (JObj [("motion", JNum (pretty m))])))) /\
  (forall act, act ∉ ["stop"; "up"; "down"] ->
     performAction (fun _ => "{}") (fun _ => None) (set_deviceType (JStr "dingz") dev_example)
       ("shade" +:+ pretty 1 +:+ act) = Ok None).
Proof.
  split; [lia|].
  apply (performAction_shade_motion (fun _ => "{}") (fun _ => None)
           (set_deviceType (JStr "dingz") dev_example) 1 "dingz"); [lia | reflexivity | discriminate].
Defined.

(** part_000: the action [dimmer<i>toggle] publishes [{turn: "toggle"}] on
    [dingz/<mac in lower case>/<deviceType>/command/light/<i-1>], for a
    one-digit dimmer number [i] and a device whose type is known. *)
Lemma performAction_dimmer_toggle (JSON_stringify : jsval -> string)
  (js_String : jsval -> option string) (d : dev) (i : Z) (ty : string) :
  1 <= i <= 9 -> d.(deviceType) = JStr ty -> ty <> EmptyString ->
  performAction JSON_stringify js_String d ("dimmer" +:+ pretty i +:+ "toggle") =
  Ok (Some ("dingz/" +:+ str_map ascii_lower d.(mac) +:+ "/" +:+ ty +:+
            "/command/light/" +:+ pretty (i - 1),
            JSON_stringify (JObj [("turn", JStr "toggle")]))).
Proof.
  intros Hi Hty Hne. destruct (pretty_digit i Hi) as (c & Hc & Hp).
  unfold performAction. rewrite (action_name_split _ _ _ _ Hc).
  rewrite (str_app_assoc "dimmer"), starts_with_app, <- (str_app_assoc "dimmer").
  change (starts_with "shade" (("dimmer" +:+ String c EmptyString) +:+ "toggle")) with false.
  cbv iota.
  rewrite (js_slice_name "dimmer" "toggle" c : js_slice 6 7 _ = _), Hp.
  unfold sendMqttEvent. rewrite Hty. cbn [truthy js_template].
  apply String.eqb_neq in Hne. rewrite Hne. reflexivity.
Qed.

Lemma performAction_dimmer_toggle_witness :
  (1 <= 2 <= 9) /\
  performAction (fun _ => "{}") (fun _ => None) (set_deviceType (JStr "dingz") dev_example)
    ("dimmer" +:+ pretty 2 +:+ "toggle") =
  Ok (Some ("dingz/" +:+ str_map ascii_lower (set_deviceType (JStr "dingz") dev_example).(mac)
            +:+ "/" +:+ "dingz" +:+ "/command/light/" +:+ pretty (2 - 1),
            (fun _ => "{}") (JObj [("turn", JStr "toggle")]))).
Proof.
  split; [lia|].
  apply (performAction_dimmer_toggle (fun _ => "{}") (fun _ => None)
           (set_deviceType (JStr "dingz") dev_example) 2 "dingz"); [lia | reflexivity | discriminate].
Defined.

(** part_000: no action and no [sendMqttEvent] publishes anything while the
    device type is not known ([deviceType] falsy). *)
Lemma performAction_untyped_silent (JSON_stringify : jsval -> string)
  (js_String : jsval -> option string) (d : dev) :
  truthy d.(deviceType) = false ->
  (forall name, performAction JSON_stringify js_String d name = Ok None) /\
  (forall path message, sendMqttEvent JSON_stringify js_String d path message = Ok None).
Proof.
  intros Hf.
  assert (Hs : forall path message, sendMqttEvent JSON_stringify js_String d path message = Ok None)
    by (intros; unfold sendMqttEvent; rewrite Hf; reflexivity).
  split; [|exact Hs].
  intros name. unfold performAction.
  destruct (starts_with "shade" name); [| destruct (starts_with "dimmer" name); [apply Hs | reflexivity]].
  destruct (String.eqb _ "stop"); [apply Hs|].
  destruct (String.eqb _ "up"); [apply Hs|].
  destruct (String.eqb _ "down"); [apply Hs | reflexivity].
Qed.

Lemma performAction_untyped_silent_witness :
  truthy (set_deviceType JUndef dev_example).(deviceType) = false /\
  (forall name, performAction (fun _ => "{}") (fun _ => None) (set_deviceType JUndef dev_example) name = Ok None) /\
  (forall path message, sendMqttEvent (fun _ => "{}") (fun _ => None) (set_deviceType JUndef dev_example) path message = Ok None).
Proof. split; [reflexivity | apply performAction_untyped_silent; reflexivity]. Defined.

(** part_000: a command the adapter publishes for a device
    ([sendMqttEvent] with a path [command/...]) comes back on the
    subscription [dingz/#] and leaves the adapter as it was, whatever the
    payload parses to: the message handler finds the device by the lower
    case MAC of the topic, and [mqttEvent] ignores the event [command]. *)
Lemma command_echo_ignored (hex2 : jsval -> option string)
  (JSON_stringify : jsval -> string) (js_String : jsval -> option string)
  (a : adapter) (d : dev) (ty path topic payload : string) (message : jsval) :
  starts_with "command/" path = true ->
  d.(deviceType) = JStr ty ->
  str_has "/"%char ty = false ->
  ty ∉ ["online"; "announce"; "last_alive"] ->
  str_has "/"%char d.(mac) = false ->
  a.(devices) !! ("dingz-" +:+ str_map ascii_lower d.(mac)) = Some d ->
  sendMqttEvent JSON_stringify js_String d path message = Ok (Some (topic, payload)) ->
  on_message hex2 topic payload a = (a, Ok tt).
Proof.
  intros Hp Hty Hts Hto Hm Hlook Hsend.
  unfold starts_with in Hp. destruct (strip_prefix "command/" path) as [r|] eqn:Er; [|discriminate].
  apply strip_prefix_some in Er as ->.
  unfold sendMqttEvent in Hsend. rewrite Hty in Hsend. cbn [truthy js_template] in Hsend.
  destruct (negb (negb (String.eqb ty ""))); [discriminate|].
  injection Hsend as <- <-.
  set (lm := str_map ascii_lower d.(mac)) in *.
  assert (Hlm : str_has "/"%char lm = false) by (unfold lm; rewrite str_has_slash_lower; exact Hm).
  assert (Htopic : "dingz/" +:+ lm +:+ "/" +:+ (ty +:+ "/" +:+ ("command/" +:+ r)) =
                   "dingz" +:+ String "/" (lm +:+ String "/" (ty +:+ String "/" ("command" +:+ String "/" r))))
    by reflexivity.
  assert (Hsplit : split_on "/"%char ("dingz/" +:+ lm +:+ "/" +:+ (ty +:+ "/" +:+ ("command/" +:+ r))) =
                   "dingz" :: lm :: ty :: "command" :: split_on "/"%char r).
  { rewrite Htopic, split_on_app by reflexivity. rewrite split_on_app by exact Hlm.
    rewrite split_on_app by exact Hts. rewrite split_on_app by reflexivity. reflexivity. }
  unfold on_message. rewrite Hsplit. cbn [String.eqb Ascii.eqb Bool.eqb negb andb drop lookup].
  destruct (parse_message _ _) as [parsed|]; [|reflexivity].
  change (list_lookup 0%nat (lm :: ty :: "command" :: split_on "/"%char r)) with (Some lm).
  cbn [default]. unfold id. rewrite Hlook.
  destruct (split_on_cons "/"%char r) as (x & xs & Hx).
  assert (Hjoin : join "/" (ty :: "command" :: split_on "/"%char r) =
                  ty +:+ String "/" ("command" +:+ String "/" r)).
  { rewrite Hx, !join_cons2, <- Hx, (join_split "/"%char r). reflexivity. }
  rewrite Hjoin.
  apply not_elem_of_cons in Hto as [H1 Hto].
  apply not_elem_of_cons in Hto as [H2 Hto].
  apply not_elem_of_cons in Hto as [H3 _].
  apply String.eqb_neq in H1, H2, H3.
  unfold mqttEvent. rewrite split_on_app by exact Hts. rewrite split_on_app by reflexivity.
  cbn [nth_str lookup list_lookup default]. unfold id. rewrite H1, H2, H3.
  unfold bind, modify. cbn.
  rewrite (set_deviceType_same d (JStr ty) Hty), (insert_id _ _ _ Hlook).
  destruct a. reflexivity.
Qed.

Lemma command_echo_ignored_witness :
  starts_with "command/" "command/led" = true /\
  (set_deviceType (JStr "dingz") dev_example).(deviceType) = JStr "dingz" /\
  str_has "/"%char "dingz" = false /\
  ("dingz" ∉ ["online"; "announce"; "last_alive"]) /\
  str_has "/"%char (set_deviceType (JStr "dingz") dev_example).(mac) = false /\
  devices adapter_typed
    !! ("dingz-" +:+ str_map ascii_lower (set_deviceType (JStr "dingz") dev_example).(mac))
    = Some (set_deviceType (JStr "dingz") dev_example) /\
  on_message (fun _ => None) "dingz/aabbccddeeff/dingz/command/led" "{}"
    adapter_typed =
  (adapter_typed, Ok tt).
Proof.
  assert (Hl : devices adapter_typed
    !! ("dingz-" +:+ str_map ascii_lower (set_deviceType (JStr "dingz") dev_example).(mac))
    = Some (set_deviceType (JStr "dingz") dev_example))
    by (unfold adapter_typed; cbn; rewrite lookup_singleton, decide_True by reflexivity; reflexivity).
  assert (Hn : "dingz" ∉ ["online"; "announce"; "last_alive"]) by (vm_compute; set_solver).
  split; [reflexivity|]. split; [reflexivity|]. split; [reflexivity|]. split; [exact Hn|].
  split; [reflexivity|]. split; [exact Hl|].
  apply (command_echo_ignored (fun _ => None) (fun _ => "{}") (fun _ => None)
           _ (set_deviceType (JStr "dingz") dev_example) "dingz" "command/led"
           "dingz/aabbccddeeff/dingz/command/led" "{}" (JObj []));
    [reflexivity | reflexivity | reflexivity | exact Hn | reflexivity | exact Hl | reflexivity].
Defined.

(** A discovery of a MAC whose device is not registered yet starts a new
    [Dingz] construction every time: [n] such discoveries before the first
    construction registers its device start [n] constructions. *)
Lemma discovery_repeat_constructs (m : string) (addr : jsval) (a : adapter) (n : nat) :
  a.(devices) !! ("dingz-" +:+ str_map ascii_lower m) = None ->
  Nat.iter n (fun a' => fst (handleDiscovery m addr a')) a =
  mkAdapter a.(devices) (a.(created) ++ repeat (m, addr) n).
Proof.
  intros Hn. induction n as [|n IH].
  - cbn. rewrite app_nil_r. by destruct a.
  - rewrite Nat.iter_succ, IH. unfold handleDiscovery. cbn [devices created]. rewrite Hn.
    cbn [fst]. f_equal. rewrite <- app_assoc. f_equal.
    change (repeat (m, addr) n ++ [(m, addr)] = repeat (m, addr) (S n)).
    clear. induction n as [|n IHn]; [reflexivity | cbn; by rewrite IHn].
Qed.

Lemma discovery_repeat_constructs_witness :
  (mkAdapter ∅ []).(devices) !! ("dingz-" +:+ str_map ascii_lower "AABBCCDDEEFF") = None /\
  Nat.iter 2 (fun a' => fst (handleDiscovery "AABBCCDDEEFF" (JStr "192.168.1.20") a')) (mkAdapter ∅ []) =
  mkAdapter (mkAdapter ∅ []).(devices)
    ((mkAdapter ∅ []).(created) ++ repeat ("AABBCCDDEEFF", JStr "192.168.1.20") 2).
Proof. split; [reflexivity | apply discovery_repeat_constructs; reflexivity]. Defined.

(** ** Writing a property ([DingzProperty.setValue]) *)

Lemma channel_bytes :
  forallb (fun n => let s := pad2 (to_hex (Z.of_nat n)) in
                    Nat.eqb (String.length s) 2 &&
                    match parseInt16 s with Some v => Z.eqb v (Z.of_nat n) | None => false end)
    (seq 0 256) = true.
Proof. vm_compute. reflexivity. Qed.

Lemma pad2_byte (r : Z) :
  0 <= r <= 255 ->
  exists x y, pad2 (to_hex r) = String x (String y EmptyString) /\
              parseInt16 (String x (String y EmptyString)) = Some r.
Proof.
  intros Hr. pose proof channel_bytes as H.
  apply forallb_forall with (x := Z.to_nat r) in H;
    [| apply in_seq; lia].
  rewrite Z2Nat.id in H by lia. cbv zeta in H.
  apply andb_true_iff in H as [Hl Hp]. apply Nat.eqb_eq in Hl.
  destruct (pad2 (to_hex r)) as [|x [|y [|z w]]]; cbn in Hl; try discriminate.
  exists x, y. split; [reflexivity|].
  destruct (parseInt16 _) as [v|]; [|discriminate]. apply Z.eqb_eq in Hp. by subst.
Qed.

Lemma sendMqttEvent_typed (JSON_stringify : jsval -> string) (js_String : jsval -> option string)
  (d : dev) (ty path : string) (message : jsval) :
  d.(deviceType) = JStr ty -> ty <> EmptyString ->
  sendMqttEvent JSON_stringify js_String d path message =
  Ok (Some ("dingz/" +:+ str_map ascii_lower d.(mac) +:+ "/" +:+ ty +:+ "/" +:+ path,
            JSON_stringify message)).
Proof.
  intros Hty Hne. unfold sendMqttEvent. rewrite Hty. cbn [truthy js_template].
  apply String.eqb_neq in Hne. rewrite Hne. reflexivity.
Qed.

(** part_000: writing [ledColor] with the colour string the device reports
    ([#rrggbb], each channel [toString(16)] padded to two digits) publishes
    the same three channels [{r, g, b}] on [command/led]; a falsy value
    publishes nothing, and the write returns before [super.setValue], so
    the property keeps its value. *)
Lemma ledColor_round_trip (js_String : jsval -> option string) (JSON_stringify : jsval -> string)
  (super_setValue : string -> jsval -> M unit)
  (arr : list jsval -> nat -> option nat -> option Z) (o : fetch_outcome jsval)
  (d : dev) (ty : string) (r g b : Z) :
  0 <= r <= 255 -> 0 <= g <= 255 -> 0 <= b <= 255 ->
  d.(deviceType) = JStr ty -> ty <> EmptyString ->
  setValue js_String JSON_stringify super_setValue arr "ledColor" (JStr (color_string r g b)) o d =
  (super_setValue "ledColor" (JStr (color_string r g b)) ;;;
   ret (Some ("dingz/" +:+ str_map ascii_lower d.(mac) +:+ "/" +:+ ty +:+ "/command/led",
              JSON_stringify (JObj [("r", JNum (pretty r)); ("g", JNum (pretty g));
                                    ("b", JNum (pretty b))])))) d /\
  (forall v, truthy v = false ->
     setValue js_String JSON_stringify super_setValue arr "ledColor" v o d = (Ok None, d)).
Proof.
  intros Hr Hg Hb Hty Hne. split.
  - destruct (pad2_byte r Hr) as (r1 & r2 & Er & Pr).
    destruct (pad2_byte g Hg) as (g1 & g2 & Eg & Pg).
    destruct (pad2_byte b Hb) as (b1 & b2 & Eb & Pb).
    unfold color_string. rewrite Er, Eg, Eb.
    unfold setValue, channel, publish.
    cbn [String.eqb Ascii.eqb Bool.eqb andb truthy negb].
    unfold js_slice, js_slice_from. rewrite ?str_app_cons, ?str_app_nil_l.
    cbn [substring String.length Nat.sub String.eqb Ascii.eqb Bool.eqb andb negb].
    rewrite Pr, Pg, Pb. cbn [js_num].
    unfold bind at 1 2 3 4 5, ret at 1 2 3, get at 1.
    rewrite (sendMqttEvent_typed _ _ d ty _ _ Hty Hne). reflexivity.
  - intros v Hv. unfold setValue. cbn [String.eqb Ascii.eqb Bool.eqb andb].
    rewrite Hv. reflexivity.
Qed.

Lemma ledColor_round_trip_witness :
  (0 <= 255 <= 255) /\ (0 <= 16 <= 255) /\ (0 <= 0 <= 255) /\
  (set_deviceType (JStr "dingz") dev_example).(deviceType) = JStr "dingz" /\ "dingz" <> EmptyString /\
  setValue (fun _ => None) (fun _ => "{}") (fun _ _ => ret tt) (fun _ _ _ => None) "ledColor"
    (JStr (color_string 255 16 0)) ok_response (set_deviceType (JStr "dingz") dev_example) =
  (ret tt ;;;
   ret (Some ("dingz/" +:+ str_map ascii_lower (set_deviceType (JStr "dingz") dev_example).(mac) +:+
              "/" +:+ "dingz" +:+ "/command/led",
              (fun _ => "{}") (JObj [("r", JNum (pretty 255)); ("g", JNum (pretty 16));
                                    ("b", JNum (pretty 0))])))) (set_deviceType (JStr "dingz") dev_example) /\
  (forall v, truthy v = false ->
     setValue (fun _ => None) (fun _ => "{}") (fun _ _ => ret tt) (fun _ _ _ => None) "ledColor" v
       ok_response (set_deviceType (JStr "dingz") dev_example) =
     (Ok None, set_deviceType (JStr "dingz") dev_example)).
Proof.
  do 5 (split; [first [lia | reflexivity | discriminate] |]).
  apply (ledColor_round_trip (fun _ => None) (fun _ => "{}") (fun _ _ => ret tt) (fun _ _ _ => None)
           ok_response (set_deviceType (JStr "dingz") dev_example) "dingz" 255 16 0);
    first [lia | reflexivity | discriminate].
Defined.

(** Setting [thermostatMode] to ['off']: index.js sends [enable=false]
    with the current target temperature, while part_000 sends
    [thermostat/on] for every mode of the property's enum, ['off']
    included, since it tests the value for truthiness. *)
Lemma thermostat_mode_off (js_String : jsval -> option string) (JSON_stringify : jsval -> string)
  (super_setValue : string -> jsval -> M unit)
  (arr : list jsval -> nat -> option nat -> option Z) (o : fetch_outcome jsval)
  (d : dev) (t : jsval) (ts : string) :
  d.(properties) !! "targetTemperature" = Some t -> js_template js_String t = Some ts ->
  setValue_v1 js_String super_setValue "thermostatMode" (JStr "off") o d =
  (apiCall ("thermostat?target_temp=" +:+ ts +:+ "&enable=false") "POST" o ;;;
   super_setValue "thermostatMode" (JStr "off")) d /\
  (forall m, In m ["off"; "heat"; "cool"] ->
     setValue js_String JSON_stringify super_setValue arr "thermostatMode" (JStr m) o d =
     (apiCall ("thermostat/on?temp=" +:+ ts) "POST" o ;;;
      super_setValue "thermostatMode" (JStr m) ;;; ret None) d).
Proof.
  intros Ht Hts. split.
  - unfold setValue_v1. cbn [String.eqb Ascii.eqb Bool.eqb andb].
    unfold getProperty, tmpl, bind, get, ret. cbv beta.
    rewrite Ht. cbv beta iota. rewrite Hts. cbv beta iota.
    change (js_eq_str (JStr "off") "off") with true. cbv iota.
    destruct (apiCall _ _ o d) as [[x|e] d']; reflexivity.
  - intros m Hm. unfold setValue. cbn [String.eqb Ascii.eqb Bool.eqb andb].
    assert (Hmt : truthy (JStr m) = true) by (destruct Hm as [<-|[<-|[<-|[]]]]; reflexivity).
    unfold getProperty, tmpl, bind, get, ret. cbv beta.
    rewrite Ht. cbv beta iota. rewrite Hts. cbv beta iota. rewrite Hmt.
    destruct (apiCall _ _ o d) as [[x|e] d']; reflexivity.
Qed.

Lemma thermostat_mode_off_witness :
  dev_thermo21.(properties) !! "targetTemperature" = Some (JStr "21") /\
  js_template (fun _ => None) (JStr "21") = Some "21" /\
  setValue_v1 (fun _ => None) (fun _ _ => ret tt) "thermostatMode" (JStr "off")
    ok_response dev_thermo21 =
  (apiCall ("thermostat?target_temp=" +:+ "21" +:+ "&enable=false") "POST"
     ok_response ;;; ret tt) dev_thermo21 /\
  (forall m, In m ["off"; "heat"; "cool"] ->
     setValue (fun _ => None) (fun _ => "{}") (fun _ _ => ret tt) (fun _ _ _ => None)
       "thermostatMode" (JStr m) ok_response dev_thermo21 =
     (apiCall ("thermostat/on?temp=" +:+ "21") "POST" ok_response ;;;
      ret tt ;;; ret None) dev_thermo21).
Proof.
  assert (Hl : dev_thermo21.(properties) !! "targetTemperature" = Some (JStr "21"))
    by (unfold dev_thermo21; cbn; rewrite lookup_singleton, decide_True by reflexivity; reflexivity).
  split; [exact Hl|]. split; [reflexivity|].
  exact (thermostat_mode_off (fun _ => None) (fun _ => "{}") (fun _ _ => ret tt) (fun _ _ _ => None)
           ok_response dev_thermo21 (JStr "21") "21" Hl eq_refl).
Defined.

(** Writing [thermostatMode] or [targetTemperature] when the other of the
    two is not a property of the device rejects in both generations, before
    any request and before [super.setValue]: the device is left as it was. *)
Lemma thermostat_missing_property (js_String : jsval -> option string)
  (JSON_stringify : jsval -> string) (super_setValue : string -> jsval -> M unit)
  (arr : list jsval -> nat -> option nat -> option Z) (o : fetch_outcome jsval)
  (d : dev) (name other : string) (v : jsval) :
  In (name, other) [("thermostatMode", "targetTemperature"); ("targetTemperature", "thermostatMode")] ->
  d.(properties) !! other = None ->
  (exists e, setValue_v1 js_String super_setValue name v o d = (Exc e, d)) /\
  (exists e, setValue js_String JSON_stringify super_setValue arr name v o d = (Exc e, d)).
Proof.
  intros Hin Hn.
  destruct Hin as [E|[E|[]]]; inversion E; subst;
    unfold setValue_v1, setValue; cbn [String.eqb Ascii.eqb Bool.eqb andb];
    unfold getProperty, bind, get, throw; cbv beta; rewrite Hn;
    split; eexists; reflexivity.
Qed.

Lemma thermostat_missing_property_witness :
  In ("thermostatMode", "targetTemperature")
     [("thermostatMode", "targetTemperature"); ("targetTemperature", "thermostatMode")] /\
  dev_example.(properties) !! "targetTemperature" = None /\
  (exists e, setValue_v1 (fun _ => None) (fun _ _ => ret tt) "thermostatMode" (JStr "heat")
               ok_response dev_example = (Exc e, dev_example)) /\
  (exists e, setValue (fun _ => None) (fun _ => "{}") (fun _ _ => ret tt) (fun _ _ _ => None)
               "thermostatMode" (JStr "heat") ok_response dev_example
             = (Exc e, dev_example)).
Proof.
  assert (Hin : In ("thermostatMode", "targetTemperature")
     [("thermostatMode", "targetTemperature"); ("targetTemperature", "thermostatMode")]) by (left; reflexivity).
  assert (Hn : dev_example.(properties) !! "targetTemperature" = None) by reflexivity.
  split; [exact Hin|]. split; [exact Hn|].
  exact (thermostat_missing_property (fun _ => None) (fun _ => "{}") (fun _ _ => ret tt)
           (fun _ _ _ => None) ok_response dev_example
           "thermostatMode" "targetTemperature" (JStr "heat") Hin Hn).
Defined.

Lemma shade_name_facts (i : Z) :
  1 <= i <= 9 ->
  let n := "shade" +:+ pretty i in
  let nl := "shade" +:+ pretty i +:+ "Lamella" in
  String.eqb n "led" = false /\ String.eqb n "ledColor" = false /\
  String.eqb n "targetTemperature" = false /\ String.eqb n "thermostatMode" = false /\
  starts_with "shade" n = true /\ ends_with "Lamella" n = false /\
  js_slice_from 5 n = pretty i /\ n +:+ "Lamella" = nl /\
  String.eqb nl "led" = false /\ String.eqb nl "ledColor" = false /\
  String.eqb nl "targetTemperature" = false /\ String.eqb nl "thermostatMode" = false /\
  starts_with "shade" nl = true /\ ends_with "Lamella" nl = true /\
  js_slice_drop_end 7 nl = n /\ js_slice_drop_end 7 (js_slice_from 5 nl) = pretty i /\
  parseInt (pretty i) = Some i.
Proof.
  intros H.
  assert (i = 1 \/ i = 2 \/ i = 3 \/ i = 4 \/ i = 5 \/ i = 6 \/ i = 7 \/ i = 8 \/ i = 9) as Hi by lia.
  repeat destruct Hi as [->|Hi]; try subst i; vm_compute; repeat split.
Qed.

(** part_000: writing the position [shade<i>] of a shade whose lamella
    property is missing publishes [{position: value, lamella: 100}] on
    [command/motor/<i-1>]; writing [shade<i>Lamella] when [shade<i>] is
    missing publishes [{position: 100, lamella: value}]. *)
Lemma shade_fallback (js_String : jsval -> option string) (JSON_stringify : jsval -> string)
  (super_setValue : string -> jsval -> M unit)
  (arr : list jsval -> nat -> option nat -> option Z) (o : fetch_outcome jsval)
  (d : dev) (i : Z) (ty : string) (value : jsval) :
  1 <= i <= 9 -> d.(deviceType) = JStr ty -> ty <> EmptyString ->
  (d.(properties) !! ("shade" +:+ pretty i +:+ "Lamella") = None ->
   setValue js_String JSON_stringify super_setValue arr ("shade" +:+ pretty i) value o d =
   (super_setValue ("shade" +:+ pretty i) value ;;;
    ret (Some ("dingz/" +:+ str_map ascii_lower d.(mac) +:+ "/" +:+ ty +:+
               "/command/motor/" +:+ pretty (i - 1),
               JSON_stringify (JObj [("position", value); ("lamella", JNum "100")])))) d) /\
  (d.(properties) !! ("shade" +:+ pretty i) = None ->
   setValue js_String JSON_stringify super_setValue arr ("shade" +:+ pretty i +:+ "Lamella") value o d =
   (super_setValue ("shade" +:+ pretty i +:+ "Lamella") value ;;;
    ret (Some ("dingz/" +:+ str_map ascii_lower d.(mac) +:+ "/" +:+ ty +:+
               "/command/motor/" +:+ pretty (i - 1),
               JSON_stringify (JObj [("position", JNum "100"); ("lamella", value)])))) d).
Proof.
  intros Hi Hty Hne.
  destruct (shade_name_facts i Hi) as (N1 & N2 & N3 & N4 & N5 & N6 & N7 & N8 &
                                       L1 & L2 & L3 & L4 & L5 & L6 & L7 & L8 & P).
  split; intros Hn.
  - unfold setValue. rewrite N1, N2, N3, N4, N5.
    unfold shade_values. rewrite N6, N7, N8.
    unfold getProperty_or_100, publish, bind, get, ret. cbv beta. rewrite Hn. cbv beta iota.
    rewrite P. cbn [option_map js_num_str].
    rewrite (sendMqttEvent_typed _ _ d ty _ _ Hty Hne). reflexivity.
  - unfold setValue. rewrite L1, L2, L3, L4, L5.
    unfold shade_values. rewrite L6, L7, L8.
    unfold getProperty_or_100, publish, bind, get, ret. cbv beta. rewrite Hn. cbv beta iota.
    rewrite P. cbn [option_map js_num_str].
    rewrite (sendMqttEvent_typed _ _ d ty _ _ Hty Hne). reflexivity.
Qed.

(** index.js: the same writes request
    [shade/<i-1>?blind=<value>&lamella=100] and
    [shade/<i-1>?blind=100&lamella=<value>]. *)
Lemma shade_fallback_v1 (js_String : jsval -> option string)
  (super_setValue : string -> jsval -> M unit) (o : fetch_outcome jsval)
  (d : dev) (i : Z) (value : jsval) (vs : string) :
  1 <= i <= 9 -> js_template js_String value = Some vs -> js_String (JNum "100") = Some "100" ->
  (d.(properties) !! ("shade" +:+ pretty i +:+ "Lamella") = None ->
   setValue_v1 js_String super_setValue ("shade" +:+ pretty i) value o d =
   (apiCall ("shade/" +:+ pretty (i - 1) +:+ "?blind=" +:+ vs +:+ "&lamella=100") "POST" o ;;;
    super_setValue ("shade" +:+ pretty i) value) d) /\
  (d.(properties) !! ("shade" +:+ pretty i) = None ->
   setValue_v1 js_String super_setValue ("shade" +:+ pretty i +:+ "Lamella") value o d =
   (apiCall ("shade/" +:+ pretty (i - 1) +:+ "?blind=100&lamella=" +:+ vs) "POST" o ;;;
    super_setValue ("shade" +:+ pretty i +:+ "Lamella") value) d).
Proof.
  intros Hi Hv H100.
  destruct (shade_name_facts i Hi) as (N1 & N2 & N3 & N4 & N5 & N6 & N7 & N8 &
                                       L1 & L2 & L3 & L4 & L5 & L6 & L7 & L8 & P).
  split; intros Hn.
  - unfold setValue_v1. rewrite N1, N2, N3, N4, N5.
    unfold shade_values. rewrite N6, N7, N8.
    unfold getProperty_or_100, tmpl, bind, get, ret. cbv beta. rewrite Hn. cbv beta iota.
    rewrite Hv. cbn [js_template]. rewrite H100. cbv beta iota.
    rewrite P. cbn [option_map js_num_str].
    destruct (apiCall _ _ o d) as [[x|e] d']; reflexivity.
  - unfold setValue_v1. rewrite L1, L2, L3, L4, L5.
    unfold shade_values. rewrite L6, L7, L8.
    unfold getProperty_or_100, tmpl, bind, get, ret. cbv beta. rewrite Hn. cbv beta iota.
    cbn [js_template]. rewrite H100. cbv beta iota. rewrite Hv.
    rewrite P. cbn [option_map js_num_str].
    destruct (apiCall _ _ o d) as [[x|e] d']; reflexivity.
Qed.

Lemma shade_fallback_witness :
  (1 <= 2 <= 9) /\ (set_deviceType (JStr "dingz") dev_example).(deviceType) = JStr "dingz" /\
  "dingz" <> EmptyString /\
  ((set_deviceType (JStr "dingz") dev_example).(properties) !! ("shade" +:+ pretty 2 +:+ "Lamella") = None ->
   setValue (fun _ => None) (fun _ => "{}") (fun _ _ => ret tt) (fun _ _ _ => None)
     ("shade" +:+ pretty 2) (JNum "40") ok_response (set_deviceType (JStr "dingz") dev_example) =
   (ret tt ;;;
    ret (Some ("dingz/" +:+ str_map ascii_lower (set_deviceType (JStr "dingz") dev_example).(mac) +:+
               "/" +:+ "dingz" +:+ "/command/motor/" +:+ pretty (2 - 1),
               (fun _ => "{}") (JObj [("position", JNum "40"); ("lamella", JNum "100")]))))
     (set_deviceType (JStr "dingz") dev_example)) /\
  ((set_deviceType (JStr "dingz") dev_example).(properties) !! ("shade" +:+ pretty 2) = None ->
   setValue (fun _ => None) (fun _ => "{}") (fun _ _ => ret tt) (fun _ _ _ => None)
     ("shade" +:+ pretty 2 +:+ "Lamella") (JNum "40") ok_response (set_deviceType (JStr "dingz") dev_example) =
   (ret tt ;;;
    ret (Some ("dingz/" +:+ str_map ascii_lower (set_deviceType (JStr "dingz") dev_example).(mac) +:+
               "/" +:+ "dingz" +:+ "/command/motor/" +:+ pretty (2 - 1),
               (fun _ => "{}") (JObj [("position", JNum "100"); ("lamella", JNum "40")]))))
     (set_deviceType (JStr "dingz") dev_example)).
Proof.
  split; [lia|]. split; [reflexivity|]. split; [discriminate|].
  apply (shade_fallback (fun _ => None) (fun _ => "{}") (fun _ _ => ret tt) (fun _ _ _ => None)
           ok_response (set_deviceType (JStr "dingz") dev_example) 2 "dingz" (JNum "40"));
    first [lia | reflexivity | discriminate].
Defined.

Lemma shade_fallback_v1_witness :
  (1 <= 2 <= 9) /\ js_template num_String (JNum "40") = Some "40" /\
  num_String (JNum "100") = Some "100" /\
  (dev_example.(properties) !! ("shade" +:+ pretty 2 +:+ "Lamella") = None ->
   setValue_v1 num_String (fun _ _ => ret tt) ("shade" +:+ pretty 2) (JNum "40") ok_response dev_example =
   (apiCall ("shade/" +:+ pretty (2 - 1) +:+ "?blind=" +:+ "40" +:+ "&lamella=100") "POST" ok_response ;;;
    ret tt) dev_example) /\
  (dev_example.(properties) !! ("shade" +:+ pretty 2) = None ->
   setValue_v1 num_String (fun _ _ => ret tt) ("shade" +:+ pretty 2 +:+ "Lamella") (JNum "40") ok_response dev_example =
   (apiCall ("shade/" +:+ pretty (2 - 1) +:+ "?blind=100&lamella=" +:+ "40") "POST" ok_response ;;;
    ret tt) dev_example).
Proof.
  split; [lia|]. split; [reflexivity|]. split; [reflexivity|].
  apply (shade_fallback_v1 num_String (fun _ _ => ret tt) ok_response dev_example 2 (JNum "40") "40");
    first [lia | reflexivity].
Defined.
